(** * RiotApiService: the API access layer of the bot

    A shallow embedding of [RiotApiService], [RateLimiter], [REGIONS] and
    [RiotApiUtils], and the properties of the access layer: region
    resolution, the two sliding rate windows, the TTL cache, the HTTP error
    classification and the Riot-ID lookup with its tagLine fallback.

    Conventions of the embedding:
    - JavaScript numbers that hold timestamps, durations, quotas and HTTP
      status codes are integers ([Z]); [NaN] only arises from [parseInt] and
      is [None] there.
    - JavaScript strings are [string] (byte strings, UTF-8); case mapping and
      white space are those of ASCII.
    - [Date.now()] is the field [clock] of the world; it advances by [sleep]
      and by the latency the transport reports, and stands still otherwise.
    - an [async] method is a function from the world to an outcome (a value
      returned or an error thrown) and the world it leaves; one logical
      request runs at a time.
    - a [Map] is an insertion-ordered association list ([JsMap]), because
      [keys()] exposes the order; an object literal used as a table is an
      association list of its own properties, looked up through
      [Object.prototype] as the language does.
    - the world carries a trace of what the service did (verdicts of the
      limiters, sleeps, transport calls), which the source does not keep;
      the service never reads it, and the transport is handed it as the
      history of the session.
    - [Logger] calls have no effect on the service and are left out. *)

From Stdlib Require Import ZArith List String Ascii Bool Lia DecimalString.
Import ListNotations.

Local Open Scope string_scope.
Local Open Scope list_scope.
Local Open Scope Z_scope.

(** String concatenation, as [+] on strings and in template literals. *)
Infix "+++" := String.append (right associativity, at level 60).

(* ================================================================== *)
(** * Part I. The embedding *)
(* ================================================================== *)

(** ** JavaScript strings *)

Module Js.

Definition code (c : ascii) : nat := nat_of_ascii c.

Definition is_upper (c : ascii) : bool :=
  (65 <=? code c)%nat && (code c <=? 90)%nat.

Definition lower_char (c : ascii) : ascii :=
  if is_upper c then ascii_of_nat (code c + 32) else c.

(** [String.prototype.toLowerCase]. *)
Fixpoint toLowerCase (s : string) : string :=
  match s with
  | EmptyString => EmptyString
  | String c s' => String (lower_char c) (toLowerCase s')
  end.

Definition upper_char (c : ascii) : ascii :=
  if ((97 <=? code c)%nat && (code c <=? 122)%nat)%bool
  then ascii_of_nat (code c - 32) else c.

(** [String.prototype.toUpperCase]. *)
Fixpoint toUpperCase (s : string) : string :=
  match s with
  | EmptyString => EmptyString
  | String c s' => String (upper_char c) (toUpperCase s')
  end.

(** [String.prototype.includes]: [needle] occurs in [s]. *)
Fixpoint includes (s needle : string) : bool :=
  String.prefix needle s ||
  match s with
  | EmptyString => false
  | String _ s' => includes s' needle
  end.

(** [String.prototype.split] with a one-character separator. *)
Fixpoint split (sep : ascii) (s : string) : list string :=
  match s with
  | EmptyString => [EmptyString]
  | String c s' =>
      if Ascii.eqb c sep then EmptyString :: split sep s'
      else match split sep s' with
           | [] => [String c EmptyString]
           | p :: ps => String c p :: ps
           end
  end.

(** White space of [trim] and of [parseInt]: TAB, LF, VT, FF, CR, SP. *)
Definition is_ws (c : ascii) : bool :=
  ((9 <=? code c)%nat && (code c <=? 13)%nat) || (code c =? 32)%nat.

Fixpoint trimStart (s : string) : string :=
  match s with
  | EmptyString => EmptyString
  | String c s' => if is_ws c then trimStart s' else s
  end.

Definition reverse (s : string) : string :=
  string_of_list_ascii (rev (list_ascii_of_string s)).

Definition trimEnd (s : string) : string := reverse (trimStart (reverse s)).

(** [String.prototype.trim]. *)
Definition trim (s : string) : string := trimEnd (trimStart s).

(** [Array.prototype.join]. *)
Definition join (sep : string) (l : list string) : string :=
  String.concat sep l.

(** A string is truthy when it is not empty. *)
Definition truthy (s : string) : bool :=
  match s with EmptyString => false | _ => true end.

(** Template-literal rendering of an integer. *)
Definition show (z : Z) : string := NilZero.string_of_int (Z.to_int z).

(** Value of a digit in radix 10 or 16. *)
Definition digit (radix : Z) (c : ascii) : option Z :=
  let n := code c in
  if ((48 <=? n)%nat && (n <=? 57)%nat)%bool then Some (Z.of_nat n - 48)
  else if (radix =? 16)%Z then
    if ((97 <=? n)%nat && (n <=? 102)%nat)%bool then Some (Z.of_nat n - 87)
    else if ((65 <=? n)%nat && (n <=? 70)%nat)%bool then Some (Z.of_nat n - 55)
    else None
  else None.

(** The longest prefix of digits, read left to right; [acc] is [None]
    while no digit has been read. *)
Fixpoint digits (radix : Z) (s : string) (acc : option Z) : option Z :=
  match s with
  | EmptyString => acc
  | String c s' =>
      match digit radix c with
      | Some d =>
          digits radix s'
            (Some (radix * match acc with Some a => a | None => 0 end + d))
      | None => acc
      end
  end.

(** [parseInt(s)] without a radix: leading white space, an optional sign,
    an optional [0x] prefix, then digits. [None] is [NaN]. *)
Definition parseInt (s : string) : option Z :=
  let s1 := trimStart s in
  let '(sign, s2) :=
    match s1 with
    | String c r =>
        if Ascii.eqb c "-" then (-1, r)
        else if Ascii.eqb c "+" then (1, r)
        else (1, s1)
    | EmptyString => (1, s1)
    end in
  let '(radix, s3) :=
    match s2 with
    | String c0 (String c1 r) =>
        if (Ascii.eqb c0 "0" && (Ascii.eqb c1 "x" || Ascii.eqb c1 "X"))%bool
        then (16, r)
        else (10, s2)
    | _ => (10, s2)
    end in
  match digits radix s3 None with
  | Some v => Some (sign * v)
  | None => None
  end.




Definition hex_digit (n : nat) : ascii :=
  if (n <? 10)%nat then ascii_of_nat (48 + n) else ascii_of_nat (55 + n).

Definition unreserved (c : ascii) : bool :=
  let n := code c in
  ((48 <=? n)%nat && (n <=? 57)%nat) || ((65 <=? n)%nat && (n <=? 90)%nat)
  || ((97 <=? n)%nat && (n <=? 122)%nat)
  || existsb (Ascii.eqb c) ["-"; "_"; "."; "!"; "~"; "*"; "'"; "("; ")"]%char.

(** [encodeURIComponent] on a UTF-8 byte string. *)
Fixpoint encodeURIComponent (s : string) : string :=
  match s with
  | EmptyString => EmptyString
  | String c s' =>
      if unreserved c then String c (encodeURIComponent s')
      else String "%" (String (hex_digit (code c / 16))
             (String (hex_digit (code c mod 16)) (encodeURIComponent s')))
  end.

End Js.

(** ** [Map]: insertion-ordered association lists *)

Module JsMap.

Definition t (V : Type) : Type := list (string * V).

Definition empty {V} : t V := [].

(** [Map.prototype.get]. *)
Fixpoint get {V} (k : string) (m : t V) : option V :=
  match m with
  | [] => None
  | (k', v) :: m' => if String.eqb k k' then Some v else get k m'
  end.

(** [Map.prototype.set]: an existing key keeps its place. *)
Fixpoint set {V} (k : string) (v : V) (m : t V) : t V :=
  match m with
  | [] => [(k, v)]
  | (k', v') :: m' =>
      if String.eqb k k' then (k, v) :: m' else (k', v') :: set k v m'
  end.

(** [Map.prototype.delete]. *)
Definition delete {V} (k : string) (m : t V) : t V :=
  filter (fun kv => negb (String.eqb k (fst kv))) m.

(** [Map.prototype.keys], as an array. *)
Definition keys {V} (m : t V) : list string := map fst m.

(** [Map.prototype.size]. *)
Definition size {V} (m : t V) : Z := Z.of_nat (List.length m).

End JsMap.

(** ** RateLimiter *)

Record RateLimiter : Type := mkRateLimiter {
  requests : list Z;
  limit : Z;
  windowMs : Z
}.

(** [new RateLimiter(limit, windowMs)]. *)
Definition newRateLimiter (limit windowMs : Z) : RateLimiter :=
  mkRateLimiter [] limit windowMs.

(** [RateLimiter.tryRequest], at clock reading [now]: the admission verdict
    and the limiter after the call. *)
Definition tryRequest (now : Z) (rl : RateLimiter) : bool * RateLimiter :=
  let kept := filter (fun time => now - time <? windowMs rl) (requests rl) in
  if Z.of_nat (List.length kept) <? limit rl
  then (true, mkRateLimiter (kept ++ [now]) (limit rl) (windowMs rl))
  else (false, mkRateLimiter kept (limit rl) (windowMs rl)).

(** [Math.min(...l)] of a non-empty array [r :: rs]. *)
Definition minimum (r : Z) (rs : list Z) : Z := fold_left Z.min rs r.

(** [RateLimiter.getRetryAfter], at clock reading [now]; it only reads. *)
Definition getRetryAfter (now : Z) (rl : RateLimiter) : Z :=
  match requests rl with
  | [] => 0
  | r :: rs =>
      let oldestRequest := minimum r rs in
      let retryAfter := windowMs rl - (now - oldestRequest) in
      Z.max 0 retryAfter
  end.

(** A call on one window, with the clock reading it sees. *)
Inductive WindowCall : Type :=
| TryRequest (now : Z)
| RetryAfter (now : Z).

Definition call_time (c : WindowCall) : Z :=
  match c with TryRequest now => now | RetryAfter now => now end.

(** What the caller observes. *)
Inductive WindowReply : Type :=
| Verdict (ok : bool)
| Delay (ms : Z).

Definition window_step (rl : RateLimiter) (c : WindowCall)
  : WindowReply * RateLimiter :=
  match c with
  | TryRequest now => let '(ok, rl') := tryRequest now rl in (Verdict ok, rl')
  | RetryAfter now => (Delay (getRetryAfter now rl), rl)
  end.

(** Runs the calls in order; the replies and the final window. *)
Fixpoint window_run (rl : RateLimiter) (cs : list WindowCall)
  : list WindowReply * RateLimiter :=
  match cs with
  | [] => ([], rl)
  | c :: cs' =>
      let '(r, rl1) := window_step rl c in
      let '(rs, rl2) := window_run rl1 cs' in
      (r :: rs, rl2)
  end.

(** The calls happen at non-decreasing times, none before [t0]. *)
Fixpoint chronological (t0 : Z) (cs : list WindowCall) : Prop :=
  match cs with
  | [] => True
  | c :: cs' => t0 <= call_time c /\ chronological (call_time c) cs'
  end.

(** Clock reading of the last call ([t0] when there is none). *)
Definition last_time (t0 : Z) (cs : list WindowCall) : Z :=
  fold_left (fun _ c => call_time c) cs t0.

(** No recorded entry is older than the window, seen from [now]. *)
Definition none_older (now : Z) (rl : RateLimiter) : Prop :=
  forall t, In t (requests rl) -> now - t <= windowMs rl.

(** Every recorded entry is younger than the window, seen from [now]. *)
Definition all_younger (now : Z) (rl : RateLimiter) : Prop :=
  forall t, In t (requests rl) -> now - t < windowMs rl.

(** ** REGIONS and property lookup on an object literal *)

Record RegionConfig : Type := mkRegionConfig {
  platform : string;
  region : string;
  continent : string
}.

Definition REGIONS : list (string * RegionConfig) :=
  [ ("na1",   mkRegionConfig "na1" "na1" "americas");
    ("euw1",  mkRegionConfig "euw1" "euw1" "europe");
    ("eune1", mkRegionConfig "eune1" "eune1" "europe");
    ("kr",    mkRegionConfig "kr" "kr" "asia");
    ("jp1",   mkRegionConfig "jp1" "jp1" "asia");
    ("br1",   mkRegionConfig "br1" "br1" "americas");
    ("la1",   mkRegionConfig "la1" "la1" "americas");
    ("la2",   mkRegionConfig "la2" "la2" "americas");
    ("oc1",   mkRegionConfig "oc1" "oc1" "sea");
    ("tr1",   mkRegionConfig "tr1" "tr1" "europe");
    ("ru",    mkRegionConfig "ru" "ru" "europe");
    ("ph2",   mkRegionConfig "ph2" "ph2" "sea");
    ("sg2",   mkRegionConfig "sg2" "sg2" "sea");
    ("th2",   mkRegionConfig "th2" "th2" "sea");
    ("tw2",   mkRegionConfig "tw2" "tw2" "sea");
    ("vn2",   mkRegionConfig "vn2" "vn2" "sea") ].

(** The properties an object literal inherits from [Object.prototype]; each
    of them holds a function or an object, so each is truthy. *)
Definition Object_prototype : list string :=
  [ "constructor"; "__proto__"; "hasOwnProperty"; "isPrototypeOf";
    "propertyIsEnumerable"; "toLocaleString"; "toString"; "valueOf";
    "__defineGetter__"; "__defineSetter__"; "__lookupGetter__";
    "__lookupSetter__" ].

(** The value of [obj[k]] for an object literal [obj]. *)
Inductive Property (V : Type) : Type :=
| Own (v : V)
| Inherited (name : string)
| Undefined.
Arguments Own {V} v.
Arguments Inherited {V} name.
Arguments Undefined {V}.

(** [obj[k]]: an own property, else one of [Object.prototype], else
    [undefined]. *)
Definition property {V} (obj : list (string * V)) (k : string) : Property V :=
  match JsMap.get k obj with
  | Some v => Own v
  | None =>
      if existsb (String.eqb k) Object_prototype then Inherited k
      else Undefined
  end.

(** [Object.prototype.hasOwnProperty.call(obj, k)]. *)
Definition hasOwnProperty {V} (obj : list (string * V)) (k : string) : bool :=
  match JsMap.get k obj with Some _ => true | None => false end.

(** [Object.keys(obj)]. *)
Definition Object_keys {V} (obj : list (string * V)) : list string :=
  map fst obj.

(** ** Errors *)

(** The [throw] sites of [handleApiError], one constructor each. *)
Inductive ApiFailure : Type :=
| BadRequest (errorMessage : string)
| Unauthorized
| Forbidden
| NotFound
| UnsupportedMediaType
| RateLimited
| InternalServerError
| BadGateway
| ServiceUnavailable
| ApiErrorOther (status : Z) (errorMessage : string).

(** Every value thrown is an [Error] with a message; the constructor
    records where it was thrown. [RuntimeError] is what the platform throws:
    the [URL] constructor, the transport, the JSON decoder, a [for...of]
    over a value that is not iterable. *)
Inductive JsError : Type :=
| InvalidRegionError (region : string)
| RiotApiFailure (f : ApiFailure)
| RuntimeError (msg : string)
| SummonerNotFoundError (summonerName : string).

(** The double quote character, as a string. *)
Definition dquote : string := String (ascii_of_nat 34) EmptyString.

Definition api_message (f : ApiFailure) : string :=
  match f with
  | BadRequest errorMessage => "Bad Request: " +++ errorMessage
  | Unauthorized => "Unauthorized: Invalid API key"
  | Forbidden => "Forbidden: API key may be expired or lacking permissions"
  | NotFound => "Not Found: Summoner or data not found"
  | UnsupportedMediaType => "Unsupported Media Type"
  | RateLimited => "Rate limited by Riot API"
  | InternalServerError =>
      "Internal Server Error: Riot API is experiencing issues"
  | BadGateway => "Bad Gateway: Riot API is temporarily unavailable"
  | ServiceUnavailable =>
      "Service Unavailable: Riot API is under maintenance"
  | ApiErrorOther status errorMessage =>
      "API Error " +++ Js.show status +++ ": " +++ errorMessage
  end.

(** [error.message]. *)
Definition message (e : JsError) : string :=
  match e with
  | InvalidRegionError region =>
      "Invalid region: " +++ region +++ ". Supported regions: "
      +++ Js.join ", " (Object_keys REGIONS)
  | RiotApiFailure f => api_message f
  | RuntimeError msg => msg
  | SummonerNotFoundError summonerName =>
      "Summoner " +++ dquote +++ summonerName +++ dquote
      +++ " not found. Please use full Riot ID format: gameName#tagLine (e.g., "
      +++ dquote +++ "Faker#KR1" +++ dquote +++ ")"
  end.




(** ** Region resolution *)

(** What [getRegionConfig] hands back: an entry of [REGIONS], or the truthy
    value found under an inherited property name. *)
Inductive RegionValue : Type :=
| Entry (rc : RegionConfig)
| Foreign (name : string).

(** [RiotApiService.getRegionConfig]. *)
Definition getRegionConfig (region : string) : JsError + RegionValue :=
  match property REGIONS (Js.toLowerCase region) with
  | Own rc => inr (Entry rc)
  | Inherited name => inr (Foreign name)
  | Undefined => inl (InvalidRegionError region)
  end.

(** [RiotApiUtils.isValidRegion]. *)
Definition isValidRegion (region : string) : bool :=
  hasOwnProperty REGIONS (Js.toLowerCase region).

(** [RiotApiUtils.getSupportedRegions]. *)
Definition getSupportedRegions : list string := Object_keys REGIONS.

(** [regionConfig.platform] in a template literal. *)
Definition platform_of (v : RegionValue) : string :=
  match v with Entry rc => platform rc | Foreign _ => "undefined" end.

(** [regionConfig.continent], [None] for [undefined]. *)
Definition continent_of (v : RegionValue) : option string :=
  match v with Entry rc => Some (continent rc) | Foreign _ => None end.

(** The table inside [getDefaultTagLinesForRegion]. *)
Definition tagLineMap : list (string * list string) :=
  [ ("americas", ["NA1"; "BR1"; "LAN"; "LAS"; "0000"]);
    ("europe",   ["EUW"; "EUNE"; "TR1"; "RU"; "0000"]);
    ("asia",     ["KR1"; "JP1"; "0000"]);
    ("sea",      ["OCE"; "PH2"; "SG2"; "TH2"; "TW2"; "VN2"; "0000"]) ].

(** [RiotApiService.getDefaultTagLinesForRegion]. An [undefined] continent
    is looked up as the key ["undefined"]; an inherited property of the
    table is truthy, is returned as it is and makes the caller's [for...of]
    throw; no continent of [REGIONS] reaches that case. *)
Definition getDefaultTagLinesForRegion (region : string)
  : JsError + list string :=
  match getRegionConfig region with
  | inl e => inl e
  | inr regionConfig =>
      let k := match continent_of regionConfig with
               | Some c => c
               | None => "undefined"
               end in
      match property tagLineMap k with
      | Own tags => inr tags
      | Inherited _ => inl (RuntimeError "defaultTagLines is not iterable")
      | Undefined => inr ["0000"]
      end
  end.

(** [RiotApiUtils.parseRiotId]. *)
Definition parseRiotId (riotId : string) : option (string * string) :=
  match Js.split "#" riotId with
  | [gameName; tagLine] => Some (Js.trim gameName, Js.trim tagLine)
  | _ => None
  end.

(** ** Collaborators: configuration and transport *)

(** [RiotApiConfig] of the configuration models, flattened. *)
Record RiotApiConfig : Type := mkRiotApiConfig {
  key : string;
  defaultRegion : string;
  baseUrls_americas : string;
  baseUrls_asia : string;
  baseUrls_europe : string;
  baseUrls_sea : string;
  personalKey_perSecond : Z;
  personalKey_per2Minutes : Z;
  cache_enabled : bool;
  summonerTtl : Z;
  rankedTtl : Z;
  matchesTtl : Z;
  championMasteryTtl : Z
}.

(** [Config.riotApi.baseUrls[continent]], rendered in a template literal. *)
Definition baseUrl (c : RiotApiConfig) (continent : option string) : string :=
  match continent with
  | Some "americas" => baseUrls_americas c
  | Some "asia" => baseUrls_asia c
  | Some "europe" => baseUrls_europe c
  | Some "sea" => baseUrls_sea c
  | _ => "undefined"
  end.

(** What the service does that the outside can see, in order. *)
Inductive Event : Type :=
| EvTryRequest (limiter : string) (now : Z) (granted : bool)
| EvSleep (ms : option Z)
| EvFetch (now : Z) (url token : string).

Definition is_fetch (e : Event) : bool :=
  match e with EvFetch _ _ _ => true | _ => false end.

(** Number of transport invocations in a trace. *)
Definition fetches (tr : list Event) : nat := List.length (filter is_fetch tr).

(** The payloads, the configuration and the transport the service is built
    on.
    - [Json] is a decoded response body. Every payload type the service
      declares is an object or an array, so a decoded body is truthy.
    - [puuid] is the field [account.puuid] in a template literal.
    - [status_message b] is [b.status?.message] when it is a string; [None]
      when that expression is [undefined] or throws.
    - [getWithHeaders history now url token] is the answer of
      [HttpService.getWithHeaders] to the request made at time [now] after
      the events [history].
    - [URL_valid url] tells whether [new URL(url)] returns. *)
Record Response (Json : Type) : Type := mkResponse {
  status : Z;
  statusText : string;
  retry_after : option string;
  json : string + Json
}.
Arguments mkResponse {Json} _ _ _ _.
Arguments status {Json} _.
Arguments statusText {Json} _.
Arguments retry_after {Json} _.
Arguments json {Json} _.

(** [response.ok]. *)
Definition ok {Json} (r : Response Json) : bool :=
  (200 <=? status r) && (status r <=? 299).

(** One round trip: how long it took, and a thrown message or a response. *)
Record Exchange (Json : Type) : Type := mkExchange {
  latency : Z;
  answer : string + Response Json
}.
Arguments mkExchange {Json} _ _.
Arguments latency {Json} _.
Arguments answer {Json} _.

Class Collaborators : Type := {
  Json : Type;
  puuid : Json -> string;
  status_message : Json -> option string;
  Config : RiotApiConfig;
  getWithHeaders : list Event -> Z -> string -> string -> Exchange Json;
  URL_valid : string -> bool
}.

(** ** The service *)

(** How an [async] method ends: it returns or it throws. *)
Inductive Outcome (A : Type) : Type :=
| Returned (a : A)
| Threw (e : JsError).
Arguments Returned {A} a.
Arguments Threw {A} e.

Section Service.

Context {C : Collaborators}.

(** [CachedData<T>]. *)
Record CachedData : Type := mkCachedData {
  data : Json;
  timestamp : Z;
  ttl : Z
}.

(** The state of one [RiotApiService] and of the clock. *)
Record World : Type := mkWorld {
  clock : Z;
  cache : JsMap.t CachedData;
  rateLimiters : JsMap.t RateLimiter;
  trace : list Event
}.

(** An [async] method: an outcome and the world it leaves. *)
Definition M (A : Type) : Type := World -> Outcome A * World.

Definition ret {A} (a : A) : M A := fun w => (Returned a, w).

Definition throw {A} (e : JsError) : M A := fun w => (Threw e, w).

Definition bind {A B} (m : M A) (k : A -> M B) : M B :=
  fun w =>
    match m w with
    | (Returned a, w1) => k a w1
    | (Threw e, w1) => (Threw e, w1)
    end.

(** [try { m } catch (error) { h error }]. *)
Definition catch {A} (m : M A) (h : JsError -> M A) : M A :=
  fun w =>
    match m w with
    | (Returned a, w1) => (Returned a, w1)
    | (Threw e, w1) => h e w1
    end.

(** A synchronous computation that returns or throws. *)
Definition lift {A} (r : JsError + A) : M A :=
  match r with inl e => throw e | inr a => ret a end.

Notation "x <- m ;; k" := (bind m (fun x => k))
  (at level 61, m at next level, right associativity).
Notation "m ;;; k" := (bind m (fun _ => k))
  (at level 61, right associativity).

(** [new RiotApiService()], at clock reading [t0]. *)
Definition initial (t0 : Z) : World :=
  mkWorld t0 JsMap.empty
    (JsMap.set "app" (newRateLimiter (personalKey_per2Minutes Config) 120000)
       (JsMap.set "global" (newRateLimiter (personalKey_perSecond Config) 1000)
          JsMap.empty))
    [].

(** Time passing between two calls of the service. *)
Definition elapse (d : Z) (w : World) : World :=
  mkWorld (clock w + d) (cache w) (rateLimiters w) (trace w).

(** The delay of a Node timer, [setTimeout(f, ms)]: [ms] itself from 1 to
    2^31 - 1, and 1 for any other number and for [NaN]. Timers are taken as
    exact. *)
Definition timer_delay (ms : option Z) : Z :=
  match ms with
  | Some d => if ((1 <=? d) && (d <=? 2147483647))%bool then d else 1
  | None => 1
  end.

(** [RiotApiService.sleep]. *)
Definition sleep (ms : option Z) : M unit :=
fun w =>
  (Returned tt,
   mkWorld (clock w + timer_delay ms) (cache w) (rateLimiters w)
     (trace w ++ [EvSleep ms])).

(** *** The cache *)

(** [RiotApiService.getFromCache]; [None] is [null]. *)
Definition getFromCache (key : string) : M (option Json) :=
  fun w =>
    match JsMap.get key (cache w) with
    | None => (Returned None, w)
    | Some cached =>
        if timestamp cached + ttl cached <? clock w
        then (Returned None,
              mkWorld (clock w) (JsMap.delete key (cache w))
                (rateLimiters w) (trace w))
        else (Returned (Some (data cached)), w)
    end.

(** [RiotApiService.setCache]. *)
Definition setCache (key : string) (d : Json) (ttl : Z) : M unit :=
  fun w =>
    (Returned tt,
     mkWorld (clock w)
       (JsMap.set key (mkCachedData d (clock w) ttl) (cache w))
       (rateLimiters w) (trace w)).

(** [RiotApiService.clearCache]. *)
Definition clearCache : M unit :=
  fun w =>
    (Returned tt, mkWorld (clock w) JsMap.empty (rateLimiters w) (trace w)).

Record CacheStats : Type := mkCacheStats {
  size : Z;
  keys : list string
}.

(** [RiotApiService.getCacheStats]. *)
Definition getCacheStats : M CacheStats :=
  fun w =>
    (Returned (mkCacheStats (JsMap.size (cache w)) (JsMap.keys (cache w))), w).

(** *** Rate limiting *)

(** [limiter.tryRequest()] on the limiter object stored under [name]. *)
Definition limiter_tryRequest (name : string) (rl : RateLimiter) : M bool :=
  fun w =>
    let '(granted, rl') := tryRequest (clock w) rl in
    (Returned granted,
     mkWorld (clock w) (cache w) (JsMap.set name rl' (rateLimiters w))
       (trace w ++ [EvTryRequest name (clock w) granted])).

(** [limiter.getRetryAfter()] on the limiter object stored under [name]. *)
Definition limiter_getRetryAfter (name : string) : M Z :=
  fun w =>
    match JsMap.get name (rateLimiters w) with
    | Some rl => (Returned (getRetryAfter (clock w) rl), w)
    | None => (Returned 0, w)
    end.

(** One of the two blocks of [applyRateLimit]. *)
Definition throttle (name : string) : M unit :=
  fun w =>
    match JsMap.get name (rateLimiters w) with
    | None => ret tt w
    | Some limiter =>
        (granted <- limiter_tryRequest name limiter ;;
         if granted then ret tt
         else
           waitTime <- limiter_getRetryAfter name ;;
           sleep (Some waitTime)) w
    end.

(** [RiotApiService.applyRateLimit]. *)
Definition applyRateLimit : M unit :=
  throttle "global" ;;; throttle "app".

(** *** Error classification *)

(** The message [handleApiError] starts from and keeps when the body does
    not give one. *)
Definition default_message (response : Response Json) : string :=
  "HTTP " +++ Js.show (status response) +++ ": " +++ statusText response.

(** The [try] block of [handleApiError]: the message of the body when the
    body decodes and carries a truthy one. *)
Definition error_message (response : Response Json) : string :=
  match json response with
  | inr errorBody =>
      match status_message errorBody with
      | Some m => if Js.truthy m then m else default_message response
      | None => default_message response
      end
  | inl _ => default_message response
  end.

(** [waitTime] of the case 429; [None] is [NaN]. *)
Definition retry_wait (response : Response Json) : option Z :=
  match retry_after response with
  | Some retryAfter =>
      if Js.truthy retryAfter
      then match Js.parseInt retryAfter with
           | Some n => Some (n * 1000)
           | None => None
           end
      else Some 1000
  | None => Some 1000
  end.

(** The failure [handleApiError] throws for a response. *)
Definition classify (response : Response Json) : ApiFailure :=
  let errorMessage := error_message response in
  match status response with
  | 400 => BadRequest errorMessage
  | 401 => Unauthorized
  | 403 => Forbidden
  | 404 => NotFound
  | 415 => UnsupportedMediaType
  | 429 => RateLimited
  | 500 => InternalServerError
  | 502 => BadGateway
  | 503 => ServiceUnavailable
  | s => ApiErrorOther s errorMessage
  end.

(** [RiotApiService.handleApiError]: it never returns. *)
Definition handleApiError (response : Response Json) : M Empty_set :=
  match classify response with
  | RateLimited =>
      sleep (retry_wait response) ;;; throw (RiotApiFailure RateLimited)
  | f => throw (RiotApiFailure f)
  end.

(** *** The gateway *)

(** [this.httpService.getWithHeaders(new URL(url), {'X-Riot-Token': key})]. *)
Definition httpService_getWithHeaders (url : string) : M (Response Json) :=
  fun w =>
    if URL_valid url then
      let ex := getWithHeaders (trace w) (clock w) url (key Config) in
      let w1 := mkWorld (clock w + Z.max 0 (latency ex)) (cache w)
                  (rateLimiters w)
                  (trace w ++ [EvFetch (clock w) url (key Config)]) in
      match answer ex with
      | inl msg => (Threw (RuntimeError msg), w1)
      | inr response => (Returned response, w1)
      end
    else (Threw (RuntimeError "Invalid URL"), w).

(** [await response.json()]. *)
Definition response_json (response : Response Json) : M Json :=
  match json response with
  | inr d => ret d
  | inl msg => throw (RuntimeError msg)
  end.

(** A given, truthy [cacheKey]. *)
Definition given_key (cacheKey : option string) : option string :=
  match cacheKey with
  | Some k => if Js.truthy k then Some k else None
  | None => None
  end.

(** A given, truthy [ttl]. *)
Definition given_ttl (ttl : option Z) : option Z :=
  match ttl with
  | Some t => if t =? 0 then None else Some t
  | None => None
  end.

(** The first block of [makeApiCall]: the cached value, or [None]. *)
Definition checkCache (cacheKey : option string) : M (option Json) :=
  match given_key cacheKey with
  | Some k => if cache_enabled Config then getFromCache k else ret None
  | None => ret None
  end.

(** The block of [makeApiCall] that stores the response. *)
Definition storeResponse (cacheKey : option string) (ttl : option Z)
           (d : Json) : M unit :=
  match given_key cacheKey, given_ttl ttl with
  | Some k, Some t => if cache_enabled Config then setCache k d t else ret tt
  | _, _ => ret tt
  end.

(** The world [storeResponse] leaves. *)
Definition stored (cacheKey : option string) (ttl0 : option Z) (d : Json)
           (w : World) : World :=
  snd (storeResponse cacheKey ttl0 d w).

(** [RiotApiService.makeApiCall] after the cache check: rate limiting,
    the transport call, error handling, decoding and caching. The [catch]
    of the source logs and re-throws, so it is the identity here. *)
Definition fetchAndStore (url : string) (cacheKey : option string)
           (ttl : option Z) : M Json :=
  applyRateLimit ;;;
  response <- httpService_getWithHeaders url ;;
  (if ok response then ret tt
   else x <- handleApiError response ;; match x : Empty_set with end) ;;;
  d <- response_json response ;;
  storeResponse cacheKey ttl d ;;;
  ret d.

(** [RiotApiService.makeApiCall]. *)
Definition makeApiCall (url : string) (cacheKey : option string)
           (ttl : option Z) : M Json :=
  cached <- checkCache cacheKey ;;
  match cached with
  | Some v => ret v
  | None => fetchAndStore url cacheKey ttl
  end.

(** *** Public methods *)

(** [RiotApiService.buildUrl]. *)
Definition buildUrl (region endpoint : string) (isRegionalEndpoint : bool)
  : JsError + string :=
  match getRegionConfig region with
  | inl e => inl e
  | inr regionConfig =>
      if isRegionalEndpoint
      then inr ("https://" +++ platform_of regionConfig
                +++ ".api.riotgames.com" +++ endpoint)
      else inr (baseUrl Config (continent_of regionConfig) +++ endpoint)
  end.

(** [RiotApiService.getSummonerByPuuid]. *)
Definition getSummonerByPuuid (puuid region : string) : M Json :=
  let endpoint := "/lol/summoner/v4/summoners/by-puuid/" +++ puuid in
  url <- lift (buildUrl region endpoint true) ;;
  let cacheKey := "summoner:puuid:" +++ puuid in
  makeApiCall url (Some cacheKey) (Some (summonerTtl Config * 1000)).

(** [RiotApiService.getAccountByRiotId]. *)
Definition getAccountByRiotId (gameName tagLine region : string) : M Json :=
  let encodedGameName := Js.encodeURIComponent gameName in
  let encodedTagLine := Js.encodeURIComponent tagLine in
  let endpoint := "/riot/account/v1/accounts/by-riot-id/"
                  +++ encodedGameName +++ "/" +++ encodedTagLine in
  url <- lift (buildUrl region endpoint false) ;;
  let cacheKey := "account:" +++ region +++ ":" +++ gameName
                  +++ ":" +++ tagLine in
  makeApiCall url (Some cacheKey) (Some (summonerTtl Config * 1000)).

(** [RiotApiService.getSummonerByRiotId]: the two-step chain. *)
Definition getSummonerByRiotId (gameName tagLine region : string) : M Json :=
  account <- getAccountByRiotId gameName tagLine region ;;
  getSummonerByPuuid (puuid account) region.

(** [RiotApiService.getLeagueEntriesBySummonerId]. *)
Definition getLeagueEntriesBySummonerId (summonerId region : string)
  : M Json :=
  let endpoint := "/lol/league/v4/entries/by-summoner/" +++ summonerId in
  url <- lift (buildUrl region endpoint true) ;;
  let cacheKey := "league:" +++ region +++ ":" +++ summonerId in
  makeApiCall url (Some cacheKey) (Some (rankedTtl Config * 1000)).

(** The [for...of] loop of [getSummonerByName] and the [throw] after it. *)
Fixpoint tryTagLines (summonerName region : string)
         (defaultTagLines : list string) : M Json :=
  match defaultTagLines with
  | [] => throw (SummonerNotFoundError summonerName)
  | tagLine :: rest =>
      catch (getSummonerByRiotId summonerName tagLine region)
        (fun error =>
           if negb (Js.includes (message error) "Not Found")
           then throw error
           else tryTagLines summonerName region rest)
  end.

(** [RiotApiService.getSummonerByName]. *)
Definition getSummonerByName (summonerName region : string) : M Json :=
  if Js.includes summonerName "#" then
    let parts := Js.split "#" summonerName in
    let gameName := Js.trim (nth 0 parts EmptyString) in
    let tagLine := Js.trim (nth 1 parts EmptyString) in
    getSummonerByRiotId gameName tagLine region
  else
    defaultTagLines <- lift (getDefaultTagLinesForRegion region) ;;
    tryTagLines summonerName region defaultTagLines.

End Service.

(** ** Reading a trace *)

(** The events a call appended to the trace it started from. *)
Definition appended (before after : list Event) : list Event :=
  skipn (List.length before) after.


Definition is_sleep (e : Event) : bool :=
  match e with EvSleep _ => true | _ => false end.

(** What one block of [applyRateLimit] does with the limiter [rl] it finds
    under [name] at time [now]: one verdict, and one wait when the verdict is
    a denial. *)
Definition throttle_delay (now : Z) (rl : RateLimiter) : Z :=
  if fst (tryRequest now rl) then 0
  else timer_delay (Some (getRetryAfter now (snd (tryRequest now rl)))).

Definition throttle_events (name : string) (now : Z) (rl : RateLimiter)
  : list Event :=
  EvTryRequest name now (fst (tryRequest now rl))
  :: (if fst (tryRequest now rl) then []
      else [EvSleep (Some (getRetryAfter now (snd (tryRequest now rl))))]).

(** ** A concrete environment *)

(** Decoded bodies: a payload that carries a puuid, or an error body that
    carries [status.message]. *)
Inductive DemoJson : Type :=
| Payload (puuid : string)
| ErrorBody (message : string).

Definition demoConfig : RiotApiConfig :=
  mkRiotApiConfig "RGAPI-demo" "na1"
    "https://americas.api.riotgames.com" "https://asia.api.riotgames.com"
    "https://europe.api.riotgames.com" "https://sea.api.riotgames.com"
    1 100 true 300 300 300 300.

(** An environment over [DemoJson] with the given transport. *)
Definition demo
  (transport : list Event -> Z -> string -> string -> Exchange DemoJson)
  : Collaborators :=
  {| Json := DemoJson;
     puuid := fun b => match b with
                       | Payload p => p
                       | ErrorBody _ => "undefined"
                       end;
     status_message := fun b => match b with
                                | Payload _ => None
                                | ErrorBody m => Some m
                                end;
     Config := demoConfig;
     getWithHeaders := transport;
     URL_valid := fun _ => true |}.

(** A server that answers every request with 200 and a payload. *)
Definition always_ok : list Event -> Z -> string -> string -> Exchange DemoJson :=
  fun _ _ _ _ =>
    mkExchange 0 (inr (mkResponse 200 "OK" None (inr (Payload "puuid-1")))).

(** A server that answers the lookups of the tagLine [NA1] with 400 and the
    body message [Not Found], and every other request with 404. *)
Definition bad_request_first : list Event -> Z -> string -> string -> Exchange DemoJson :=
  fun _ _ url _ =>
    if Js.includes url "/NA1"
    then mkExchange 0
           (inr (mkResponse 400 "Bad Request" None (inr (ErrorBody "Not Found"))))
    else mkExchange 0
           (inr (mkResponse 404 "Not Found" None
                   (inr (ErrorBody "Data not found")))).

Definition okEnv : Collaborators := demo always_ok.

Definition refusingEnv : Collaborators := demo bad_request_first.

(** The service after one uncached call at time 0, one millisecond later:
    the burst window, of quota 1, is full. *)
Definition busy_world : @World okEnv :=
  @elapse okEnv 1
    (snd (@makeApiCall okEnv "https://na1.api.riotgames.com/x"
            None None (@initial okEnv 0))).

(** The service after one call at time 0 that cached its response under
    [k] for 10 ms, 100 ms later: the entry has expired. *)
Definition stale_world : @World okEnv :=
  @elapse okEnv 100
    (snd (@makeApiCall okEnv "https://na1.api.riotgames.com/x"
            (Some "k") (Some 10) (@initial okEnv 0))).

(** ** Statements that are examined and refuted below *)


(** A successful call without a cacheKey, without a ttl or with caching
    disabled leaves the cache as it was. *)
Definition uncached_call_leaves_cache : Prop :=
  forall (C : Collaborators) (w w' : World) (url : string)
         (cacheKey : option string) (ttl : option Z) (v : Json),
    makeApiCall url cacheKey ttl w = (Returned v, w') ->
    cacheKey = None \/ ttl = None \/ cache_enabled Config = false ->
    cache w' = cache w.

(** The window invariant read at the time of every call: whatever calls
    were made, at non-decreasing times, no recorded entry is older than the
    window when the last call is made. *)
Definition window_never_stale : Prop :=
  forall (quota windowDuration t0 : Z) (cs : list WindowCall),
    chronological t0 cs ->
    none_older (last_time t0 cs)
      (snd (window_run (newRateLimiter quota windowDuration) cs)).

(** ** More of [RiotApiUtils] *)

(** Every byte is below 128: for such strings the length, the case mapping
    and the white space of the embedding are those of JavaScript. *)
Fixpoint is_ascii (s : string) : bool :=
  match s with
  | EmptyString => true
  | String c s' => (Js.code c <? 128)%nat && is_ascii s'
  end.

(** [s.replace(/\s+/g, '')]: every white space character removed. *)
Fixpoint remove_white_space (s : string) : string :=
  match s with
  | EmptyString => EmptyString
  | String c s' =>
      if Js.is_ws c then remove_white_space s'
      else String c (remove_white_space s')
  end.

(** [RiotApiUtils.normalizeSummonerName]. *)
Definition normalizeSummonerName (name : string) : string :=
  remove_white_space (Js.toLowerCase (Js.trim name)).

(** [RiotApiUtils.formatRiotId]. *)
Definition formatRiotId (gameName tagLine : string) : string :=
  gameName +++ "#" +++ tagLine.

(** The character class [[a-zA-Z0-9\s._-]]. *)
Definition name_char (c : ascii) : bool :=
  let n := Js.code c in
  ((97 <=? n)%nat && (n <=? 122)%nat) || ((65 <=? n)%nat && (n <=? 90)%nat)
  || ((48 <=? n)%nat && (n <=? 57)%nat) || Js.is_ws c
  || existsb (Ascii.eqb c) ["."; "_"; "-"]%char.

(** [/^[a-zA-Z0-9\s._-]+$/.test(s)]. *)
Definition name_pattern (s : string) : bool :=
  match s with
  | EmptyString => false
  | _ => forallb name_char (list_ascii_of_string s)
  end.

(** [RiotApiUtils.isValidSummonerName]. *)
Definition isValidSummonerName (name : string) : bool :=
  if (negb (Js.truthy name) || (String.length name <? 3)%nat)%bool then false
  else if Js.includes name "#" then
    match parseRiotId name with
    | None => false
    | Some (gameName, tagLine) =>
        if ((String.length gameName <? 3)%nat
            || (16 <? String.length gameName)%nat)%bool then false
        else if ((String.length tagLine <? 2)%nat
                 || (5 <? String.length tagLine)%nat)%bool then false
        else true
    end
  else if (16 <? String.length name)%nat then false
  else name_pattern name.

(** The table inside [getRegionDisplayName]. *)
Definition regionMap : list (string * string) :=
  [ ("na1", "North America"); ("euw1", "Europe West");
    ("eune1", "Europe Nordic & East"); ("kr", "Korea"); ("jp1", "Japan");
    ("br1", "Brazil"); ("la1", "Latin America North");
    ("la2", "Latin America South"); ("oc1", "Oceania"); ("tr1", "Turkey");
    ("ru", "Russia"); ("ph2", "Philippines"); ("sg2", "Singapore");
    ("th2", "Thailand"); ("tw2", "Taiwan"); ("vn2", "Vietnam") ].

(** [RiotApiUtils.getRegionDisplayName]: the name of the table, the
    upper-cased code when the table has nothing, or the truthy value found
    under an inherited property name ([inl]). *)
Definition getRegionDisplayName (region : string) : string + string :=
  match property regionMap (Js.toLowerCase region) with
  | Own name => if Js.truthy name then inr name else inr (Js.toUpperCase region)
  | Inherited name => inl name
  | Undefined => inr (Js.toUpperCase region)
  end.

(** [tier.charAt(0).toUpperCase() + tier.slice(1).toLowerCase()]. *)
Definition capitalize (tier : string) : string :=
  match tier with
  | EmptyString => EmptyString
  | String c rest => String (Js.upper_char c) (Js.toLowerCase rest)
  end.

(** [RiotApiUtils.formatRank]. *)
Definition formatRank (tier rank : string) : string :=
  if existsb (String.eqb (Js.toUpperCase tier))
       ["MASTER"; "GRANDMASTER"; "CHALLENGER"]
  then capitalize tier
  else capitalize tier +++ " " +++ rank.

(** [n !== 1 ? 's' : ''] *)
Definition plural (n : Z) : string :=
  if n =? 1 then EmptyString else "s".

(** [RiotApiUtils.formatTimeSince], with [now] the reading of [Date.now()].
    Both times are whole numbers of milliseconds from 0 to 2^53, for which
    the difference is exact and [Math.floor(diff / k)] is the quotient that
    rounds down. *)
Definition formatTimeSince (now timestamp : Z) : string :=
  let diff := now - timestamp in
  let days := diff / (1000 * 60 * 60 * 24) in
  if days =? 0 then
    let hours := diff / (1000 * 60 * 60) in
    if hours =? 0 then
      let minutes := diff / (1000 * 60) in
      Js.show minutes +++ " minute" +++ plural minutes +++ " ago"
    else Js.show hours +++ " hour" +++ plural hours +++ " ago"
  else if days =? 1 then "Yesterday"
  else if days <? 7 then Js.show days +++ " days ago"
  else if days <? 30 then
    let weeks := days / 7 in
    Js.show weeks +++ " week" +++ plural weeks +++ " ago"
  else
    let months := days / 30 in
    Js.show months +++ " month" +++ plural months +++ " ago".

(** No white space character, and no capital letter. *)
Definition no_white_space (s : string) : bool :=
  forallb (fun c => negb (Js.is_ws c)) (list_ascii_of_string s).

Definition no_capital (s : string) : bool :=
  forallb (fun c => negb (Js.is_upper c)) (list_ascii_of_string s).

(** A list of default tagLines that ends with [0000] and has between one
    and seven entries. *)
Definition tags_shape (tags : list string) : bool :=
  String.eqb (last tags EmptyString) "0000"
  && (1 <=? List.length tags)%nat && (List.length tags <=? 7)%nat.

(** ** More of [RateLimiter]: the requests a window granted *)

(** The times of the [tryRequest] calls of [cs] that were granted, in
    order, when the calls are run from [rl]. *)
Fixpoint granted_times (rl : RateLimiter) (cs : list WindowCall) : list Z :=
  match cs with
  | [] => []
  | TryRequest now :: cs' =>
      (if fst (tryRequest now rl) then [now] else [])
      ++ granted_times (snd (tryRequest now rl)) cs'
  | RetryAfter _ :: cs' => granted_times rl cs'
  end.

(** The entries of [l] in the window of length [W] that ends at [a]. *)
Definition in_window (W a : Z) (l : list Z) : list Z :=
  filter (fun x => (a - W <? x) && (x <=? a)) l.

(** ** More of the service *)

(** [MatchHistoryParams]; an absent field is [None]. *)
Module MatchHistoryParams.
Record t : Type := make {
  puuid : string;
  region : string;
  start : option Z;
  count : option Z;
  queue : option Z;
  type : option string;
  startTime : option Z;
  endTime : option Z
}.
End MatchHistoryParams.

(** A truthy number that is given. *)
Definition given_number (n : option Z) : option Z :=
  match n with
  | Some z => if z =? 0 then None else Some z
  | None => None
  end.

(** [&name=value] when the value is given and truthy. *)
Definition query_number (name : string) (n : option Z) : string :=
  match given_number n with
  | Some z => "&" +++ name +++ "=" +++ Js.show z
  | None => EmptyString
  end.

Definition query_string (name : string) (s : option string) : string :=
  match s with
  | Some v => if Js.truthy v then "&" +++ name +++ "=" +++ v else EmptyString
  | None => EmptyString
  end.

(** What the tester throws: its own errors, or an error of the service. *)
Inductive TesterError : Type :=
| TesterInvalidRegion (region : string)
| TesterInvalidName (summonerName : string)
| NoApiKey
| PlaceholderApiKey
| InvalidApiKey
| ServiceError (e : JsError).


(** [error.message] for the tester. *)
Definition tester_message (e : TesterError) : string :=
  match e with
  | TesterInvalidRegion region =>
      "Invalid region: " +++ region +++ ". Supported: "
      +++ Js.join ", " getSupportedRegions
  | TesterInvalidName summonerName =>
      "Invalid summoner name format: " +++ summonerName
  | NoApiKey =>
      "No API key found in config. Please set riotApi.key in config.json"
  | PlaceholderApiKey =>
      "Please replace the placeholder API key with your actual Riot API key"
  | InvalidApiKey =>
      "API key is invalid or expired. Please get a new key from https://developer.riotgames.com"
  | ServiceError e => message e
  end.

Section MoreService.

Context {C : Collaborators}.

Notation "x <- m ;; k" := (bind m (fun x => k))
  (at level 61, m at next level, right associativity).

(** [RiotApiService.getChampionMasteryByPuuid]. *)
Definition getChampionMasteryByPuuid (puuid region : string) : M Json :=
  let endpoint := "/lol/champion-mastery/v4/champion-masteries/by-puuid/"
                  +++ puuid in
  url <- lift (buildUrl region endpoint true) ;;
  let cacheKey := "mastery:" +++ region +++ ":" +++ puuid in
  makeApiCall url (Some cacheKey) (Some (championMasteryTtl Config * 1000)).

(** [RiotApiService.getChampionMasteryByChampion]. *)
Definition getChampionMasteryByChampion (puuid : string) (championId : Z)
           (region : string) : M Json :=
  let endpoint := "/lol/champion-mastery/v4/champion-masteries/by-puuid/"
                  +++ puuid +++ "/by-champion/" +++ Js.show championId in
  url <- lift (buildUrl region endpoint true) ;;
  let cacheKey := "mastery:" +++ region +++ ":" +++ puuid +++ ":"
                  +++ Js.show championId in
  makeApiCall url (Some cacheKey) (Some (championMasteryTtl Config * 1000)).

(** The endpoint [getMatchIdsByPuuid] builds. *)
Definition matchIds_endpoint (params : MatchHistoryParams.t) : string :=
  let start := match MatchHistoryParams.start params with
               | Some s => s | None => 0 end in
  let count := match MatchHistoryParams.count params with
               | Some c => c | None => 20 end in
  "/lol/match/v5/matches/by-puuid/" +++ MatchHistoryParams.puuid params
  +++ "/ids?start=" +++ Js.show start +++ "&count=" +++ Js.show count
  +++ query_number "queue" (MatchHistoryParams.queue params)
  +++ query_string "type" (MatchHistoryParams.type params)
  +++ query_number "startTime" (MatchHistoryParams.startTime params)
  +++ query_number "endTime" (MatchHistoryParams.endTime params).

(** The cache key [getMatchIdsByPuuid] builds. *)
Definition matchIds_cacheKey (params : MatchHistoryParams.t) : string :=
  let start := match MatchHistoryParams.start params with
               | Some s => s | None => 0 end in
  let count := match MatchHistoryParams.count params with
               | Some c => c | None => 20 end in
  "matches:" +++ MatchHistoryParams.region params +++ ":"
  +++ MatchHistoryParams.puuid params +++ ":" +++ Js.show start +++ ":"
  +++ Js.show count +++ ":"
  +++ match given_number (MatchHistoryParams.queue params) with
      | Some q => Js.show q
      | None => "all"
      end.

(** [RiotApiService.getMatchIdsByPuuid]. *)
Definition getMatchIdsByPuuid (params : MatchHistoryParams.t) : M Json :=
  url <- lift (buildUrl (MatchHistoryParams.region params)
                 (matchIds_endpoint params) false) ;;
  makeApiCall url (Some (matchIds_cacheKey params))
    (Some (matchesTtl Config * 1000)).

(** [RiotApiService.getMatchById]. *)
Definition getMatchById (matchId region : string) : M Json :=
  let endpoint := "/lol/match/v5/matches/" +++ matchId in
  url <- lift (buildUrl region endpoint false) ;;
  let cacheKey := "match:" +++ matchId in
  makeApiCall url (Some cacheKey) (Some (matchesTtl Config * 1000)).

(** *** The worlds a service goes through *)

(** From its construction on, a service makes gateway calls and clears its
    cache, and time passes in between. *)
Inductive reachable : World -> Prop :=
| reach_initial (t0 : Z) : reachable (initial t0)
| reach_elapse (d : Z) (w : World) :
    0 <= d -> reachable w -> reachable (elapse d w)
| reach_call (url : string) (cacheKey : option string) (ttl0 : option Z)
             (w : World) :
    reachable w -> reachable (snd (makeApiCall url cacheKey ttl0 w))
| reach_clear (w : World) : reachable w -> reachable (snd (clearCache w)).

(** A window that holds no more entries than its quota allows, none of them
    in the future. *)
Definition window_ok (now : Z) (rl : RateLimiter) : Prop :=
  Z.of_nat (List.length (requests rl)) <= Z.max 0 (limit rl)
  /\ forall t, In t (requests rl) -> t <= now.

(** The two windows are those of the constructor, and the cache holds one
    entry per key, each under a truthy key, with a truthy ttl and a
    timestamp that is not in the future. *)
Definition well_kept (w : World) : Prop :=
  (exists g a,
      rateLimiters w = [("global", g); ("app", a)]
      /\ limit g = personalKey_perSecond Config /\ windowMs g = 1000
      /\ limit a = personalKey_per2Minutes Config /\ windowMs a = 120000
      /\ window_ok (clock w) g /\ window_ok (clock w) a)
  /\ NoDup (JsMap.keys (cache w))
  /\ forall k c, In (k, c) (cache w) ->
                 Js.truthy k = true /\ ttl c <> 0 /\ timestamp c <= clock w.

(** *** The tester *)

(** A method of [RiotApiTester]: a value or an error, and the world of its
    service. *)
Definition T (A : Type) : Type := World -> (TesterError + A) * World.

(** [RiotApiTester.testSummoner]. Its [catch] logs and re-throws; the
    fields it logs are read as [RiotSummoner] declares them, so logging does
    not throw. *)
Definition testSummoner (summonerName region : string) : T Json :=
  fun w =>
    if negb (isValidRegion region) then (inl (TesterInvalidRegion region), w)
    else if negb (isValidSummonerName summonerName)
    then (inl (TesterInvalidName summonerName), w)
    else match getSummonerByName summonerName region w with
         | (Returned summoner, w') => (inr summoner, w')
         | (Threw e, w') => (inl (ServiceError e), w')
         end.

(** [RiotApiTester.testApiKey]. *)
Definition testApiKey : T unit :=
  fun w =>
    let apiKey := key Config in
    if negb (Js.truthy apiKey) then (inl NoApiKey, w)
    else if String.eqb apiKey "RGAPI-xxxxxxxx-xxxx-xxxx-xxxx-xxxxxxxxxxxx"
    then (inl PlaceholderApiKey, w)
    else match testSummoner "Doublelift#NA1" "na1" w with
         | (inr _, w') => (inr tt, w')
         | (inl error, w') =>
             if Js.includes (tester_message error) "Unauthorized"
             then (inl InvalidApiKey, w')
             else if Js.includes (tester_message error) "not found"
             then (inr tt, w')
             else (inl error, w')
         end.

End MoreService.

(** A server that answers every request with 404. *)
Definition always_not_found
  : list Event -> Z -> string -> string -> Exchange DemoJson :=
  fun _ _ _ _ =>
    mkExchange 0
      (inr (mkResponse 404 "Not Found" None (inr (ErrorBody "Data not found")))).

Definition notFoundEnv : Collaborators := demo always_not_found.

(* ================================================================== *)
(** * Part II. Properties *)
(* ================================================================== *)

(** ** RateLimiter *)

Section WindowFacts.

Variables (now : Z) (rl : RateLimiter).

(** The entries [tryRequest] keeps, described by their age limit. *)
Lemma kept_as_cutoff :
  filter (fun time => now - time <? windowMs rl) (requests rl)
  = filter (fun t => now - windowMs rl <? t) (requests rl).
Proof.
  apply filter_ext. intros t.
  destruct (Z.ltb_spec (now - t) (windowMs rl));
    destruct (Z.ltb_spec (now - windowMs rl) t); try reflexivity; lia.
Qed.

Lemma tryRequest_limit : limit (snd (tryRequest now rl)) = limit rl.
Proof. unfold tryRequest. destruct (_ <? _); reflexivity. Qed.

Lemma tryRequest_windowMs : windowMs (snd (tryRequest now rl)) = windowMs rl.
Proof. unfold tryRequest. destruct (_ <? _); reflexivity. Qed.

Lemma tryRequest_all_younger :
  0 < windowMs rl -> all_younger now (snd (tryRequest now rl)).
Proof.
  intros HW t. unfold tryRequest.
  destruct (_ <? _); cbn [snd requests windowMs]; intros Hin.
  - apply in_app_or in Hin. destruct Hin as [Hin | [<- | []]]; [| lia].
    apply filter_In in Hin. destruct Hin as [_ Hin].
    apply Z.ltb_lt in Hin. exact Hin.
  - apply filter_In in Hin. destruct Hin as [_ Hin].
    apply Z.ltb_lt in Hin. exact Hin.
Qed.

Lemma tryRequest_length :
  fst (tryRequest now rl) = true ->
  Z.of_nat (List.length (requests (snd (tryRequest now rl)))) <= limit rl.
Proof.
  unfold tryRequest.
  destruct (Z.ltb_spec
              (Z.of_nat (List.length
                 (filter (fun time => now - time <? windowMs rl) (requests rl))))
              (limit rl)) as [Hlt | Hge]; cbn [fst snd requests].
  - intros _. rewrite length_app. cbn [List.length]. lia.
  - discriminate.
Qed.

End WindowFacts.

(** Calls run one list after the other. *)
Lemma window_run_app rl cs1 cs2 :
  window_run rl (cs1 ++ cs2)
  = (fst (window_run rl cs1) ++ fst (window_run (snd (window_run rl cs1)) cs2),
     snd (window_run (snd (window_run rl cs1)) cs2)).
Proof.
  revert rl. induction cs1 as [| c cs1 IH]; intros rl; cbn [window_run app].
  - cbn [fst snd app]. destruct (window_run rl cs2); reflexivity.
  - destruct (window_step rl c) as [r rl1]. rewrite IH.
    destruct (window_run rl1 cs1) as [rs rl2]. cbn [fst snd].
    reflexivity.
Qed.

Lemma window_run_retries rl cs :
  (forall c, In c cs -> exists t, c = RetryAfter t) ->
  snd (window_run rl cs) = rl.
Proof.
  induction cs as [| c cs IH]; intros Hall; [reflexivity |].
  destruct (Hall c (or_introl eq_refl)) as [t ->].
  cbn [window_run window_step].
  specialize (IH (fun c Hc => Hall c (or_intror Hc))).
  destruct (window_run rl cs) as [rs rl2]. exact IH.
Qed.

(** C2. At every state and call time, [tryRequest] keeps exactly the
    recorded timestamps [t] with [now - windowMs < t], in their order: every
    timestamp older than [now - windowMs] is dropped (and so is one that is
    exactly [windowMs] old). It returns [true] exactly when the remaining
    count is below the quota, and then records [now] after the remaining
    entries; otherwise it returns [false] and records nothing. With quota 2
    and window 1000, three admissions at times [t1 <= t2 <= t3] less than
    1000 apart answer [true; true; false], and an admission at [t4], more
    than 1000 after [t1] (so after [t3] as well), answers [true]. *)
Theorem tryRequest_sliding_window :
  (forall (now : Z) (rl : RateLimiter),
      let remaining := filter (fun t => now - windowMs rl <? t) (requests rl) in
      let granted := fst (tryRequest now rl) in
      let rl' := snd (tryRequest now rl) in
      (forall t, t < now - windowMs rl -> ~ In t remaining)
      /\ (forall t, In t remaining
                    <-> In t (requests rl) /\ now - windowMs rl < t)
      /\ (granted = true <-> Z.of_nat (List.length remaining) < limit rl)
      /\ (granted = true -> requests rl' = remaining ++ [now])
      /\ (granted = false -> requests rl' = remaining)
      /\ limit rl' = limit rl /\ windowMs rl' = windowMs rl)
  /\ (forall t1 t2 t3 t4 : Z,
         t1 <= t2 -> t2 <= t3 -> t3 - t1 < 1000 -> 1000 < t4 - t1 ->
         fst (window_run (newRateLimiter 2 1000)
                [TryRequest t1; TryRequest t2; TryRequest t3; TryRequest t4])
         = [Verdict true; Verdict true; Verdict false; Verdict true]).
Proof.
  split.
  - intros now rl. cbv zeta.
    assert (Hin : forall t,
               In t (filter (fun t => now - windowMs rl <? t) (requests rl))
               <-> In t (requests rl) /\ now - windowMs rl < t).
    { intros t. rewrite filter_In, Z.ltb_lt. reflexivity. }
    split; [intros t Hold Ht; apply Hin in Ht; lia |].
    split; [exact Hin |].
    assert (Htry : tryRequest now rl
                   = if Z.of_nat (List.length
                          (filter (fun t => now - windowMs rl <? t) (requests rl)))
                        <? limit rl
                     then (true,
                           mkRateLimiter
                             (filter (fun t => now - windowMs rl <? t) (requests rl)
                              ++ [now]) (limit rl) (windowMs rl))
                     else (false,
                           mkRateLimiter
                             (filter (fun t => now - windowMs rl <? t) (requests rl))
                             (limit rl) (windowMs rl))).
    { unfold tryRequest. rewrite kept_as_cutoff. reflexivity. }
    rewrite Htry. clear Htry.
    destruct (Z.ltb_spec
                (Z.of_nat (List.length
                   (filter (fun t => now - windowMs rl <? t) (requests rl))))
                (limit rl)) as [Hlt | Hge]; cbn [fst snd requests limit windowMs].
    + split; [tauto |]. split; [reflexivity |]. split; [discriminate |].
      split; reflexivity.
    + split; [split; [discriminate | lia] |]. split; [discriminate |].
      split; [reflexivity |]. split; reflexivity.
  - intros t1 t2 t3 t4 H12 H23 Hwithin Hpast.
    assert (E1 : tryRequest t1 (mkRateLimiter [] 2 1000)
                 = (true, mkRateLimiter [t1] 2 1000)) by reflexivity.
    assert (E2 : tryRequest t2 (mkRateLimiter [t1] 2 1000)
                 = (true, mkRateLimiter [t1; t2] 2 1000)).
    { unfold tryRequest. cbn [requests windowMs limit filter].
      rewrite (proj2 (Z.ltb_lt (t2 - t1) 1000)) by lia. reflexivity. }
    assert (E3 : tryRequest t3 (mkRateLimiter [t1; t2] 2 1000)
                 = (false, mkRateLimiter [t1; t2] 2 1000)).
    { unfold tryRequest. cbn [requests windowMs limit filter].
      rewrite (proj2 (Z.ltb_lt (t3 - t1) 1000)) by lia.
      rewrite (proj2 (Z.ltb_lt (t3 - t2) 1000)) by lia. reflexivity. }
    assert (E4 : fst (tryRequest t4 (mkRateLimiter [t1; t2] 2 1000)) = true).
    { unfold tryRequest. cbn [requests windowMs limit filter].
      rewrite (proj2 (Z.ltb_ge (t4 - t1) 1000)) by lia.
      destruct (t4 - t2 <? 1000); reflexivity. }
    unfold newRateLimiter. cbn [window_run window_step].
    rewrite E1. cbv beta iota zeta. rewrite E2. cbv beta iota zeta.
    rewrite E3. cbv beta iota zeta.
    destruct (tryRequest t4 (mkRateLimiter [t1; t2] 2 1000)) as [b4 rl4].
    cbn [fst] in E4. subst b4. reflexivity.
Qed.

(** The scenario of C2 at the times 0, 10, 999 and 1001. *)
Lemma tryRequest_sliding_window_witness :
  fst (window_run (newRateLimiter 2 1000)
         [TryRequest 0; TryRequest 10; TryRequest 999; TryRequest 1001])
  = [Verdict true; Verdict true; Verdict false; Verdict true].
Proof.
  apply (proj2 tryRequest_sliding_window 0 10 999 1001); lia.
Defined.

(** C3, as stated, fails: [getRetryAfter] does not prune, so a window that
    granted a request at time 0 still holds that entry when the retry delay
    is asked for at time 5000, five windows later. *)
Lemma window_never_stale_fails : ~ window_never_stale.
Proof.
  intros H.
  specialize (H 2 1000 0 [TryRequest 0; RetryAfter 5000]).
  cbn in H.
  assert (Hc : 0 <= 0 /\ 0 <= 5000 /\ True) by lia.
  specialize (H Hc 0 (or_introl eq_refl)). cbn in H. lia.
Qed.

Lemma window_run_config rl0 cs0 :
  limit (snd (window_run rl0 cs0)) = limit rl0
  /\ windowMs (snd (window_run rl0 cs0)) = windowMs rl0.
Proof.
  revert rl0. induction cs0 as [| c cs0 IH]; intros rl0; [split; reflexivity |].
  cbn [window_run]. destruct c as [t | t]; cbn [window_step].
  - pose proof (tryRequest_limit t rl0) as Hl.
    pose proof (tryRequest_windowMs t rl0) as Hw.
    destruct (tryRequest t rl0) as [b rl1]. cbn [snd] in Hl, Hw.
    specialize (IH rl1). destruct (window_run rl1 cs0) as [rs rl2].
    cbn [snd] in *. rewrite <- Hl, <- Hw. exact IH.
  - specialize (IH rl0). destruct (window_run rl0 cs0) as [rs rl2].
    exact IH.
Qed.

(** C3, amended. Start from the empty window with a positive window
    duration and make any calls [cs], then [tryRequest] at [now]. In the
    state this leaves, every recorded entry is younger than the window as
    seen from [now], and if the request was granted the length is at most
    the quota. Calls of [getRetryAfter] that follow, whenever they are made,
    leave this state as it is: they do not prune. *)
Theorem window_fresh_after_tryRequest
  (quota windowDuration : Z) (cs : list WindowCall) (now : Z)
  (Hpos : 0 < windowDuration) :
  let before := snd (window_run (newRateLimiter quota windowDuration) cs) in
  let rl := snd (tryRequest now before) in
  snd (window_run (newRateLimiter quota windowDuration)
         (cs ++ [TryRequest now])) = rl
  /\ all_younger now rl
  /\ (fst (tryRequest now before) = true ->
      Z.of_nat (List.length (requests rl)) <= quota)
  /\ (forall later : list WindowCall,
         (forall c, In c later -> exists t, c = RetryAfter t) ->
         snd (window_run (newRateLimiter quota windowDuration)
                (cs ++ [TryRequest now] ++ later)) = rl).
Proof.
  cbv zeta.
  assert (Hrun : snd (window_run (newRateLimiter quota windowDuration)
                        (cs ++ [TryRequest now]))
                 = snd (tryRequest now
                          (snd (window_run (newRateLimiter quota windowDuration) cs)))).
  { rewrite window_run_app. cbn [snd window_run window_step].
    destruct (tryRequest now _) as [b rl1]. reflexivity. }
  destruct (window_run_config (newRateLimiter quota windowDuration) cs)
    as [Hq HW]. cbn [newRateLimiter limit windowMs] in Hq, HW.
  split; [exact Hrun |].
  split; [apply tryRequest_all_younger; rewrite HW; exact Hpos |].
  split; [intros Hadm; rewrite <- Hq at 2; apply tryRequest_length; exact Hadm |].
  intros later Hlater.
  rewrite app_assoc, window_run_app. cbn [snd].
  rewrite window_run_retries by exact Hlater. exact Hrun.
Qed.

(** C3, amended, at quota 2 and window 1000: a request granted at 0, one at
    600, then one at 1200 that prunes the first; a retry delay asked for at
    9000 leaves the window as it is. *)
Lemma window_fresh_after_tryRequest_witness :
  all_younger 1200
    (snd (tryRequest 1200
            (snd (window_run (newRateLimiter 2 1000)
                    [TryRequest 0; TryRequest 600]))))
  /\ snd (window_run (newRateLimiter 2 1000)
            ([TryRequest 0; TryRequest 600] ++ [TryRequest 1200]
             ++ [RetryAfter 9000]))
     = snd (tryRequest 1200
              (snd (window_run (newRateLimiter 2 1000)
                      [TryRequest 0; TryRequest 600]))).
Proof.
  assert (Hlater : forall c, In c [RetryAfter 9000] -> exists t, c = RetryAfter t).
  { intros c [<- | []]. exists 9000. reflexivity. }
  pose proof (window_fresh_after_tryRequest 2 1000
                [TryRequest 0; TryRequest 600] 1200 ltac:(lia)) as H.
  cbv zeta in H. destruct H as (_ & Hy & _ & Hl).
  split; [exact Hy | exact (Hl [RetryAfter 9000] Hlater)].
Defined.

(** ** Region resolution *)

(** What [getRegionConfig] does right: a code of the table resolves to its
    entry, whatever the case of its letters, and a name that is neither in
    the table nor on [Object.prototype] is refused. *)
Lemma getRegionConfig_table (region : string) :
  (forall rc, JsMap.get (Js.toLowerCase region) REGIONS = Some rc ->
              getRegionConfig region = inr (Entry rc))
  /\ (JsMap.get (Js.toLowerCase region) REGIONS = None ->
      existsb (String.eqb (Js.toLowerCase region)) Object_prototype = false ->
      getRegionConfig region = inl (InvalidRegionError region)).
Proof.
  unfold getRegionConfig, property. split.
  - intros rc ->. reflexivity.
  - intros -> ->. reflexivity.
Qed.

Lemma getRegionConfig_any_case :
  forallb (fun entry =>
             match getRegionConfig (Js.toUpperCase (fst entry)),
                   getRegionConfig (fst entry) with
             | inr (Entry rc1), inr (Entry rc2) =>
                 String.eqb (platform rc1) (platform (snd entry))
                 && String.eqb (continent rc1) (continent (snd entry))
                 && String.eqb (platform rc2) (platform (snd entry))
                 && String.eqb (continent rc2) (continent (snd entry))
             | _, _ => false
             end) REGIONS = true.
Proof. vm_compute. reflexivity. Qed.

(** C9, where the code departs from it. The name [constructor] is not a key
    of [REGIONS], and [isValidRegion], which asks [hasOwnProperty], refuses
    it; [getRegionConfig] reads [REGIONS["constructor"]], finds the function
    every object inherits, and returns it without throwing. A platform-routed
    lookup with that region goes on to the transport. *)
Theorem getRegionConfig_accepts_inherited_name :
  JsMap.get (Js.toLowerCase "constructor") REGIONS = None
  /\ isValidRegion "constructor" = false
  /\ getRegionConfig "constructor" = inr (Foreign "constructor")
  /\ fetches (@trace okEnv
                (snd (@getSummonerByPuuid okEnv "p" "constructor"
                        (@initial okEnv 0)))) = 1%nat.
Proof. vm_compute. repeat split. Qed.

(** ** Maps *)

Section MapFacts.

Context {V : Type}.
Implicit Types (m : JsMap.t V) (k : string) (v : V).

Lemma get_set_same k v m : JsMap.get k (JsMap.set k v m) = Some v.
Proof.
  induction m as [| [k' v'] m IH]; cbn [JsMap.set JsMap.get].
  - rewrite String.eqb_refl. reflexivity.
  - destruct (String.eqb k k') eqn:E; cbn [JsMap.get]; rewrite ?E.
    + rewrite String.eqb_refl. reflexivity.
    + exact IH.
Qed.

Lemma get_set_other k k' v m :
  k <> k' -> JsMap.get k (JsMap.set k' v m) = JsMap.get k m.
Proof.
  intros Hne. induction m as [| [k0 v0] m IH]; cbn [JsMap.set JsMap.get].
  - rewrite (proj2 (String.eqb_neq k k') Hne). reflexivity.
  - destruct (String.eqb k' k0) eqn:E; cbn [JsMap.get].
    + apply String.eqb_eq in E. subst k0.
      rewrite (proj2 (String.eqb_neq k k') Hne). reflexivity.
    + rewrite IH. reflexivity.
Qed.

Lemma keys_delete k m : ~ In k (JsMap.keys (JsMap.delete k m)).
Proof.
  unfold JsMap.keys, JsMap.delete. intros Hin.
  apply in_map_iff in Hin. destruct Hin as ([k' v'] & Hk & Hin).
  apply filter_In in Hin. destruct Hin as [_ Hneq]. cbn [fst] in *.
  subst k'. rewrite String.eqb_refl in Hneq. discriminate.
Qed.

Lemma get_delete_same k m : JsMap.get k (JsMap.delete k m) = None.
Proof.
  induction m as [| [k' v'] m IH]; [reflexivity |].
  unfold JsMap.delete in *. cbn [filter fst].
  destruct (String.eqb k k') eqn:E; cbn [negb]; [exact IH |].
  cbn [JsMap.get]. rewrite E. exact IH.
Qed.

Lemma get_some_in_keys k v m : JsMap.get k m = Some v -> In k (JsMap.keys m).
Proof.
  induction m as [| [k' v'] m IH]; cbn [JsMap.get JsMap.keys map fst];
    [discriminate |].
  destruct (String.eqb_spec k k') as [-> | Hne]; [left; reflexivity |].
  intros H. right. exact (IH H).
Qed.

End MapFacts.

(** ** The cache *)

Section CacheFacts.

Context {C : Collaborators}.

Lemma getFromCache_live key w c :
  JsMap.get key (cache w) = Some c ->
  clock w <= timestamp c + ttl c ->
  getFromCache key w = (Returned (Some (data c)), w).
Proof.
  intros Hget Hlive. unfold getFromCache. rewrite Hget.
  rewrite (proj2 (Z.ltb_ge _ _) Hlive). reflexivity.
Qed.

Lemma getFromCache_expired key w c :
  JsMap.get key (cache w) = Some c ->
  timestamp c + ttl c < clock w ->
  getFromCache key w
  = (Returned None,
     mkWorld (clock w) (JsMap.delete key (cache w)) (rateLimiters w) (trace w)).
Proof.
  intros Hget Hexp. unfold getFromCache. rewrite Hget.
  rewrite (proj2 (Z.ltb_lt _ _) Hexp). reflexivity.
Qed.

Lemma getFromCache_absent key w :
  JsMap.get key (cache w) = None -> getFromCache key w = (Returned None, w).
Proof. intros Hget. unfold getFromCache. rewrite Hget. reflexivity. Qed.

(** C4. After [setCache key value ttl] with a positive ttl, a
    [getFromCache key] at the same clock reading returns the stored value
    and changes nothing. A [getFromCache key] made when
    [now > storedAt + ttl] for the entry under [key] returns [null],
    deletes the entry and nothing else, and the [getCacheStats] that
    follows does not list [key]; this holds in particular for the entry
    just stored once more than [ttl] has elapsed. [getCacheStats] leaves
    every world as it found it. *)
Theorem cache_put_get_expire :
  (forall (key : string) (value : Json) (ttl0 : Z) (w : World),
      0 < ttl0 ->
      let w1 := snd (setCache key value ttl0 w) in
      getFromCache key w1 = (Returned (Some value), w1))
  /\ (forall (key : string) (w2 : World) (c : CachedData),
         JsMap.get key (cache w2) = Some c ->
         timestamp c + ttl c < clock w2 ->
         let w3 := snd (getFromCache key w2) in
         fst (getFromCache key w2) = Returned None
         /\ cache w3 = JsMap.delete key (cache w2)
         /\ JsMap.get key (cache w3) = None
         /\ (exists st, getCacheStats w3 = (Returned st, w3)
                        /\ ~ In key (keys st))
         /\ (clock w3, rateLimiters w3, trace w3)
            = (clock w2, rateLimiters w2, trace w2))
  /\ (forall (key : string) (value : Json) (ttl0 d : Z) (w : World),
         0 < ttl0 -> ttl0 < d ->
         let w1 := snd (setCache key value ttl0 w) in
         let w4 := snd (getFromCache key (elapse d w1)) in
         fst (getFromCache key (elapse d w1)) = Returned None
         /\ (exists st, getCacheStats w4 = (Returned st, w4)
                        /\ ~ In key (keys st)))
  /\ (forall w0 : World, snd (getCacheStats w0) = w0).
Proof.
  assert (Hstats : forall (key : string) (w0 : World),
             ~ In key (JsMap.keys (cache w0)) ->
             exists st, getCacheStats w0 = (Returned st, w0)
                        /\ ~ In key (keys st)).
  { intros key w0 Hnot. eexists. split; [reflexivity | exact Hnot]. }
  assert (Hput : forall key value ttl0 (w : World),
             JsMap.get key (cache (snd (setCache key value ttl0 w)))
             = Some (mkCachedData value (clock w) ttl0)).
  { intros key value ttl0 w. cbn [setCache snd cache]. apply get_set_same. }
  split; [| split; [| split]].
  - intros key value ttl0 w Hpos. cbv zeta.
    apply (getFromCache_live key _ _ (Hput key value ttl0 w)).
    cbn [setCache snd clock timestamp ttl]. lia.
  - intros key w2 c Hentry Hexpired. cbv zeta.
    rewrite (getFromCache_expired key w2 c Hentry Hexpired).
    cbn [fst snd cache clock rateLimiters trace].
    split; [reflexivity |]. split; [reflexivity |].
    split; [apply get_delete_same |].
    split; [apply Hstats; cbn [cache]; apply keys_delete | reflexivity].
  - intros key value ttl0 d w Hpos Hlate. cbv zeta.
    assert (Hput' : JsMap.get key
                      (cache (elapse d (snd (setCache key value ttl0 w))))
                    = Some (mkCachedData value (clock w) ttl0))
      by exact (Hput key value ttl0 w).
    rewrite (getFromCache_expired key _ _ Hput')
      by (cbn [elapse setCache snd clock timestamp ttl]; lia).
    cbn [fst snd]. split; [reflexivity |].
    apply Hstats. cbn [cache]. apply keys_delete.
  - intros w0. reflexivity.
Qed.

End CacheFacts.

(** C4 on the key [k]: a value stored for 10 ms is read back at once, and
    the entry of [stale_world], stored at 0 for 10 ms and read at 100, is
    absent. *)
Lemma cache_put_get_expire_witness :
  @getFromCache okEnv "k"
    (snd (@setCache okEnv "k" (Payload "v") 10 (@initial okEnv 0)))
  = (Returned (Some (Payload "v")),
     snd (@setCache okEnv "k" (Payload "v") 10 (@initial okEnv 0)))
  /\ fst (@getFromCache okEnv "k" stale_world) = Returned None.
Proof.
  destruct (@cache_put_get_expire okEnv) as (Hput & Hexp & _).
  split.
  - exact (Hput "k" (Payload "v") 10 (@initial okEnv 0) ltac:(lia)).
  - exact (proj1 (Hexp "k" stale_world
                    (@mkCachedData okEnv (Payload "puuid-1") 0 10)
                    eq_refl ltac:(vm_compute; reflexivity))).
Defined.

(** ** The gateway *)

Lemma appended_app (tr evs : list Event) : appended tr (tr ++ evs) = evs.
Proof.
  unfold appended. induction tr as [| e tr IH]; [reflexivity | exact IH].
Qed.

Lemma fetches_app (tr evs : list Event) :
  fetches (tr ++ evs) = (fetches tr + fetches evs)%nat.
Proof. unfold fetches. rewrite filter_app, length_app. reflexivity. Qed.

Lemma getRetryAfter_nonneg now rl : 0 <= getRetryAfter now rl.
Proof. unfold getRetryAfter. destruct (requests rl); lia. Qed.

Lemma timer_delay_pos ms : 1 <= timer_delay ms.
Proof.
  unfold timer_delay. destruct ms as [d |]; [| lia].
  destruct (Z.leb_spec 1 d); cbn [andb]; [| lia].
  destruct (d <=? 2147483647); lia.
Qed.

Lemma throttle_delay_nonneg now rl : 0 <= throttle_delay now rl.
Proof.
  unfold throttle_delay. destruct (fst (tryRequest now rl)); [lia |].
  pose proof (timer_delay_pos (Some (getRetryAfter now (snd (tryRequest now rl))))).
  lia.
Qed.

Lemma throttle_events_no_fetch name now rl : fetches (throttle_events name now rl) = 0%nat.
Proof. unfold throttle_events. destruct (fst (tryRequest now rl)); reflexivity. Qed.

Section GatewayFacts.

Context {C : Collaborators}.

Lemma throttle_absent name w :
  JsMap.get name (rateLimiters w) = None -> throttle name w = (Returned tt, w).
Proof. intros H. unfold throttle. rewrite H. reflexivity. Qed.

Lemma throttle_present name w rl :
  JsMap.get name (rateLimiters w) = Some rl ->
  throttle name w
  = (Returned tt,
     mkWorld (clock w + throttle_delay (clock w) rl) (cache w)
       (JsMap.set name (snd (tryRequest (clock w) rl)) (rateLimiters w))
       (trace w ++ throttle_events name (clock w) rl)).
Proof.
  intros H. unfold throttle. rewrite H.
  unfold bind, limiter_tryRequest, throttle_delay, throttle_events.
  destruct (tryRequest (clock w) rl) as [[|] rl'] eqn:E; cbn [fst snd].
  - unfold ret. rewrite Z.add_0_r. reflexivity.
  - unfold limiter_getRetryAfter, sleep.
    cbn [rateLimiters clock cache trace].
    rewrite get_set_same.
    cbn [rateLimiters clock cache trace].
    rewrite <- app_assoc. reflexivity.
Qed.

(** What a block of [applyRateLimit] leaves alone, whether or not the
    limiter is there. *)
Lemma throttle_frame name w :
  exists w',
    throttle name w = (Returned tt, w')
    /\ cache w' = cache w
    /\ clock w <= clock w'
    /\ exists evs, trace w' = trace w ++ evs /\ fetches evs = 0%nat.
Proof.
  destruct (JsMap.get name (rateLimiters w)) as [rl |] eqn:E.
  - rewrite (throttle_present name w rl E). eexists. split; [reflexivity |].
    cbn [cache clock trace]. split; [reflexivity |].
    split; [pose proof (throttle_delay_nonneg (clock w) rl); lia |].
    eexists. split; [reflexivity | apply throttle_events_no_fetch].
  - rewrite (throttle_absent name w E). exists w. split; [reflexivity |].
    split; [reflexivity |]. split; [lia |].
    exists []. rewrite app_nil_r. split; reflexivity.
Qed.

Lemma applyRateLimit_frame w :
  exists w',
    applyRateLimit w = (Returned tt, w')
    /\ cache w' = cache w
    /\ clock w <= clock w'
    /\ exists evs, trace w' = trace w ++ evs /\ fetches evs = 0%nat.
Proof.
  unfold applyRateLimit, bind.
  destruct (throttle_frame "global" w) as (w1 & E1 & Hc1 & Ht1 & evs1 & Htr1 & Hf1).
  destruct (throttle_frame "app" w1) as (w2 & E2 & Hc2 & Ht2 & evs2 & Htr2 & Hf2).
  rewrite E1, E2. exists w2. split; [reflexivity |].
  split; [congruence |]. split; [lia |].
  exists (evs1 ++ evs2). rewrite Htr2, Htr1, <- app_assoc.
  split; [reflexivity |]. rewrite fetches_app, Hf1, Hf2. reflexivity.
Qed.

(** [applyRateLimit] when both limiters are there, as the constructor
    leaves them. *)
Lemma applyRateLimit_present w g a :
  JsMap.get "global" (rateLimiters w) = Some g ->
  JsMap.get "app" (rateLimiters w) = Some a ->
  let t1 := clock w + throttle_delay (clock w) g in
  applyRateLimit w
  = (Returned tt,
     mkWorld (t1 + throttle_delay t1 a) (cache w)
       (JsMap.set "app" (snd (tryRequest t1 a))
          (JsMap.set "global" (snd (tryRequest (clock w) g)) (rateLimiters w)))
       (trace w ++ throttle_events "global" (clock w) g ++ throttle_events "app" t1 a)).
Proof.
  intros Hg Ha. cbv zeta. unfold applyRateLimit, bind.
  rewrite (throttle_present "global" w g Hg).
  rewrite (throttle_present "app" _ a)
    by (cbn [rateLimiters]; rewrite get_set_other by discriminate; exact Ha).
  cbn [clock cache rateLimiters trace]. rewrite <- app_assoc. reflexivity.
Qed.

(** The cache check returns; it can only delete an expired entry under
    the key. *)
Lemma checkCache_cases cacheKey w :
  (exists k c,
      given_key cacheKey = Some k /\ cache_enabled Config = true
      /\ JsMap.get k (cache w) = Some c /\ clock w <= timestamp c + ttl c
      /\ checkCache cacheKey w = (Returned (Some (data c)), w))
  \/ (exists k c,
         given_key cacheKey = Some k /\ cache_enabled Config = true
         /\ JsMap.get k (cache w) = Some c /\ timestamp c + ttl c < clock w
         /\ checkCache cacheKey w
            = (Returned None,
               mkWorld (clock w) (JsMap.delete k (cache w))
                 (rateLimiters w) (trace w)))
  \/ ((given_key cacheKey = None \/ cache_enabled Config = false
       \/ exists k, given_key cacheKey = Some k
                    /\ JsMap.get k (cache w) = None)
      /\ checkCache cacheKey w = (Returned None, w)).
Proof.
  unfold checkCache.
  destruct (given_key cacheKey) as [k |] eqn:Ek;
    [| right; right; split; [left |]; reflexivity].
  destruct (cache_enabled Config) eqn:Een;
    [| right; right; split; [right; left |]; reflexivity].
  destruct (JsMap.get k (cache w)) as [c |] eqn:Eg.
  - destruct (Z.ltb_spec (timestamp c + ttl c) (clock w)) as [Hexp | Hlive].
    + right; left. exists k, c. repeat split; try assumption.
      apply (getFromCache_expired k w c); assumption.
    + left. exists k, c. repeat split; try assumption.
      apply (getFromCache_live k w c); assumption.
  - right; right. split; [right; right; exists k; split; [reflexivity | exact Eg] |].
    apply getFromCache_absent; exact Eg.
Qed.

Lemma checkCache_frame cacheKey w :
  exists r w',
    checkCache cacheKey w = (Returned r, w')
    /\ clock w' = clock w /\ rateLimiters w' = rateLimiters w
    /\ trace w' = trace w.
Proof.
  destruct (checkCache_cases cacheKey w)
    as [(k & c & _ & _ & _ & _ & E) | [(k & c & _ & _ & _ & _ & E) | [_ E]]];
    rewrite E; eexists; eexists; repeat split.
Qed.

Lemma makeApiCall_hit url cacheKey ttl0 w v w1 :
  checkCache cacheKey w = (Returned (Some v), w1) ->
  makeApiCall url cacheKey ttl0 w = (Returned v, w1).
Proof. intros E. unfold makeApiCall, bind. rewrite E. reflexivity. Qed.

Lemma makeApiCall_miss url cacheKey ttl0 w w1 :
  checkCache cacheKey w = (Returned None, w1) ->
  makeApiCall url cacheKey ttl0 w = fetchAndStore url cacheKey ttl0 w1.
Proof. intros E. unfold makeApiCall, bind. rewrite E. reflexivity. Qed.

(** [fetchAndStore], outcome by outcome, from the world [w2] that
    [applyRateLimit] leaves. *)
Lemma fetchAndStore_cases url cacheKey ttl0 w w2 :
  applyRateLimit w = (Returned tt, w2) ->
  let ex := getWithHeaders (trace w2) (clock w2) url (key Config) in
  let w3 := mkWorld (clock w2 + Z.max 0 (latency ex)) (cache w2)
              (rateLimiters w2)
              (trace w2 ++ [EvFetch (clock w2) url (key Config)]) in
  (URL_valid url = false
   /\ fetchAndStore url cacheKey ttl0 w = (Threw (RuntimeError "Invalid URL"), w2))
  \/ (URL_valid url = true /\
      ((exists msg, fetchAndStore url cacheKey ttl0 w = (Threw (RuntimeError msg), w3))
       \/ (exists response,
              answer ex = inr response /\ ok response = false
              /\ exists w4,
                  fetchAndStore url cacheKey ttl0 w
                  = (Threw (RiotApiFailure (classify response)), w4)
                  /\ cache w4 = cache w3 /\ rateLimiters w4 = rateLimiters w3
                  /\ exists evs, trace w4 = trace w3 ++ evs
                                 /\ forall e, In e evs -> is_sleep e = true)
       \/ (exists response d,
              answer ex = inr response /\ ok response = true
              /\ json response = inr d
              /\ fetchAndStore url cacheKey ttl0 w
                 = (Returned d, stored cacheKey ttl0 d w3)))).
Proof.
  intros Happly. cbv zeta.
  unfold fetchAndStore, bind. rewrite Happly.
  unfold httpService_getWithHeaders.
  destruct (URL_valid url); [right; split; [reflexivity |] | left; split; reflexivity].
  destruct (answer (getWithHeaders (trace w2) (clock w2) url (key Config)))
    as [msg | response] eqn:Eans.
  { left. exists msg. reflexivity. }
  destruct (ok response) eqn:Eok.
  - unfold ret at 1. unfold response_json.
    destruct (json response) as [msg | d] eqn:Ej.
    + left. exists msg. reflexivity.
    + right; right. exists response, d. repeat split; try assumption.
      unfold stored, ret. destruct (storeResponse cacheKey ttl0 d _) as [[[] | e] w5] eqn:Es;
        [reflexivity |].
      exfalso. revert Es. unfold storeResponse, setCache, ret.
      destruct (given_key cacheKey); [| discriminate].
      destruct (given_ttl ttl0); [| discriminate].
      destruct (cache_enabled Config); discriminate.
  - right; left. exists response. split; [reflexivity |]. split; [exact Eok |].
    unfold handleApiError, bind.
    destruct (classify response) eqn:Ecl; unfold throw, sleep;
      eexists; (split; [reflexivity |]); cbn [cache rateLimiters trace];
      (split; [reflexivity |]); (split; [reflexivity |]);
      try (exists []; rewrite app_nil_r; split; [reflexivity | intros e []]).
    eexists. split; [reflexivity |]. intros e [<- | []]. reflexivity.
Qed.

Lemma stored_frame cacheKey ttl0 d w :
  clock (stored cacheKey ttl0 d w) = clock w
  /\ rateLimiters (stored cacheKey ttl0 d w) = rateLimiters w
  /\ trace (stored cacheKey ttl0 d w) = trace w.
Proof.
  unfold stored, storeResponse, setCache, ret.
  destruct (given_key cacheKey); [| repeat split].
  destruct (given_ttl ttl0); [| repeat split].
  destruct (cache_enabled Config); repeat split.
Qed.

Lemma stored_nothing cacheKey ttl0 d w :
  given_key cacheKey = None \/ given_ttl ttl0 = None
  \/ cache_enabled Config = false ->
  stored cacheKey ttl0 d w = w.
Proof.
  unfold stored, storeResponse, ret. intros [H | [H | H]]; rewrite H.
  - reflexivity.
  - destruct (given_key cacheKey); reflexivity.
  - destruct (given_key cacheKey); [| reflexivity].
    destruct (given_ttl ttl0); reflexivity.
Qed.

Lemma stored_entry k t d w :
  cache_enabled Config = true ->
  stored (Some k) (Some t) d w
  = match given_key (Some k), given_ttl (Some t) with
    | Some k', Some t' =>
        mkWorld (clock w)
          (JsMap.set k' (mkCachedData d (clock w) t') (cache w))
          (rateLimiters w) (trace w)
    | _, _ => w
    end.
Proof.
  intros Hen. unfold stored, storeResponse. rewrite Hen.
  destruct (given_key (Some k)); [| reflexivity].
  destruct (given_ttl (Some t)); reflexivity.
Qed.

End GatewayFacts.


Section RateLimiting.

Context {C : Collaborators}.


End RateLimiting.


(** C5, as stated, fails. The entry under [k] has expired; a successful
    call with the cacheKey [k] and no ttl evicts it on the way, so the cache
    after the call is not the cache before it. *)
Lemma uncached_call_leaves_cache_fails : ~ uncached_call_leaves_cache.
Proof.
  intros H.
  specialize (H okEnv stale_world
                (snd (@makeApiCall okEnv "https://na1.api.riotgames.com/x"
                        (Some "k") None stale_world))
                "https://na1.api.riotgames.com/x" (Some "k") None
                (Payload "puuid-1") eq_refl (or_intror (or_introl eq_refl))).
  vm_compute in H. discriminate H.
Qed.

Lemma get_delete_some {V} (k k' : string) (m : JsMap.t V) (v : V) :
  JsMap.get k' (JsMap.delete k m) = Some v -> JsMap.get k' m = Some v.
Proof.
  induction m as [| [k0 v0] m IH]; [discriminate |].
  unfold JsMap.delete in *. cbn [filter fst].
  destruct (String.eqb k k0) eqn:E; cbn [negb JsMap.get].
  - intros H. specialize (IH H).
    destruct (String.eqb_spec k' k0) as [-> | Hne]; [| exact IH].
    apply String.eqb_eq in E. subst k0.
    pose proof (get_delete_same k m) as Hnone. unfold JsMap.delete in Hnone.
    rewrite Hnone in H. discriminate.
  - destruct (String.eqb k' k0); [trivial | exact IH].
Qed.

Section Caching.

Context {C : Collaborators}.

(** A call that misses the cache and returns: where its world comes
    from. *)
Lemma fetchAndStore_returned url cacheKey ttl0 w1 v w' :
  fetchAndStore url cacheKey ttl0 w1 = (Returned v, w') ->
  exists w3,
    w' = stored cacheKey ttl0 v w3
    /\ cache w3 = cache w1
    /\ clock w1 <= clock w3
    /\ fetches (trace w3) = S (fetches (trace w1)).
Proof.
  intros Hcall.
  destruct (applyRateLimit_frame w1) as (w2 & Happly & Hc2 & Hclk2 & evs & Htr2 & Hf2).
  destruct (fetchAndStore_cases url cacheKey ttl0 w1 w2 Happly)
    as [[_ E] | [_ [[msg E] | [(resp & _ & _ & w4 & E & _)
                              | (resp & d & _ & _ & _ & E)]]]];
    rewrite E in Hcall; try discriminate.
  injection Hcall as -> <-.
  eexists. split; [reflexivity |]. cbn [cache clock trace].
  split; [exact Hc2 |]. split; [lia |].
  rewrite Htr2, !fetches_app, Hf2. cbn. lia.
Qed.

(** C5, amended. A successful call with no (truthy) cacheKey, with no
    (truthy) ttl or with caching disabled stores nothing: every entry of
    the cache after the call was there before it. With no cacheKey or with
    caching disabled the cache is left as it was. With a cacheKey, caching
    enabled and no ttl, the cache is left as it was unless the entry under
    the cacheKey had expired: the lookup then deletes that entry, and
    nothing else changes. *)
Theorem makeApiCall_stores_nothing
  (w w' : World) (url : string) (cacheKey : option string)
  (ttl0 : option Z) (v : Json)
  (Hcall : makeApiCall url cacheKey ttl0 w = (Returned v, w'))
  (Hno : given_key cacheKey = None \/ given_ttl ttl0 = None
         \/ cache_enabled Config = false) :
  (forall k c, JsMap.get k (cache w') = Some c ->
               JsMap.get k (cache w) = Some c)
  /\ (given_key cacheKey = None \/ cache_enabled Config = false ->
      cache w' = cache w)
  /\ (forall k, given_key cacheKey = Some k ->
        cache w' = cache w
        \/ exists c, JsMap.get k (cache w) = Some c
                     /\ timestamp c + ttl c < clock w
                     /\ cache w' = JsMap.delete k (cache w)).
Proof.
  destruct (checkCache_cases cacheKey w)
    as [(k & c & Hk & Hen & Hget & Hlive & E)
       | [(k & c & Hk & Hen & Hget & Hexp & E) | [Hwhy E]]].
  - rewrite (makeApiCall_hit url cacheKey ttl0 w _ _ E) in Hcall.
    injection Hcall as _ <-. repeat split; auto.
  - rewrite (makeApiCall_miss url cacheKey ttl0 w _ E) in Hcall.
    destruct (fetchAndStore_returned _ _ _ _ _ _ Hcall) as (w3 & -> & Hc3 & _).
    rewrite (stored_nothing cacheKey ttl0 v w3 Hno), Hc3. cbn [cache].
    split; [intros k' c'; apply get_delete_some |].
    split; [intros [H | H]; congruence |].
    intros k' Hk'. right. exists c.
    assert (k' = k) by congruence. subst k'. auto.
  - rewrite (makeApiCall_miss url cacheKey ttl0 w _ E) in Hcall.
    destruct (fetchAndStore_returned _ _ _ _ _ _ Hcall) as (w3 & -> & Hc3 & _).
    rewrite (stored_nothing cacheKey ttl0 v w3 Hno), Hc3.
    repeat split; auto.
Qed.

Lemma makeApiCall_live (w : World) (url k : string) (ttl0 : option Z)
      (c : CachedData) :
  cache_enabled Config = true ->
  Js.truthy k = true ->
  JsMap.get k (cache w) = Some c ->
  clock w <= timestamp c + ttl c ->
  makeApiCall url (Some k) ttl0 w = (Returned (data c), w).
Proof.
  intros Hen Hk Hget Hlive. apply makeApiCall_hit.
  unfold checkCache, given_key. rewrite Hk, Hen.
  apply getFromCache_live; assumption.
Qed.

Lemma makeApiCall_twice (w0 w1 : World) (url k : string) (t d : Z) (v : Json) :
  cache_enabled Config = true ->
  Js.truthy k = true ->
  fst (checkCache (Some k) w0) = Returned None ->
  makeApiCall url (Some k) (Some t) w0 = (Returned v, w1) ->
  t <> 0 ->
  d <= t ->
  makeApiCall url (Some k) (Some t) (elapse d w1) = (Returned v, elapse d w1)
  /\ fetches (trace w1) = S (fetches (trace w0)).
Proof.
  intros Hen Hk Hmiss0 Hfirst Ht Hd.
  assert (Hgk : given_key (Some k) = Some k).
  { unfold given_key. rewrite Hk. reflexivity. }
  assert (Hgt : given_ttl (Some t) = Some t).
  { unfold given_ttl. rewrite (proj2 (Z.eqb_neq t 0) Ht). reflexivity. }
  destruct (checkCache_frame (Some k) w0) as (r & w0' & Ec & Hclk & _ & Htr).
  rewrite Ec in Hmiss0. cbn [fst] in Hmiss0. injection Hmiss0 as ->.
  rewrite (makeApiCall_miss url (Some k) (Some t) w0 _ Ec) in Hfirst.
  destruct (fetchAndStore_returned _ _ _ _ _ _ Hfirst)
    as (w3 & -> & _ & _ & Hf3).
  rewrite (stored_entry k t v w3 Hen), Hgk, Hgt.
  split.
  - apply (makeApiCall_live _ url k (Some t) (mkCachedData v (clock w3) t) Hen Hk).
    + cbn [elapse cache]. apply get_set_same.
    + cbn [elapse clock timestamp ttl]. lia.
  - cbn [trace]. rewrite Hf3, Htr. reflexivity.
Qed.

(** C6. With caching enabled, a call whose cacheKey has a live entry
    returns the cached value and leaves the world as it was: no transport
    call is made and both windows keep their recorded timestamps. So when
    a first call for a key misses the cache, returns and stores its
    response with a ttl [t], the same call made [d <= t] later returns the
    same value from the cache, and the two calls together invoke the
    transport exactly once. In particular the ranked entries of a summoner,
    asked for twice within [rankedTtl] seconds on a region of the table,
    cost one transport call. *)
Theorem makeApiCall_cache_hit :
  (forall (w : World) (url k : string) (ttl0 : option Z) (c : CachedData),
      cache_enabled Config = true ->
      Js.truthy k = true ->
      JsMap.get k (cache w) = Some c ->
      clock w <= timestamp c + ttl c ->
      let w' := snd (makeApiCall url (Some k) ttl0 w) in
      makeApiCall url (Some k) ttl0 w = (Returned (data c), w)
      /\ trace w' = trace w
      /\ rateLimiters w' = rateLimiters w)
  /\ (forall (w0 w1 : World) (url k : string) (t d : Z) (v : Json),
         cache_enabled Config = true ->
         Js.truthy k = true ->
         fst (checkCache (Some k) w0) = Returned None ->
         makeApiCall url (Some k) (Some t) w0 = (Returned v, w1) ->
         t <> 0 ->
         d <= t ->
         let w2 := snd (makeApiCall url (Some k) (Some t) (elapse d w1)) in
         makeApiCall url (Some k) (Some t) (elapse d w1)
         = (Returned v, elapse d w1)
         /\ fetches (trace w1) = S (fetches (trace w0))
         /\ fetches (trace w2) = S (fetches (trace w0)))
  /\ (forall (w0 w1 : World) (summonerId region : string) (rc : RegionConfig)
             (d : Z) (v : Json),
         cache_enabled Config = true ->
         rankedTtl Config <> 0 ->
         JsMap.get (Js.toLowerCase region) REGIONS = Some rc ->
         JsMap.get ("league:" +++ region +++ ":" +++ summonerId) (cache w0)
         = None ->
         getLeagueEntriesBySummonerId summonerId region w0 = (Returned v, w1) ->
         d <= rankedTtl Config * 1000 ->
         let w2 := snd (getLeagueEntriesBySummonerId summonerId region
                          (elapse d w1)) in
         getLeagueEntriesBySummonerId summonerId region (elapse d w1)
         = (Returned v, elapse d w1)
         /\ fetches (trace w2) = S (fetches (trace w0))).
Proof.
  split; [| split].
  - intros w url k ttl0 c Hen Hk Hget Hlive. cbv zeta.
    rewrite (makeApiCall_live w url k ttl0 c Hen Hk Hget Hlive).
    repeat split.
  - intros w0 w1 url k t d v Hen Hk Hmiss0 Hfirst Ht Hd. cbv zeta.
    destruct (makeApiCall_twice w0 w1 url k t d v Hen Hk Hmiss0 Hfirst Ht Hd)
      as [Hsecond Hf].
    rewrite Hsecond. cbn [snd elapse trace]. repeat split; assumption.
  - intros w0 w1 summonerId region rc d v Hen Httl Hrc Hnone Hfirst Hd.
    cbv zeta. revert Hfirst. unfold getLeagueEntriesBySummonerId, buildUrl.
    rewrite (proj1 (getRegionConfig_table region) rc Hrc).
    unfold bind, lift, ret. cbv beta iota. intros Hfirst.
    assert (Hk : Js.truthy ("league:" +++ region +++ ":" +++ summonerId)
                 = true) by reflexivity.
    assert (Hmiss0 : fst (checkCache
                            (Some ("league:" +++ region +++ ":" +++ summonerId))
                            w0) = Returned None).
    { unfold checkCache, given_key.
      rewrite Hk, Hen, (getFromCache_absent _ _ Hnone). reflexivity. }
    destruct (makeApiCall_twice w0 w1 _ _ _ d v Hen Hk Hmiss0 Hfirst
                ltac:(lia) Hd) as [Hsecond Hf].
    rewrite Hsecond. cbn [snd elapse trace]. split; [reflexivity | exact Hf].
Qed.

End Caching.

(** C5, amended, on the call that refutes C5 as stated: the expired entry
    under [k] is the one entry the call removes. *)
Lemma makeApiCall_stores_nothing_witness :
  @cache okEnv
    (snd (@makeApiCall okEnv "https://na1.api.riotgames.com/x" (Some "k") None
            stale_world))
  = @cache okEnv stale_world
  \/ exists c,
      JsMap.get "k" (@cache okEnv stale_world) = Some c
      /\ timestamp c + ttl c < @clock okEnv stale_world
      /\ @cache okEnv
           (snd (@makeApiCall okEnv "https://na1.api.riotgames.com/x"
                   (Some "k") None stale_world))
         = JsMap.delete "k" (@cache okEnv stale_world).
Proof.
  exact (proj2 (proj2
           (@makeApiCall_stores_nothing okEnv stale_world _
              "https://na1.api.riotgames.com/x" (Some "k") None
              (Payload "puuid-1") eq_refl (or_intror (or_introl eq_refl))))
           "k" eq_refl).
Defined.

(** C6 on the environment that always answers: the call that cached its
    response under [k] for 10 ms, made again 10 ms later, is a cache hit, and
    one transport call was made in all. *)
Lemma makeApiCall_cache_hit_witness :
  let w1 := snd (@makeApiCall okEnv "https://na1.api.riotgames.com/x"
                   (Some "k") (Some 10) (@initial okEnv 0)) in
  @makeApiCall okEnv "https://na1.api.riotgames.com/x" (Some "k") (Some 10)
    (@elapse okEnv 10 w1)
  = (Returned (Payload "puuid-1"), @elapse okEnv 10 w1)
  /\ fetches (@trace okEnv w1) = 1%nat.
Proof.
  cbv zeta.
  pose proof (proj1 (proj2 (@makeApiCall_cache_hit okEnv))
                (@initial okEnv 0) _ "https://na1.api.riotgames.com/x" "k"
                10 10 (Payload "puuid-1")
                eq_refl eq_refl eq_refl eq_refl ltac:(lia) ltac:(lia)) as H.
  cbv zeta in H. destruct H as (H2 & H3 & _). split; [exact H2 | exact H3].
Defined.

(** ** Error classification *)

Ltac by_bits p := repeat (first [reflexivity | discriminate | destruct p as [p | p |]]).




Section Classification.

Context {C : Collaborators}.


Lemma classify_rate_limited (response : Response Json) :
  classify response = RateLimited <-> status response = 429.
Proof.
  unfold classify. split.
  - destruct (status response) as [| p | p]; try discriminate. by_bits p.
  - intros ->. reflexivity.
Qed.

Lemma handleApiError_throws (response : Response Json) (w : World) :
  handleApiError response w
  = (Threw (RiotApiFailure (classify response)),
     if status response =? 429
     then mkWorld (clock w + timer_delay (retry_wait response))
            (cache w) (rateLimiters w)
            (trace w ++ [EvSleep (retry_wait response)])
     else w).
Proof.
  unfold handleApiError.
  destruct (Z.eqb_spec (status response) 429) as [H429 | Hnot].
  - rewrite (proj2 (classify_rate_limited response) H429). reflexivity.
  - destruct (classify response) eqn:E; try reflexivity.
    apply classify_rate_limited in E. contradiction.
Qed.


End Classification.


(** ** Identity resolution *)

Lemma includes_hash_cons (c : ascii) (s : string) :
  Js.includes (String c s) "#" = Ascii.eqb c "#" || Js.includes s "#".
Proof.
  cbn [Js.includes String.prefix].
  destruct (ascii_dec "#" c) as [<- | Hne].
  - destruct s; reflexivity.
  - rewrite (proj2 (Ascii.eqb_neq c "#")) by congruence. reflexivity.
Qed.

Lemma includes_hash_app (a b : string) :
  Js.includes (a +++ String "#" b) "#" = true.
Proof.
  induction a as [| c a IH].
  - cbn [String.append]. rewrite includes_hash_cons. reflexivity.
  - cbn [String.append]. rewrite includes_hash_cons, IH.
    apply orb_true_r.
Qed.

Lemma split_segment (a b : string) :
  Js.includes a "#" = false ->
  Js.split "#" (a +++ String "#" b) = a :: Js.split "#" b.
Proof.
  induction a as [| c a IH]; intros Hno.
  - reflexivity.
  - rewrite includes_hash_cons in Hno. apply orb_false_iff in Hno.
    destruct Hno as [Hc Ha].
    cbn [String.append Js.split]. rewrite Hc, (IH Ha). reflexivity.
Qed.

Lemma prefix_self_append (n b : string) : String.prefix n (n +++ b) = true.
Proof.
  induction n as [| c n IH]; [destruct b; reflexivity |].
  cbn [String.prefix String.append].
  destruct (ascii_dec c c); [exact IH | congruence].
Qed.

Lemma includes_prefix (s n : string) :
  String.prefix n s = true -> Js.includes s n = true.
Proof. intros H. destruct s; cbn [Js.includes]; rewrite H; reflexivity. Qed.

Lemma includes_append_l (a s n : string) :
  Js.includes s n = true -> Js.includes (a +++ s) n = true.
Proof.
  intros H. induction a as [| c a IH]; [exact H |].
  cbn [String.append Js.includes]. rewrite IH. apply orb_true_r.
Qed.

(** The failure of an exhausted list names the handle and shows the
    format to use. *)
Lemma exhausted_message (summonerName : string) :
  Js.includes (message (SummonerNotFoundError summonerName)) summonerName = true
  /\ exists before,
      message (SummonerNotFoundError summonerName)
      = before +++ "Please use full Riot ID format: gameName#tagLine (e.g., "
        +++ dquote +++ "Faker#KR1" +++ dquote +++ ")".
Proof.
  split.
  - cbn [message].
    apply (includes_append_l "Summoner ").
    apply (includes_append_l dquote).
    apply includes_prefix, prefix_self_append.
  - exists ("Summoner " +++ dquote +++ summonerName +++ dquote +++ " not found. ").
    cbn [message]. unfold dquote.
    cbn [String.append]. f_equal. f_equal. f_equal. f_equal. f_equal.
    f_equal. f_equal. f_equal. f_equal. f_equal.
    induction summonerName as [| c n IH]; [reflexivity |].
    cbn [String.append]. f_equal. exact IH.
Qed.

Lemma split_nonempty (sep : ascii) (s : string) : Js.split sep s <> [].
Proof.
  destruct s as [| c s]; cbn [Js.split]; [discriminate |].
  destruct (Ascii.eqb c sep); [discriminate |].
  destruct (Js.split sep s); discriminate.
Qed.

(** [parseRiotId], which [isValidSummonerName] relies on, refuses a handle
    with more than one [#]. *)
Lemma parseRiotId_extra_segments (s0 s1 rest : string) :
  Js.includes s0 "#" = false ->
  Js.includes s1 "#" = false ->
  parseRiotId (s0 +++ "#" +++ s1 +++ "#" +++ rest) = None.
Proof.
  intros H0 H1. unfold parseRiotId.
  change ("#" +++ s1 +++ "#" +++ rest) with (String "#" (s1 +++ String "#" rest)).
  rewrite (split_segment s0 _ H0), (split_segment s1 _ H1).
  pose proof (split_nonempty "#" rest) as Hne.
  destruct (Js.split "#" rest); [congruence | reflexivity].
Qed.

Section Identity.

Context {C : Collaborators}.

(** One turn of the fallback loop. *)
Lemma tryTagLines_step summonerName region tagLine rest (w : World) :
  tryTagLines summonerName region (tagLine :: rest) w
  = match getSummonerByRiotId summonerName tagLine region w with
    | (Returned v, w1) => (Returned v, w1)
    | (Threw error, w1) =>
        if Js.includes (message error) "Not Found"
        then tryTagLines summonerName region rest w1
        else (Threw error, w1)
    end.
Proof.
  cbn [tryTagLines]. unfold catch.
  destruct (getSummonerByRiotId summonerName tagLine region w) as [[v | e] w1];
    [reflexivity |].
  destruct (Js.includes (message e) "Not Found"); reflexivity.
Qed.


(** When the chain of every candidate ends in a failure whose message
    contains [Not Found], the loop tries them all and ends with the failure
    of an exhausted list. *)
Lemma tryTagLines_all_not_found summonerName region tags :
  forall w : World,
    (forall tagLine (w1 : World),
        In tagLine tags ->
        exists error w2,
          getSummonerByRiotId summonerName tagLine region w1 = (Threw error, w2)
          /\ Js.includes (message error) "Not Found" = true) ->
    exists w',
      tryTagLines summonerName region tags w
      = (Threw (SummonerNotFoundError summonerName), w').
Proof.
  induction tags as [| tagLine rest IH]; intros w Hall.
  - exists w. reflexivity.
  - rewrite tryTagLines_step.
    destruct (Hall tagLine w (or_introl eq_refl)) as (e & w2 & -> & ->).
    apply IH. intros tag w1 Hin. apply Hall. right. exact Hin.
Qed.

(** A failure whose message does not contain [Not Found] stops the loop
    and is thrown as it is; a returned profile stops it as well. *)
Lemma tryTagLines_stops summonerName region tagLine rest (w w1 : World) :
  (forall error,
      getSummonerByRiotId summonerName tagLine region w = (Threw error, w1) ->
      Js.includes (message error) "Not Found" = false ->
      tryTagLines summonerName region (tagLine :: rest) w = (Threw error, w1))
  /\ (forall v,
         getSummonerByRiotId summonerName tagLine region w = (Returned v, w1) ->
         tryTagLines summonerName region (tagLine :: rest) w = (Returned v, w1)).
Proof.
  split.
  - intros e He Hno. rewrite tryTagLines_step, He, Hno. reflexivity.
  - intros v Hv. rewrite tryTagLines_step, Hv. reflexivity.
Qed.

(** A bare handle on a region of the table goes through the candidates of
    the region's continent, in the order of the table. *)
Lemma getSummonerByName_bare summonerName region rc :
  Js.includes summonerName "#" = false ->
  JsMap.get (Js.toLowerCase region) REGIONS = Some rc ->
  exists tags,
    JsMap.get (continent rc) tagLineMap = Some tags
    /\ getSummonerByName summonerName region
       = tryTagLines summonerName region tags
    /\ (continent rc = "americas" ->
        tags = ["NA1"; "BR1"; "LAN"; "LAS"; "0000"]).
Proof.
  intros Hbare Hrc.
  assert (Htags : exists tags, JsMap.get (continent rc) tagLineMap = Some tags).
  { revert Hrc. unfold REGIONS. cbn [JsMap.get].
    repeat (destruct (String.eqb (Js.toLowerCase region) _);
            [intros [= <-]; eexists; reflexivity |]).
    discriminate. }
  destruct Htags as [tags Htags]. exists tags.
  split; [exact Htags |]. split.
  - unfold getSummonerByName. rewrite Hbare.
    unfold getDefaultTagLinesForRegion.
    rewrite (proj1 (getRegionConfig_table region) rc Hrc).
    cbn [continent_of]. unfold property. rewrite Htags. reflexivity.
  - intros Ham. rewrite Ham in Htags. cbn in Htags. congruence.
Qed.

(** The messages of the failures that carry no text of the server: only
    the one for 404 contains [Not Found]. *)
Lemma fixed_messages (f : ApiFailure) :
  match f with
  | BadRequest _ | ApiErrorOther _ _ => True
  | NotFound => Js.includes (api_message f) "Not Found" = true
  | _ => Js.includes (api_message f) "Not Found" = false
  end.
Proof. destruct f; try exact I; vm_compute; reflexivity. Qed.

(** C10. A handle [s0#s1#rest], whatever [rest] is, is not refused by
    [getSummonerByName]: it is looked up through the two-step chain with
    the segment before the first [#], trimmed, as gameName and the segment
    between the first and the second [#], trimmed, as tagLine; [rest] is
    not looked at. For [a#b#c] the pair is [a] and [b]. *)
Theorem getSummonerByName_ignores_extra_segments
  (s0 s1 rest region : string)
  (H0 : Js.includes s0 "#" = false)
  (H1 : Js.includes s1 "#" = false) :
  getSummonerByName (s0 +++ "#" +++ s1 +++ "#" +++ rest) region
  = getSummonerByRiotId (Js.trim s0) (Js.trim s1) region
  /\ getSummonerByName "a#b#c" region = getSummonerByRiotId "a" "b" region.
Proof.
  split; [| reflexivity].
  unfold getSummonerByName.
  change ("#" +++ s1 +++ "#" +++ rest) with (String "#" (s1 +++ String "#" rest)).
  rewrite includes_hash_app.
  rewrite (split_segment s0 _ H0), (split_segment s1 _ H1).
  reflexivity.
Qed.

End Identity.

(** C10 on the handle [Hide on bush #KR1#x#y]. *)
Lemma getSummonerByName_ignores_extra_segments_witness :
  @getSummonerByName okEnv "Hide on bush #KR1#x#y" "kr"
  = @getSummonerByRiotId okEnv "Hide on bush" "KR1" "kr".
Proof.
  exact (proj1 (@getSummonerByName_ignores_extra_segments okEnv
                  "Hide on bush " "KR1" "x#y" "kr" eq_refl eq_refl)).
Defined.

(** C8, where the code departs from it. The server answers the lookup of
    the first candidate, [NA1], with 400 and the body message [Not Found].
    The failure thrown is a BadRequest, not a NotFound, but its message
    contains [Not Found], so the loop does not re-throw it: it goes on to
    the four other candidates and ends with the failure of an exhausted
    list, after five transport calls. *)
Theorem tryTagLines_swallows_bad_request :
  exists w1 w',
    @getSummonerByRiotId refusingEnv "Faker" "NA1" "na1" (@initial refusingEnv 0)
    = (Threw (RiotApiFailure (BadRequest "Not Found")), w1)
    /\ fetches (@trace refusingEnv w1) = 1%nat
    /\ @getSummonerByName refusingEnv "Faker" "na1" (@initial refusingEnv 0)
       = (Threw (SummonerNotFoundError "Faker"), w')
    /\ fetches (@trace refusingEnv w') = 5%nat.
Proof.
  eexists. eexists. vm_compute. repeat split.
Qed.

(* ================================================================== *)
(** * Part III. More of the code *)
(* ================================================================== *)

(** ** RateLimiter: the retry delay and the quota *)

Lemma minimum_spec (r : Z) (rs : list Z) :
  In (minimum r rs) (r :: rs) /\ forall x, In x (r :: rs) -> minimum r rs <= x.
Proof.
  unfold minimum. revert r. induction rs as [| y rs IH]; intros r.
  - cbn. split; [left; reflexivity | intros x [<- | []]; lia].
  - cbn [fold_left]. destruct (IH (Z.min r y)) as [Hin Hle]. split.
    + destruct Hin as [Hm | Hin].
      * rewrite <- Hm. destruct (Z.min_spec r y) as [[_ ->] | [_ ->]];
          [left | right; left]; reflexivity.
      * right; right. exact Hin.
    + intros x [<- | [<- | Hx]].
      * specialize (Hle _ (or_introl eq_refl)). lia.
      * specialize (Hle _ (or_introl eq_refl)). lia.
      * apply Hle. right. exact Hx.
Qed.

Lemma filter_all {A} (p : A -> bool) (l : list A) :
  (forall x, In x l -> p x = true) -> filter p l = l.
Proof.
  induction l as [| x l IH]; intros H; [reflexivity |].
  cbn [filter]. rewrite (H x (or_introl eq_refl)).
  f_equal. apply IH. intros y Hy. apply H. right. exact Hy.
Qed.

Lemma filter_drops {A} (p : A -> bool) (l : list A) (x : A) :
  In x l -> p x = false -> (List.length (filter p l) < List.length l)%nat.
Proof.
  induction l as [| y l IH]; intros Hin Hp; [destruct Hin |].
  cbn [filter List.length]. destruct Hin as [-> | Hin].
  - rewrite Hp. pose proof (filter_length_le p l). lia.
  - specialize (IH Hin Hp). destruct (p y); cbn [List.length]; lia.
Qed.

Lemma filter_length_mono {A} (p q : A -> bool) (l : list A) :
  (forall x, In x l -> p x = true -> q x = true) ->
  (List.length (filter p l) <= List.length (filter q l))%nat.
Proof.
  induction l as [| x l IH]; intros H; [reflexivity |].
  cbn [filter].
  assert (IH' := IH (fun y Hy => H y (or_intror Hy))).
  destruct (p x) eqn:Hp.
  - rewrite (H x (or_introl eq_refl) Hp). cbn [List.length]. lia.
  - destruct (q x); cbn [List.length]; lia.
Qed.

Lemma tryRequest_verdict (now : Z) (rl : RateLimiter) :
  fst (tryRequest now rl) = true
  <-> Z.of_nat (List.length
                  (filter (fun time => now - time <? windowMs rl) (requests rl)))
      < limit rl.
Proof.
  unfold tryRequest.
  destruct (Z.ltb_spec
              (Z.of_nat (List.length
                 (filter (fun time => now - time <? windowMs rl) (requests rl))))
              (limit rl)); cbn [fst]; split; intros; try lia; try reflexivity;
    discriminate.
Qed.

(** X1. When a window that holds no more entries than its quota (at least
    1) denies a request at [now], the delay [getRetryAfter] then reports is
    positive and exact: a request made that much later is granted, and a
    request made any sooner is denied. *)
Theorem retry_delay_is_exact (now : Z) (rl : RateLimiter)
  (Hquota : 1 <= limit rl)
  (Hlen : Z.of_nat (List.length (requests rl)) <= limit rl)
  (Hdenied : fst (tryRequest now rl) = false) :
  let rl1 := snd (tryRequest now rl) in
  let d := getRetryAfter now rl1 in
  0 < d
  /\ fst (tryRequest (now + d) rl1) = true
  /\ forall t, now <= t < now + d -> fst (tryRequest t rl1) = false.
Proof.
  cbv zeta.
  set (kept := filter (fun time => now - time <? windowMs rl) (requests rl)).
  assert (Hfull : limit rl <= Z.of_nat (List.length kept)).
  { destruct (Z.ltb_spec (Z.of_nat (List.length kept)) (limit rl)) as [Hlt | Hge];
      [| exact Hge].
    apply tryRequest_verdict in Hlt. congruence. }
  assert (Hsnd : snd (tryRequest now rl)
                 = mkRateLimiter kept (limit rl) (windowMs rl)).
  { unfold tryRequest. fold kept.
    destruct (Z.ltb_spec (Z.of_nat (List.length kept)) (limit rl));
      [lia | reflexivity]. }
  rewrite Hsnd. clear Hsnd Hdenied.
  assert (Hkept : forall e, In e kept -> now - e < windowMs rl).
  { intros e He. apply filter_In in He. destruct He as [_ He].
    apply Z.ltb_lt in He. exact He. }
  assert (Hkeptlen : Z.of_nat (List.length kept) <= limit rl).
  { pose proof (filter_length_le (fun time => now - time <? windowMs rl)
                  (requests rl)). fold kept in H. lia. }
  destruct kept as [| r rs] eqn:Ek; [cbn [List.length] in Hfull; lia |].
  unfold getRetryAfter. cbn [requests windowMs].
  destruct (minimum_spec r rs) as [Hmin_in Hmin_le].
  set (oldest := minimum r rs) in *.
  pose proof (Hkept oldest Hmin_in) as Hold.
  rewrite Z.max_r by lia.
  split; [lia |]. split.
  - apply tryRequest_verdict. cbn [requests windowMs limit].
    pose proof (filter_drops
                  (fun time => now + (windowMs rl - (now - oldest)) - time
                               <? windowMs rl)
                  (r :: rs) oldest Hmin_in) as Hdrop.
    assert (Hout : (now + (windowMs rl - (now - oldest)) - oldest
                    <? windowMs rl) = false) by (apply Z.ltb_ge; lia).
    specialize (Hdrop Hout).
    apply Z.lt_le_trans with (Z.of_nat (List.length (r :: rs)));
      [apply Nat2Z.inj_lt; exact Hdrop | exact Hkeptlen].
  - intros t Ht.
    destruct (fst (tryRequest t (mkRateLimiter (r :: rs) (limit rl) (windowMs rl))))
      eqn:E; [| reflexivity].
    apply tryRequest_verdict in E. cbn [requests windowMs limit] in E.
    rewrite filter_all in E; [lia |].
    intros e He. apply Z.ltb_lt. specialize (Hmin_le e He). lia.
Qed.

(** X1 on a window of quota 1 and 1000 ms that granted a request at 0: a
    request at 1 is denied, the delay is 999, a request at 1000 is granted
    and a request at 999 is denied. *)
Lemma retry_delay_is_exact_witness :
  getRetryAfter 1 (snd (tryRequest 1 (mkRateLimiter [0] 1 1000))) = 999
  /\ fst (tryRequest 1000 (snd (tryRequest 1 (mkRateLimiter [0] 1 1000)))) = true
  /\ fst (tryRequest 999 (snd (tryRequest 1 (mkRateLimiter [0] 1 1000)))) = false.
Proof.
  pose proof (retry_delay_is_exact 1 (mkRateLimiter [0] 1 1000)
                ltac:(cbn; lia) ltac:(cbn; lia) eq_refl) as H.
  cbv zeta in H. destruct H as (_ & Hgrant & Hdeny).
  split; [reflexivity |]. split; [exact Hgrant |].
  apply Hdeny. vm_compute. split; [intros H; discriminate H | reflexivity].
Defined.

Lemma in_window_app W a l1 l2 :
  in_window W a (l1 ++ l2) = in_window W a l1 ++ in_window W a l2.
Proof. unfold in_window. apply filter_app. Qed.

Lemma filter_cutoff_twice (c1 c2 : Z) (h : list Z) :
  c1 <= c2 ->
  filter (fun x => c2 <? x) (filter (fun x => c1 <? x) h)
  = filter (fun x => c2 <? x) h.
Proof.
  intros Hc. induction h as [| x h IH]; [reflexivity |].
  cbn [filter]. destruct (Z.ltb_spec c1 x) as [H1 | H1]; cbn [filter]; rewrite IH.
  - reflexivity.
  - destruct (Z.ltb_spec c2 x); [lia | reflexivity].
Qed.

(** The recorded entries are the granted times that the last [tryRequest]
    kept; this carries the quota from one call to the next. *)
Lemma quota_step (cs : list WindowCall) :
  forall (rl : RateLimiter) (hist : list Z) (T t0 a : Z),
    0 < windowMs rl ->
    T <= t0 ->
    chronological t0 cs ->
    requests rl = filter (fun x => T - windowMs rl <? x) hist ->
    (forall x, In x hist -> x <= T) ->
    (forall b, Z.of_nat (List.length (in_window (windowMs rl) b hist))
               <= Z.max 0 (limit rl)) ->
    Z.of_nat (List.length
                (in_window (windowMs rl) a (hist ++ granted_times rl cs)))
    <= Z.max 0 (limit rl).
Proof.
  induction cs as [| c cs IH]; intros rl hist T t0 a HW HT Hchrono Hreq Hpast Hbound.
  - cbn [granted_times]. rewrite app_nil_r. apply Hbound.
  - destruct Hchrono as [Ht0 Hchrono].
    destruct c as [now | t]; cbn [call_time] in *; cbn [granted_times].
    + assert (Hkept : filter (fun time => now - time <? windowMs rl) (requests rl)
                      = filter (fun x => now - windowMs rl <? x) hist).
      { rewrite kept_as_cutoff, Hreq. apply filter_cutoff_twice. lia. }
      unfold tryRequest. rewrite Hkept.
      set (kept := filter (fun x => now - windowMs rl <? x) hist).
      assert (Hpast' : forall x, In x hist -> x <= now).
      { intros x Hx. specialize (Hpast x Hx). lia. }
      destruct (Z.ltb_spec (Z.of_nat (List.length kept)) (limit rl)) as [Hlt | Hge];
        cbn [fst snd].
      * rewrite app_assoc.
        apply (IH (mkRateLimiter (kept ++ [now]) (limit rl) (windowMs rl))
                 (hist ++ [now]) now now a); cbn [windowMs limit requests];
          try assumption; try lia.
        -- rewrite filter_app. cbn [filter].
           rewrite (proj2 (Z.ltb_lt (now - windowMs rl) now)) by lia.
           reflexivity.
        -- intros x Hx. apply in_app_or in Hx.
           destruct Hx as [Hx | [<- | []]]; [apply Hpast'; exact Hx | lia].
        -- intros b. rewrite in_window_app.
           unfold in_window at 2. cbn [filter].
           destruct ((b - windowMs rl <? now) && (now <=? b))%bool eqn:Eb.
           ++ apply andb_true_iff in Eb. destruct Eb as [_ Eb].
              apply Z.leb_le in Eb.
              rewrite length_app. cbn [List.length].
              assert (Hmono : Nat.le
                                (List.length (in_window (windowMs rl) b hist))
                                (List.length kept)).
              { apply filter_length_mono. intros x Hx Hp.
                apply andb_true_iff in Hp. destruct Hp as [Hp _].
                apply Z.ltb_lt in Hp. apply Z.ltb_lt. lia. }
              lia.
           ++ rewrite app_nil_r. apply Hbound.
      * cbn [app].
        apply (IH (mkRateLimiter kept (limit rl) (windowMs rl)) hist now now a);
          cbn [windowMs limit requests]; try assumption; try lia.
        reflexivity.
    + apply (IH rl hist T t a HW); try assumption; lia.
Qed.

(** X2. A window that starts empty, with a positive duration, and is asked
    at non-decreasing times never grants more requests than its quota in
    any span of one window duration: for every time [a], at most [quota] of
    the granted requests lie in the [windowDuration] milliseconds that end
    at [a]. *)
Theorem quota_respected
  (quota windowDuration t0 : Z) (cs : list WindowCall) (a : Z)
  (Hpos : 0 < windowDuration)
  (Hchrono : chronological t0 cs) :
  Z.of_nat (List.length
              (in_window windowDuration a
                 (granted_times (newRateLimiter quota windowDuration) cs)))
  <= Z.max 0 quota.
Proof.
  apply (quota_step cs (newRateLimiter quota windowDuration) [] t0 t0 a);
    cbn [newRateLimiter windowMs limit requests]; try assumption; try lia.
  - reflexivity.
  - intros x [].
  - intros b. cbn. lia.
Qed.

(** X2 at quota 2 and window 1000: of five requests at 0, 400, 800, 1100
    and 1300, the third is denied, and the 1000 ms that end at 1300 hold two
    granted requests. *)
Lemma quota_respected_witness :
  Z.of_nat (List.length
              (in_window 1000 1300
                 (granted_times (newRateLimiter 2 1000)
                    [TryRequest 0; TryRequest 400; TryRequest 800;
                     TryRequest 1100; TryRequest 1300])))
  <= Z.max 0 2.
Proof.
  apply (quota_respected 2 1000 0); [lia |].
  cbn. lia.
Defined.

(** ** The cache as a map *)

Section MoreMapFacts.

Context {V : Type}.
Implicit Types (m : JsMap.t V) (k : string) (v : V).

Lemma get_delete_other k k' m :
  k' <> k -> JsMap.get k' (JsMap.delete k m) = JsMap.get k' m.
Proof.
  intros Hne. induction m as [| [k0 v0] m IH]; [reflexivity |].
  unfold JsMap.delete in *. cbn [filter fst].
  destruct (String.eqb_spec k k0) as [<- | Hk]; cbn [negb JsMap.get].
  - rewrite (proj2 (String.eqb_neq k' k) Hne). exact IH.
  - rewrite IH. reflexivity.
Qed.

Lemma keys_set_present k v m :
  In k (JsMap.keys m) -> JsMap.keys (JsMap.set k v m) = JsMap.keys m.
Proof.
  induction m as [| [k0 v0] m IH]; intros Hin; [destruct Hin |].
  cbn [JsMap.set]. destruct (String.eqb_spec k k0) as [-> | Hne];
    [reflexivity |].
  cbn [JsMap.keys map fst] in *. f_equal. apply IH.
  destruct Hin as [Hin | Hin]; [congruence | exact Hin].
Qed.

Lemma keys_set_absent k v m :
  ~ In k (JsMap.keys m) -> JsMap.keys (JsMap.set k v m) = JsMap.keys m ++ [k].
Proof.
  induction m as [| [k0 v0] m IH]; intros Hnot; [reflexivity |].
  cbn [JsMap.set]. destruct (String.eqb_spec k k0) as [-> | Hne].
  - exfalso. apply Hnot. left. reflexivity.
  - cbn [JsMap.keys map fst app] in *. f_equal. apply IH.
    intros Hin. apply Hnot. right. exact Hin.
Qed.

Lemma keys_set_nodup k v m :
  NoDup (JsMap.keys m) -> NoDup (JsMap.keys (JsMap.set k v m)).
Proof.
  intros Hnd. destruct (in_dec string_dec k (JsMap.keys m)) as [Hin | Hnot].
  - rewrite keys_set_present by exact Hin. exact Hnd.
  - rewrite keys_set_absent by exact Hnot.
    apply NoDup_app; [exact Hnd | constructor; [intros [] | constructor] |].
    intros x Hx [<- | []]. exact (Hnot Hx).
Qed.

Lemma keys_delete_nodup k m :
  NoDup (JsMap.keys m) -> NoDup (JsMap.keys (JsMap.delete k m)).
Proof.
  induction m as [| [k0 v0] m IH]; intros Hnd; [exact Hnd |].
  unfold JsMap.delete in *. cbn [filter fst].
  cbn [JsMap.keys map fst] in Hnd. inversion Hnd as [| ? ? Hnot Hnd']; subst.
  destruct (negb (String.eqb k k0)); [| exact (IH Hnd')].
  cbn [JsMap.keys map fst]. constructor; [| exact (IH Hnd')].
  intros Hin. apply Hnot. apply in_map_iff in Hin.
  destruct Hin as (x & Hx & Hin). apply filter_In in Hin.
  apply in_map_iff. exists x. split; [exact Hx | exact (proj1 Hin)].
Qed.

Lemma in_set k v m (x : string * V) :
  In x (JsMap.set k v m) -> x = (k, v) \/ In x m.
Proof.
  induction m as [| [k0 v0] m IH]; cbn [JsMap.set].
  - intros [<- | []]. left. reflexivity.
  - destruct (String.eqb k k0).
    + intros [<- | Hin]; [left; reflexivity | right; right; exact Hin].
    + intros [<- | Hin]; [right; left; reflexivity |].
      destruct (IH Hin) as [-> | H]; [left; reflexivity | right; right; exact H].
Qed.

Lemma in_delete k m (x : string * V) : In x (JsMap.delete k m) -> In x m.
Proof. unfold JsMap.delete. intros H. apply filter_In in H. exact (proj1 H). Qed.

End MoreMapFacts.

Section MoreGateway.

Context {C : Collaborators}.

(** X3. [setCache] replaces the entry of its key where it stands, or
    appends a new entry after the others: the lookup of the key then finds
    the new value with the timestamp of the call, every other key keeps its
    entry, and the list of keys is the old one, extended by the key only
    when it was not there. *)
Theorem setCache_overwrites (key : string) (d : Json) (ttl0 : Z) (w : World) :
  let w' := snd (setCache key d ttl0 w) in
  JsMap.get key (cache w') = Some (mkCachedData d (clock w) ttl0)
  /\ (forall k', k' <> key -> JsMap.get k' (cache w') = JsMap.get k' (cache w))
  /\ (In key (JsMap.keys (cache w)) ->
      JsMap.keys (cache w') = JsMap.keys (cache w))
  /\ (~ In key (JsMap.keys (cache w)) ->
      JsMap.keys (cache w') = JsMap.keys (cache w) ++ [key])
  /\ (clock w', rateLimiters w', trace w') = (clock w, rateLimiters w, trace w).
Proof.
  cbv zeta. cbn [setCache snd cache clock rateLimiters trace].
  split; [apply get_set_same |].
  split; [intros k' Hne; apply get_set_other; exact Hne |].
  split; [apply keys_set_present |].
  split; [apply keys_set_absent | reflexivity].
Qed.

(** [makeApiCall] after the cache check, outcome by outcome, with the world
    each outcome leaves. *)
Lemma fetchAndStore_exact url cacheKey ttl0 (w : World) :
  fetchAndStore url cacheKey ttl0 w
  = let w2 := snd (applyRateLimit w) in
    if URL_valid url then
      let ex := getWithHeaders (trace w2) (clock w2) url (key Config) in
      let w3 := mkWorld (clock w2 + Z.max 0 (latency ex)) (cache w2)
                  (rateLimiters w2)
                  (trace w2 ++ [EvFetch (clock w2) url (key Config)]) in
      match answer ex with
      | inl msg => (Threw (RuntimeError msg), w3)
      | inr response =>
          if ok response then
            match json response with
            | inr d => (Returned d, stored cacheKey ttl0 d w3)
            | inl msg => (Threw (RuntimeError msg), w3)
            end
          else
            (Threw (RiotApiFailure (classify response)),
             if status response =? 429
             then mkWorld (clock w3 + timer_delay (retry_wait response))
                    (cache w3) (rateLimiters w3)
                    (trace w3 ++ [EvSleep (retry_wait response)])
             else w3)
      end
    else (Threw (RuntimeError "Invalid URL"), w2).
Proof.
  destruct (applyRateLimit_frame w) as (w2 & Happly & _).
  cbv zeta. unfold fetchAndStore, bind. rewrite Happly. cbn [snd].
  unfold httpService_getWithHeaders.
  destruct (URL_valid url); [| reflexivity].
  destruct (answer (getWithHeaders (trace w2) (clock w2) url (key Config)))
    as [msg | response]; [reflexivity |].
  destruct (ok response).
  - unfold ret at 1. unfold response_json.
    destruct (json response) as [msg | d]; [reflexivity |].
    unfold stored, ret.
    destruct (storeResponse cacheKey ttl0 d _) as [[[] | e] w5] eqn:Es;
      [reflexivity |].
    exfalso. revert Es. unfold storeResponse, setCache, ret.
    destruct (given_key cacheKey); [| discriminate].
    destruct (given_ttl ttl0); [| discriminate].
    destruct (cache_enabled Config); discriminate.
  - rewrite handleApiError_throws. reflexivity.
Qed.


Lemma fetches_snoc (tr : list Event) (e : Event) :
  fetches (tr ++ [e]) = (fetches tr + (if is_fetch e then 1 else 0))%nat.
Proof. rewrite fetches_app. unfold fetches. cbn. destruct (is_fetch e); reflexivity. Qed.

Lemma makeApiCall_fetches
  (url : string) (cacheKey : option string) (ttl0 : option Z) (w : World) :
  fetches (trace (snd (makeApiCall url cacheKey ttl0 w)))
  = (fetches (trace w)
     + match fst (checkCache cacheKey w) with
       | Returned (Some _) => 0
       | _ => if URL_valid url then 1 else 0
       end)%nat.
Proof.
  destruct (checkCache_frame cacheKey w) as (r & w1 & Ec & _ & _ & Htr).
  rewrite Ec. cbn [fst]. destruct r as [v |].
  - rewrite (makeApiCall_hit url cacheKey ttl0 w v w1 Ec). cbn [snd].
    rewrite Htr. lia.
  - rewrite (makeApiCall_miss url cacheKey ttl0 w w1 Ec), fetchAndStore_exact.
    destruct (applyRateLimit_frame w1) as (w2 & Happly & _ & _ & evs & Htr2 & Hf2).
    rewrite Happly. cbn [snd]. cbv zeta.
    assert (Hw2 : fetches (trace w2) = fetches (trace w)).
    { rewrite Htr2, fetches_app, Hf2, Htr. lia. }
    destruct (URL_valid url); [| cbn [snd]; lia].
    destruct (answer _) as [msg | response]; cbn [snd trace].
    + rewrite fetches_snoc, Hw2. reflexivity.
    + destruct (ok response).
      * destruct (json response) as [msg | d]; cbn [snd trace].
        -- rewrite fetches_snoc, Hw2. reflexivity.
        -- destruct (stored_frame cacheKey ttl0 d
                       (mkWorld (clock w2 + Z.max 0 (latency (getWithHeaders
                                    (trace w2) (clock w2) url (key Config))))
                          (cache w2) (rateLimiters w2)
                          (trace w2 ++ [EvFetch (clock w2) url (key Config)])))
             as (_ & _ & Hs).
           rewrite Hs. cbn [trace]. rewrite fetches_snoc, Hw2. reflexivity.
      * cbn [snd]. destruct (status response =? 429); cbn [trace].
        -- rewrite !fetches_snoc, Hw2. cbn [is_fetch]. lia.
        -- rewrite fetches_snoc, Hw2. reflexivity.
Qed.

(** X4. A gateway call invokes the transport exactly once when it misses
    the cache and its URL parses, and not at all when it is answered from
    the cache or its URL does not parse; in particular a failed exchange,
    also a 429, is not tried again. *)
Theorem makeApiCall_one_transport_call
  (url : string) (cacheKey : option string) (ttl0 : option Z) (w : World) :
  fetches (trace (snd (makeApiCall url cacheKey ttl0 w)))
  = (fetches (trace w)
     + match fst (checkCache cacheKey w) with
       | Returned (Some _) => 0
       | _ => if URL_valid url then 1 else 0
       end)%nat.
Proof. exact (makeApiCall_fetches url cacheKey ttl0 w). Qed.

(** X5. A value a gateway call returns is either the payload of a live
    cache entry under its cacheKey, and then the world is untouched, or the
    decoded body of a response with a 2xx status that the transport gave to
    this very call. *)
Theorem makeApiCall_returns_cached_or_decoded
  (url : string) (cacheKey : option string) (ttl0 : option Z)
  (w w' : World) (v : Json)
  (Hcall : makeApiCall url cacheKey ttl0 w = (Returned v, w')) :
  (exists k c,
      given_key cacheKey = Some k /\ cache_enabled Config = true
      /\ JsMap.get k (cache w) = Some c /\ clock w <= timestamp c + ttl c
      /\ v = data c /\ w' = w)
  \/ (exists history now response,
         answer (getWithHeaders history now url (key Config)) = inr response
         /\ 200 <= status response <= 299
         /\ json response = inr v
         /\ In (EvFetch now url (key Config)) (appended (trace w) (trace w'))).
Proof.
  destruct (checkCache_cases cacheKey w)
    as [(k & c & Hk & Hen & Hget & Hlive & E) | Hmiss].
  - rewrite (makeApiCall_hit url cacheKey ttl0 w _ _ E) in Hcall.
    injection Hcall as <- <-. left. exists k, c. repeat split; assumption.
  - right.
    assert (Hw1 : exists w1, checkCache cacheKey w = (Returned None, w1)
                             /\ trace w1 = trace w).
    { destruct Hmiss as [(k & c & _ & _ & _ & _ & E) | [_ E]];
        rewrite E; eexists; split; reflexivity. }
    destruct Hw1 as (w1 & E & Htr).
    rewrite (makeApiCall_miss url cacheKey ttl0 w w1 E), fetchAndStore_exact in Hcall.
    destruct (applyRateLimit_frame w1) as (w2 & Happly & _ & _ & evs & Htr2 & _).
    rewrite Happly in Hcall. cbn [snd] in Hcall. cbv zeta in Hcall.
    destruct (URL_valid url); [| discriminate].
    destruct (answer (getWithHeaders (trace w2) (clock w2) url (key Config)))
      as [msg | response] eqn:Eans; [discriminate |].
    destruct (ok response) eqn:Eok; [| discriminate].
    destruct (json response) as [msg | d] eqn:Ej; [discriminate |].
    injection Hcall as <- <-.
    exists (trace w2), (clock w2), response.
    split; [exact Eans |]. split.
    { unfold ok in Eok. apply andb_true_iff in Eok. destruct Eok as [H1 H2].
      apply Z.leb_le in H1, H2. lia. }
    split; [exact Ej |].
    destruct (stored_frame cacheKey ttl0 d
                (mkWorld (clock w2 + Z.max 0 (latency (getWithHeaders
                             (trace w2) (clock w2) url (key Config))))
                   (cache w2) (rateLimiters w2)
                   (trace w2 ++ [EvFetch (clock w2) url (key Config)])))
      as (_ & _ & Hs).
    rewrite Hs. cbn [trace]. rewrite Htr2, Htr, <- app_assoc, appended_app.
    apply in_or_app. right. left. reflexivity.
Qed.

Lemma makeApiCall_threw
  (url : string) (cacheKey : option string) (ttl0 : option Z)
  (w w' : World) (e : JsError)
  (Hcall : makeApiCall url cacheKey ttl0 w = (Threw e, w')) :
  (forall k c, JsMap.get k (cache w') = Some c -> JsMap.get k (cache w) = Some c)
  /\ ((exists msg, e = RuntimeError msg)
      \/ exists response : Response Json,
           ok response = false /\ e = RiotApiFailure (classify response)).
Proof.
  assert (Hw1 : exists w1, checkCache cacheKey w = (Returned None, w1)
                           /\ forall k c, JsMap.get k (cache w1) = Some c ->
                                          JsMap.get k (cache w) = Some c).
  { destruct (checkCache_cases cacheKey w)
      as [(k & c & _ & _ & _ & _ & E) | [(k & c & _ & _ & _ & _ & E) | [_ E]]].
    - rewrite (makeApiCall_hit url cacheKey ttl0 w _ _ E) in Hcall. discriminate.
    - eexists. split; [exact E |]. cbn [cache]. intros k' c'.
      apply get_delete_some.
    - eexists. split; [exact E |]. auto. }
  destruct Hw1 as (w1 & E & Hsub).
  rewrite (makeApiCall_miss url cacheKey ttl0 w w1 E), fetchAndStore_exact in Hcall.
  destruct (applyRateLimit_frame w1) as (w2 & Happly & Hc2 & _).
  rewrite Happly in Hcall. cbn [snd] in Hcall. cbv zeta in Hcall.
  destruct (URL_valid url).
  - destruct (answer _) as [msg | response].
    + injection Hcall as <- <-. cbn [cache]. rewrite Hc2.
      split; [exact Hsub | left; eexists; reflexivity].
    + destruct (ok response) eqn:Eok.
      * destruct (json response) as [msg | d]; [| discriminate].
        injection Hcall as <- <-. cbn [cache]. rewrite Hc2.
        split; [exact Hsub | left; eexists; reflexivity].
      * injection Hcall as <- <-.
        split; [| right; exists response; split; [exact Eok | reflexivity]].
        destruct (status response =? 429); cbn [cache]; rewrite Hc2; exact Hsub.
  - injection Hcall as <- <-. rewrite Hc2.
    split; [exact Hsub | left; eexists; reflexivity].
Qed.

(** X6. A gateway call that throws has stored nothing: every entry of the
    cache after the call was there before it. What it throws is an error of
    the platform (the URL, the transport, the decoder) or the failure
    [handleApiError] makes of a response whose status is not 2xx. *)
Theorem makeApiCall_failure_stores_nothing
  (url : string) (cacheKey : option string) (ttl0 : option Z)
  (w w' : World) (e : JsError)
  (Hcall : makeApiCall url cacheKey ttl0 w = (Threw e, w')) :
  (forall k c, JsMap.get k (cache w') = Some c -> JsMap.get k (cache w) = Some c)
  /\ ((exists msg, e = RuntimeError msg)
      \/ exists response : Response Json,
           ok response = false /\ e = RiotApiFailure (classify response)).
Proof. exact (makeApiCall_threw url cacheKey ttl0 w w' e Hcall). Qed.

Lemma given_key_truthy (cacheKey : option string) (k : string) :
  given_key cacheKey = Some k -> Js.truthy k = true /\ cacheKey = Some k.
Proof.
  unfold given_key. destruct cacheKey as [k0 |]; [| discriminate].
  destruct (Js.truthy k0) eqn:E; [| discriminate].
  intros [= <-]. split; [exact E | reflexivity].
Qed.

Lemma given_ttl_nonzero (ttl0 : option Z) (t : Z) :
  given_ttl ttl0 = Some t -> t <> 0 /\ ttl0 = Some t.
Proof.
  unfold given_ttl. destruct ttl0 as [t0 |]; [| discriminate].
  destruct (Z.eqb_spec t0 0); [discriminate |].
  intros [= <-]. split; [assumption | reflexivity].
Qed.

Lemma stored_at_completion
  (url k : string) (t : Z) (w w' : World) (v : Json)
  (Hen : cache_enabled Config = true)
  (Hk : Js.truthy k = true)
  (Ht : t <> 0)
  (Hmiss : fst (checkCache (Some k) w) = Returned None)
  (Hcall : makeApiCall url (Some k) (Some t) w = (Returned v, w')) :
  JsMap.get k (cache w') = Some (mkCachedData v (clock w') t)
  /\ (forall k', k' <> k -> JsMap.get k' (cache w') = JsMap.get k' (cache w))
  /\ clock w <= clock w'.
Proof.
  assert (Hgk : given_key (Some k) = Some k).
  { unfold given_key. rewrite Hk. reflexivity. }
  assert (Hgt : given_ttl (Some t) = Some t).
  { unfold given_ttl. rewrite (proj2 (Z.eqb_neq t 0) Ht). reflexivity. }
  assert (Hw1 : exists w1, checkCache (Some k) w = (Returned None, w1)
                           /\ clock w1 = clock w
                           /\ forall k', k' <> k ->
                                JsMap.get k' (cache w1) = JsMap.get k' (cache w)).
  { destruct (checkCache_cases (Some k) w)
      as [(k0 & c & _ & _ & _ & _ & E) | [(k0 & c & Hk0 & _ & _ & _ & E) | [_ E]]].
    - rewrite E in Hmiss. discriminate.
    - eexists. split; [exact E |]. split; [reflexivity |].
      cbn [cache]. intros k' Hne. apply get_delete_other. congruence.
    - eexists. split; [exact E |]. split; reflexivity. }
  destruct Hw1 as (w1 & E & Hclk & Hother).
  rewrite (makeApiCall_miss url (Some k) (Some t) w w1 E) in Hcall.
  destruct (fetchAndStore_returned _ _ _ _ _ _ Hcall) as (w3 & -> & Hc3 & Hclk3 & _).
  rewrite (stored_entry k t v w3 Hen), Hgk, Hgt. cbn [cache clock].
  split; [apply get_set_same |].
  split; [| lia].
  intros k' Hne. rewrite get_set_other by exact Hne. rewrite Hc3.
  apply Hother. exact Hne.
Qed.

(** X7. A gateway call that misses the cache and returns, with a cacheKey
    and a ttl that are given and caching enabled, stores its value under the
    cacheKey with the ttl and with the time at which the call ends as its
    timestamp, so the ttl runs from the response, after every wait; the
    entry of every other key is left as it was. *)
Theorem makeApiCall_stores_at_completion
  (url k : string) (t : Z) (w w' : World) (v : Json)
  (Hen : cache_enabled Config = true)
  (Hk : Js.truthy k = true)
  (Ht : t <> 0)
  (Hmiss : fst (checkCache (Some k) w) = Returned None)
  (Hcall : makeApiCall url (Some k) (Some t) w = (Returned v, w')) :
  JsMap.get k (cache w') = Some (mkCachedData v (clock w') t)
  /\ (forall k', k' <> k -> JsMap.get k' (cache w') = JsMap.get k' (cache w))
  /\ clock w <= clock w'.
Proof.
  exact (stored_at_completion url k t w w' v Hen Hk Ht Hmiss Hcall).
Qed.

(** Once a call has stored its value, any call with the same cacheKey made
    within the ttl is answered with that value, whatever its URL. *)
Lemma makeApiCall_then_hit
  (url url' k : string) (t d : Z) (ttl' : option Z) (w w' : World) (v : Json) :
  cache_enabled Config = true ->
  Js.truthy k = true ->
  t <> 0 ->
  fst (checkCache (Some k) w) = Returned None ->
  makeApiCall url (Some k) (Some t) w = (Returned v, w') ->
  d <= t ->
  makeApiCall url' (Some k) ttl' (elapse d w') = (Returned v, elapse d w').
Proof.
  intros Hen Hk Ht Hmiss Hcall Hd.
  destruct (stored_at_completion url k t w w' v Hen Hk Ht Hmiss Hcall)
    as (Hget & _).
  apply (makeApiCall_live _ url' k ttl' (mkCachedData v (clock w') t) Hen Hk).
  - exact Hget.
  - cbn [elapse clock timestamp ttl]. lia.
Qed.

End MoreGateway.

(** X5 on the first call of a service whose transport always answers: the
    value is the decoded body of the response given to this call. *)
Lemma makeApiCall_returns_cached_or_decoded_witness :
  let url := "https://na1.api.riotgames.com/x" in
  let w := @initial okEnv 0 in
  let w' := snd (@makeApiCall okEnv url None None w) in
  (exists k c,
      given_key None = Some k /\ cache_enabled (@Config okEnv) = true
      /\ JsMap.get k (@cache okEnv w) = Some c
      /\ @clock okEnv w <= timestamp c + ttl c
      /\ Payload "puuid-1" = data c /\ w' = w)
  \/ (exists history now response,
         answer (@getWithHeaders okEnv history now url (key (@Config okEnv)))
         = inr response
         /\ 200 <= status response <= 299
         /\ json response = inr (Payload "puuid-1")
         /\ In (EvFetch now url (key (@Config okEnv)))
              (appended (@trace okEnv w) (@trace okEnv w'))).
Proof.
  exact (@makeApiCall_returns_cached_or_decoded okEnv
           "https://na1.api.riotgames.com/x" None None (@initial okEnv 0) _
           (Payload "puuid-1") eq_refl).
Defined.

(** X6 on a call that the server answers with 404: the cache, empty before,
    is empty after. *)
Lemma makeApiCall_failure_stores_nothing_witness :
  let url := "https://na1.api.riotgames.com/x" in
  let w := @initial refusingEnv 0 in
  let w' := snd (@makeApiCall refusingEnv url (Some "k") (Some 10) w) in
  let e := RiotApiFailure
             (@classify refusingEnv
                (mkResponse 404 "Not Found" None
                   (inr (ErrorBody "Data not found")))) in
  (forall k c, JsMap.get k (@cache refusingEnv w') = Some c ->
               JsMap.get k (@cache refusingEnv w) = Some c)
  /\ ((exists msg, e = RuntimeError msg)
      \/ exists response : Response (@Json refusingEnv),
           ok response = false
           /\ e = RiotApiFailure (@classify refusingEnv response)).
Proof.
  exact (@makeApiCall_failure_stores_nothing refusingEnv
           "https://na1.api.riotgames.com/x" (Some "k") (Some 10)
           (@initial refusingEnv 0) _
           (RiotApiFailure
              (@classify refusingEnv
                 (mkResponse 404 "Not Found" None
                    (inr (ErrorBody "Data not found")))))
           eq_refl).
Defined.

(** X7 on a call that caches its response under [k] for 10 ms. *)
Lemma makeApiCall_stores_at_completion_witness :
  let url := "https://na1.api.riotgames.com/x" in
  let w := @initial okEnv 0 in
  let w' := snd (@makeApiCall okEnv url (Some "k") (Some 10) w) in
  JsMap.get "k" (@cache okEnv w')
  = Some (@mkCachedData okEnv (Payload "puuid-1") (@clock okEnv w') 10)
  /\ (forall k', k' <> "k" ->
                 JsMap.get k' (@cache okEnv w') = JsMap.get k' (@cache okEnv w))
  /\ @clock okEnv w <= @clock okEnv w'.
Proof.
  exact (@makeApiCall_stores_at_completion okEnv
           "https://na1.api.riotgames.com/x" "k" 10 (@initial okEnv 0) _
           (Payload "puuid-1") eq_refl eq_refl
           ltac:(intros H; discriminate H) eq_refl eq_refl).
Defined.

(** X3 on the first entry of an empty cache. *)
Lemma setCache_overwrites_witness :
  JsMap.keys (@cache okEnv (snd (@setCache okEnv "k" (Payload "v") 10
                                   (@initial okEnv 0))))
  = JsMap.keys (@cache okEnv (@initial okEnv 0)) ++ ["k"].
Proof.
  apply (proj1 (proj2 (proj2 (proj2
           (@setCache_overwrites okEnv "k" (Payload "v") 10
              (@initial okEnv 0)))))).
  intros H. exact H.
Defined.

(** ** What every reachable world keeps *)

Lemma window_ok_later (now now' : Z) (rl : RateLimiter) :
  window_ok now rl -> now <= now' -> window_ok now' rl.
Proof.
  intros [Hlen Hpast] Hle. split; [exact Hlen |].
  intros t Ht. specialize (Hpast t Ht). lia.
Qed.

Lemma tryRequest_window_ok (now t : Z) (rl : RateLimiter) :
  window_ok now rl -> now <= t -> window_ok t (snd (tryRequest t rl)).
Proof.
  intros [Hlen Hpast] Hle. unfold tryRequest.
  pose proof (filter_length_le (fun time => t - time <? windowMs rl) (requests rl))
    as Hfl.
  assert (Hkept : forall e,
             In e (filter (fun time => t - time <? windowMs rl) (requests rl)) ->
             e <= t).
  { intros e He. apply filter_In in He. specialize (Hpast e (proj1 He)). lia. }
  destruct (Z.ltb_spec
              (Z.of_nat (List.length
                 (filter (fun time => t - time <? windowMs rl) (requests rl))))
              (limit rl)) as [Hlt | Hge]; cbn [snd]; split;
    cbn [requests limit].
  - rewrite length_app. cbn [List.length]. lia.
  - intros e He. apply in_app_or in He.
    destruct He as [He | [<- | []]]; [apply Hkept; exact He | lia].
  - lia.
  - exact Hkept.
Qed.




Section Invariants.

Context {C : Collaborators}.

Lemma well_kept_initial (t0 : Z) : well_kept (initial t0).
Proof.
  split; [| split].
  - eexists. eexists. split; [reflexivity |].
    cbn [newRateLimiter limit windowMs].
    repeat split; try reflexivity; cbn; try lia; intros t [].
  - constructor.
  - intros k c [].
Qed.

(** A world that differs from a well kept one by a later clock and at most
    one entry set under a truthy key, with a truthy ttl and a timestamp that
    is not in the future, is well kept. *)
Lemma well_kept_update (w w' : World) :
  well_kept w ->
  rateLimiters w' = rateLimiters w ->
  clock w <= clock w' ->
  (cache w' = cache w
   \/ exists k c, Js.truthy k = true /\ ttl c <> 0 /\ timestamp c <= clock w'
                  /\ cache w' = JsMap.set k c (cache w)) ->
  well_kept w'.
Proof.
  intros ((g & a & Hrl & Hg1 & Hg2 & Ha1 & Ha2 & Hgok & Haok) & Hnd & Hentries)
         Hrl' Hclk Hcache.
  split; [| split].
  - exists g, a. rewrite Hrl'. repeat split; try assumption.
    + exact (proj1 Hgok).
    + intros t Ht. pose proof (proj2 Hgok t Ht). lia.
    + exact (proj1 Haok).
    + intros t Ht. pose proof (proj2 Haok t Ht). lia.
  - destruct Hcache as [-> | (k & c & _ & _ & _ & ->)];
      [exact Hnd | apply keys_set_nodup; exact Hnd].
  - intros k0 c0 Hin.
    destruct Hcache as [Hc | (k & c & Hk & Ht & Hts & Hc)]; rewrite Hc in Hin.
    + destruct (Hentries k0 c0 Hin) as (H1 & H2 & H3). repeat split; auto. lia.
    + apply in_set in Hin. destruct Hin as [[= -> ->] | Hin].
      * repeat split; assumption.
      * destruct (Hentries k0 c0 Hin) as (H1 & H2 & H3). repeat split; auto. lia.
Qed.

Lemma well_kept_delete (w : World) (k : string) :
  well_kept w ->
  well_kept (mkWorld (clock w) (JsMap.delete k (cache w)) (rateLimiters w)
               (trace w)).
Proof.
  intros (Hrl & Hnd & Hentries). split; [exact Hrl | split].
  - cbn [cache]. apply keys_delete_nodup. exact Hnd.
  - cbn [cache clock]. intros k0 c0 Hin. apply Hentries.
    exact (in_delete _ _ _ Hin).
Qed.

Lemma well_kept_applyRateLimit (w : World) :
  well_kept w -> well_kept (snd (applyRateLimit w)).
Proof.
  intros ((g & a & Hrl & Hg1 & Hg2 & Ha1 & Ha2 & Hgok & Haok) & Hnd & Hentries).
  assert (Hg : JsMap.get "global" (rateLimiters w) = Some g)
    by (rewrite Hrl; reflexivity).
  assert (Ha : JsMap.get "app" (rateLimiters w) = Some a)
    by (rewrite Hrl; reflexivity).
  pose proof (applyRateLimit_present w g a Hg Ha) as E. cbv zeta in E.
  rewrite E. cbn [snd]. rewrite Hrl.
  pose proof (throttle_delay_nonneg (clock w) g) as Hd1.
  pose proof (throttle_delay_nonneg (clock w + throttle_delay (clock w) g) a) as Hd2.
  split; [| split].
  - exists (snd (tryRequest (clock w) g)),
           (snd (tryRequest (clock w + throttle_delay (clock w) g) a)).
    cbn [rateLimiters clock].
    split; [reflexivity |].
    rewrite !tryRequest_limit, !tryRequest_windowMs.
    repeat split; try assumption.
    + exact (proj1 (tryRequest_window_ok (clock w) (clock w) g Hgok ltac:(lia))).
    + intros t Ht.
      pose proof (proj2 (tryRequest_window_ok (clock w) (clock w) g Hgok ltac:(lia))
                    t Ht). lia.
    + exact (proj1 (tryRequest_window_ok (clock w)
                      (clock w + throttle_delay (clock w) g) a Haok ltac:(lia))).
    + intros t Ht.
      pose proof (proj2 (tryRequest_window_ok (clock w)
                           (clock w + throttle_delay (clock w) g) a Haok
                           ltac:(lia)) t Ht). lia.
  - exact Hnd.
  - cbn [cache clock]. intros k c Hin.
    destruct (Hentries k c Hin) as (H1 & H2 & H3). repeat split; auto. lia.
Qed.

Lemma well_kept_fetchAndStore url cacheKey ttl0 (w : World) :
  well_kept w -> well_kept (snd (fetchAndStore url cacheKey ttl0 w)).
Proof.
  intros Hw. rewrite fetchAndStore_exact. cbv zeta.
  pose proof (well_kept_applyRateLimit w Hw) as Hw2.
  set (w2 := snd (applyRateLimit w)) in *.
  destruct (URL_valid url); [| exact Hw2].
  set (ex := getWithHeaders (trace w2) (clock w2) url (key Config)).
  set (w3 := mkWorld (clock w2 + Z.max 0 (latency ex)) (cache w2)
               (rateLimiters w2)
               (trace w2 ++ [EvFetch (clock w2) url (key Config)])).
  assert (Hw3 : well_kept w3).
  { apply (well_kept_update w2 w3 Hw2); cbn [w3 rateLimiters clock cache];
      [reflexivity | lia | left; reflexivity]. }
  destruct (answer ex) as [msg | response]; [exact Hw3 |].
  destruct (ok response).
  - destruct (json response) as [msg | d]; [exact Hw3 |]. cbn [snd].
    unfold stored, storeResponse.
    destruct (given_key cacheKey) as [k |] eqn:Ek; [| exact Hw3].
    destruct (given_ttl ttl0) as [t |] eqn:Et; [| exact Hw3].
    destruct (cache_enabled Config); [| exact Hw3].
    apply (well_kept_update w3 _ Hw3); cbn [setCache snd rateLimiters clock cache];
      [reflexivity | lia |].
    right. exists k, (mkCachedData d (clock w3) t). cbn [ttl timestamp].
    repeat split.
    + exact (proj1 (given_key_truthy _ _ Ek)).
    + exact (proj1 (given_ttl_nonzero _ _ Et)).
    + lia.
  - cbn [snd]. destruct (status response =? 429); [| exact Hw3].
    apply (well_kept_update w3 _ Hw3); cbn [rateLimiters clock cache];
      [reflexivity | | left; reflexivity].
    pose proof (timer_delay_pos (retry_wait response)). lia.
Qed.

Lemma well_kept_makeApiCall url cacheKey ttl0 (w : World) :
  well_kept w -> well_kept (snd (makeApiCall url cacheKey ttl0 w)).
Proof.
  intros Hw.
  destruct (checkCache_cases cacheKey w)
    as [(k & c & _ & _ & _ & _ & E) | [(k & c & _ & _ & _ & _ & E) | [_ E]]].
  - rewrite (makeApiCall_hit url cacheKey ttl0 w _ _ E). exact Hw.
  - rewrite (makeApiCall_miss url cacheKey ttl0 w _ E).
    apply well_kept_fetchAndStore, well_kept_delete. exact Hw.
  - rewrite (makeApiCall_miss url cacheKey ttl0 w _ E).
    apply well_kept_fetchAndStore. exact Hw.
Qed.

Lemma well_kept_reachable (w : World) : reachable w -> well_kept w.
Proof.
  induction 1 as [t0 | d w Hd _ IH | url cacheKey ttl0 w _ IH | w _ IH].
  - apply well_kept_initial.
  - apply (well_kept_update w _ IH); cbn [elapse rateLimiters clock cache];
      [reflexivity | lia | left; reflexivity].
  - apply well_kept_makeApiCall. exact IH.
  - destruct IH as (Hrl & _ & _). split; [exact Hrl | split].
    + constructor.
    + intros k c [].
Qed.

(** X8. Every world a service reaches from its construction, through
    gateway calls, [clearCache] and the passing of time, holds the two
    windows of the constructor with their configured quotas and durations,
    each with no more entries than its quota and none in the future, and a
    cache with one entry per key, each under a non-empty key, with a ttl
    that is not 0 and a timestamp that is not in the future. *)
Theorem reachable_well_kept (w : World) (Hreach : reachable w) : well_kept w.
Proof. exact (well_kept_reachable w Hreach). Qed.


End Invariants.

(** The world [busy_world] is reached by one call and one millisecond. *)
Lemma busy_world_reachable : @reachable okEnv busy_world.
Proof.
  unfold busy_world. apply reach_elapse; [lia |].
  apply reach_call. apply reach_initial.
Qed.

(** X8 on [busy_world]. *)
Lemma reachable_well_kept_witness : @well_kept okEnv busy_world.
Proof. exact (@reachable_well_kept okEnv busy_world busy_world_reachable). Defined.


(** ** The public methods and the cache keys they build *)

Lemma tagLineMap_entries :
  forallb (fun entry =>
             match property tagLineMap (continent (snd entry)) with
             | Own tags => tags_shape tags
             | _ => false
             end) REGIONS = true.
Proof. vm_compute. reflexivity. Qed.

Lemma get_in {V} (k : string) (v : V) (m : JsMap.t V) :
  JsMap.get k m = Some v -> In (k, v) m.
Proof.
  induction m as [| [k' v'] m IH]; cbn [JsMap.get]; [discriminate |].
  destruct (String.eqb_spec k k') as [-> | _].
  - intros [= ->]. left. reflexivity.
  - intros H. right. exact (IH H).
Qed.

Lemma getDefaultTagLinesForRegion_shape (region : string) (tags : list string) :
  getDefaultTagLinesForRegion region = inr tags -> tags_shape tags = true.
Proof.
  unfold getDefaultTagLinesForRegion, getRegionConfig, property at 1.
  destruct (JsMap.get (Js.toLowerCase region) REGIONS) as [rc |] eqn:Eg.
  - cbn [continent_of].
    pose proof (proj1 (forallb_forall _ _) tagLineMap_entries
                  (Js.toLowerCase region, rc) (get_in _ _ _ Eg)) as H.
    cbn [snd] in H.
    destruct (property tagLineMap (continent rc)); [| discriminate..].
    intros [= <-]. exact H.
  - destruct (existsb _ Object_prototype); [| discriminate].
    cbn [continent_of]. intros [= <-]. reflexivity.
Qed.

Section MoreMethods.

Context {C : Collaborators}.

Lemma buildUrl_accepted (region endpoint : string) (b : bool) (rv : RegionValue) :
  getRegionConfig region = inr rv ->
  exists url, buildUrl region endpoint b = inr url.
Proof.
  intros E. unfold buildUrl. rewrite E. destruct b; eexists; reflexivity.
Qed.


Lemma one_call_returned region endpoint regional k t (w w' : World) (v : Json) :
  bind (lift (buildUrl region endpoint regional))
       (fun url => makeApiCall url (Some k) (Some t)) w = (Returned v, w') ->
  exists url, buildUrl region endpoint regional = inr url
              /\ makeApiCall url (Some k) (Some t) w = (Returned v, w').
Proof.
  unfold bind.
  destruct (buildUrl region endpoint regional) as [e | url];
    cbn [lift]; unfold throw, ret; [discriminate |].
  intros H. exists url. split; [reflexivity | exact H].
Qed.

(** Two methods whose calls build the same cache key share their entry:
    after a call of the first that missed the cache, returned and stored its
    value, a call of the second on an accepted region, no more than the ttl
    later, returns that value and leaves the world as it is. *)
Lemma one_call_shared region endpoint regional region' endpoint' regional'
      (rv : RegionValue) (k : string) (t t' d : Z) (w w' : World) (v : Json) :
  cache_enabled Config = true ->
  Js.truthy k = true ->
  t <> 0 ->
  fst (checkCache (Some k) w) = Returned None ->
  bind (lift (buildUrl region endpoint regional))
       (fun url => makeApiCall url (Some k) (Some t)) w = (Returned v, w') ->
  getRegionConfig region' = inr rv ->
  d <= t ->
  bind (lift (buildUrl region' endpoint' regional'))
       (fun url => makeApiCall url (Some k) (Some t')) (elapse d w')
  = (Returned v, elapse d w').
Proof.
  intros Hen Hk Ht Hmiss Hcall Hrv Hd.
  destruct (one_call_returned _ _ _ _ _ _ _ _ Hcall) as (url & _ & Hmake).
  destruct (buildUrl_accepted region' endpoint' regional' rv Hrv) as (url' & E').
  unfold bind. rewrite E'. cbn [lift]. unfold ret.
  exact (makeApiCall_then_hit url url' k t d (Some t') w w' v
           Hen Hk Ht Hmiss Hmake Hd).
Qed.

(** X10. The cache keys of [getSummonerByPuuid] and [getMatchById] leave
    out the region: after a lookup that missed the cache and returned, the
    lookup of the same puuid, or match id, on any other accepted region, no
    more than the ttl later, is answered with the value of the first region
    and makes no request. *)
Theorem region_left_out_of_cache_key :
  (forall (puuid0 region region' : string) (rv : RegionValue) (d : Z)
          (w w' : World) (v : Json),
      cache_enabled Config = true ->
      summonerTtl Config <> 0 ->
      fst (checkCache (Some ("summoner:puuid:" +++ puuid0)) w) = Returned None ->
      getSummonerByPuuid puuid0 region w = (Returned v, w') ->
      getRegionConfig region' = inr rv ->
      d <= summonerTtl Config * 1000 ->
      getSummonerByPuuid puuid0 region' (elapse d w')
      = (Returned v, elapse d w'))
  /\ (forall (matchId region region' : string) (rv : RegionValue) (d : Z)
             (w w' : World) (v : Json),
         cache_enabled Config = true ->
         matchesTtl Config <> 0 ->
         fst (checkCache (Some ("match:" +++ matchId)) w) = Returned None ->
         getMatchById matchId region w = (Returned v, w') ->
         getRegionConfig region' = inr rv ->
         d <= matchesTtl Config * 1000 ->
         getMatchById matchId region' (elapse d w')
         = (Returned v, elapse d w')).
Proof.
  split.
  - intros p region region' rv d w w' v Hen Ht Hmiss Hcall Hrv Hd.
    assert (HT : summonerTtl Config * 1000 <> 0) by lia.
    exact (one_call_shared region _ true region' _ true rv
             ("summoner:puuid:" +++ p) _ _ d w w' v Hen eq_refl
             HT Hmiss Hcall Hrv Hd).
  - intros m region region' rv d w w' v Hen Ht Hmiss Hcall Hrv Hd.
    assert (HT : matchesTtl Config * 1000 <> 0) by lia.
    exact (one_call_shared region _ false region' _ false rv
             ("match:" +++ m) _ _ d w w' v Hen eq_refl
             HT Hmiss Hcall Hrv Hd).
Qed.

(** X11. The cache key of [getMatchIdsByPuuid] leaves out the filters
    [type], [startTime] and [endTime], which the URL carries: after a call
    that missed the cache and returned, a call that differs in these three
    filters only, no more than the ttl later, is answered with the ids of
    the first call and makes no request. *)
Theorem getMatchIdsByPuuid_filters_left_out
  (params : MatchHistoryParams.t)
  (type' : option string) (startTime' endTime' : option Z)
  (d : Z) (w w' : World) (v : Json)
  (Hen : cache_enabled Config = true)
  (Httl : matchesTtl Config <> 0)
  (Hmiss : fst (checkCache (Some (matchIds_cacheKey params)) w) = Returned None)
  (Hcall : getMatchIdsByPuuid params w = (Returned v, w'))
  (Hd : d <= matchesTtl Config * 1000) :
  getMatchIdsByPuuid
    (MatchHistoryParams.make
       (MatchHistoryParams.puuid params) (MatchHistoryParams.region params)
       (MatchHistoryParams.start params) (MatchHistoryParams.count params)
       (MatchHistoryParams.queue params) type' startTime' endTime')
    (elapse d w')
  = (Returned v, elapse d w').
Proof.
  destruct (one_call_returned (MatchHistoryParams.region params)
              (matchIds_endpoint params) false (matchIds_cacheKey params)
              (matchesTtl Config * 1000) w w' v Hcall) as (url & Hurl & _).
  assert (Hrv : exists rv,
             getRegionConfig (MatchHistoryParams.region params) = inr rv).
  { revert Hurl. unfold buildUrl.
    destruct (getRegionConfig (MatchHistoryParams.region params)) as [e | rv];
      [discriminate | intros _; exists rv; reflexivity]. }
  destruct Hrv as (rv & Hrv).
  assert (HT : matchesTtl Config * 1000 <> 0) by lia.
  assert (Hk : Js.truthy (matchIds_cacheKey params) = true) by reflexivity.
  exact (one_call_shared (MatchHistoryParams.region params) _ false
           (MatchHistoryParams.region params) _ false rv
           (matchIds_cacheKey params) _ _ d w w' v Hen Hk
           HT Hmiss Hcall Hrv Hd).
Qed.

(** X12. The cache key of [getAccountByRiotId] joins gameName and tagLine
    with a colon, so two Riot IDs that read the same once joined share one
    entry: after a lookup of the first that missed the cache and returned,
    the lookup of the second, no more than the ttl later, is answered with
    the account of the first and makes no request. *)
Theorem getAccountByRiotId_keys_collide
  (gameName tagLine gameName' tagLine' region : string) (d : Z)
  (w w' : World) (v : Json)
  (Hen : cache_enabled Config = true)
  (Httl : summonerTtl Config <> 0)
  (Hjoin : gameName +++ ":" +++ tagLine = gameName' +++ ":" +++ tagLine')
  (Hmiss : fst (checkCache
                  (Some ("account:" +++ region +++ ":" +++ gameName
                         +++ ":" +++ tagLine)) w) = Returned None)
  (Hcall : getAccountByRiotId gameName tagLine region w = (Returned v, w'))
  (Hd : d <= summonerTtl Config * 1000) :
  getAccountByRiotId gameName' tagLine' region (elapse d w')
  = (Returned v, elapse d w').
Proof.
  destruct (one_call_returned region _ false _ _ w w' v Hcall)
    as (url & Hurl & _).
  assert (Hrv : exists rv, getRegionConfig region = inr rv).
  { revert Hurl. unfold buildUrl.
    destruct (getRegionConfig region) as [e | rv];
      [discriminate | intros _; exists rv; reflexivity]. }
  destruct Hrv as (rv & Hrv).
  assert (HT : summonerTtl Config * 1000 <> 0) by lia.
  unfold getAccountByRiotId. cbv zeta. rewrite <- Hjoin.
  exact (one_call_shared region _ false region _ false rv
           ("account:" +++ region +++ ":" +++ gameName +++ ":" +++ tagLine)
           _ _ d w w' v Hen eq_refl HT Hmiss Hcall Hrv Hd).
Qed.

(** *** How many requests a lookup makes *)

Lemma makeApiCall_fetches_bounds url cacheKey ttl0 (w : World) :
  (fetches (trace w) <= fetches (trace (snd (makeApiCall url cacheKey ttl0 w)))
   <= fetches (trace w) + 1)%nat.
Proof.
  rewrite makeApiCall_fetches.
  destruct (fst (checkCache cacheKey w)) as [[v |] | e];
    try destruct (URL_valid url); lia.
Qed.

Lemma one_call_fetches_bounds region endpoint regional k t (w : World) :
  (fetches (trace w)
   <= fetches (trace (snd (bind (lift (buildUrl region endpoint regional))
                             (fun url => makeApiCall url (Some k) (Some t)) w)))
   <= fetches (trace w) + 1)%nat.
Proof.
  unfold bind.
  destruct (buildUrl region endpoint regional) as [e | url]; cbn [lift];
    unfold throw, ret; [cbn [snd]; lia |].
  apply makeApiCall_fetches_bounds.
Qed.

Lemma getSummonerByRiotId_fetches_bounds gameName tagLine region (w : World) :
  (fetches (trace w)
   <= fetches (trace (snd (getSummonerByRiotId gameName tagLine region w)))
   <= fetches (trace w) + 2)%nat.
Proof.
  unfold getSummonerByRiotId, bind.
  pose proof (one_call_fetches_bounds region
                ("/riot/account/v1/accounts/by-riot-id/"
                 +++ Js.encodeURIComponent gameName +++ "/"
                 +++ Js.encodeURIComponent tagLine) false
                ("account:" +++ region +++ ":" +++ gameName +++ ":" +++ tagLine)
                (summonerTtl Config * 1000) w) as H1.
  change (bind _ _ w)
    with (getAccountByRiotId gameName tagLine region w) in H1.
  destruct (getAccountByRiotId gameName tagLine region w) as [[account | e] w1];
    cbn [snd] in *; [| lia].
  pose proof (one_call_fetches_bounds region
                ("/lol/summoner/v4/summoners/by-puuid/" +++ puuid account) true
                ("summoner:puuid:" +++ puuid account)
                (summonerTtl Config * 1000) w1) as H2.
  change (bind _ _ w1)
    with (getSummonerByPuuid (puuid account) region w1) in H2.
  lia.
Qed.

Lemma tryTagLines_fetches_bounds summonerName region tags :
  forall w : World,
    (fetches (trace w)
     <= fetches (trace (snd (tryTagLines summonerName region tags w)))
     <= fetches (trace w) + 2 * List.length tags)%nat.
Proof.
  induction tags as [| tagLine rest IH]; intros w.
  - cbn. lia.
  - rewrite tryTagLines_step.
    pose proof (getSummonerByRiotId_fetches_bounds summonerName tagLine region w)
      as H1.
    destruct (getSummonerByRiotId summonerName tagLine region w) as [[v | e] w1];
      cbn [snd] in *; cbn [List.length]; [lia |].
    destruct (Js.includes (message e) "Not Found"); cbn [snd]; [| lia].
    specialize (IH w1). lia.
Qed.

(** X13. [getSummonerByName] makes at most two requests for a name with a
    hash, and at most two for each default tagLine it tries for a name
    without one, fourteen at the most; no lookup is repeated beyond
    that. *)
Theorem getSummonerByName_request_budget
  (summonerName region : string) (w : World) :
  let made := (fetches (trace (snd (getSummonerByName summonerName region w)))
               - fetches (trace w))%nat in
  (fetches (trace w)
   <= fetches (trace (snd (getSummonerByName summonerName region w))))%nat
  /\ (made <= 14)%nat
  /\ (Js.includes summonerName "#" = true -> (made <= 2)%nat)
  /\ (Js.includes summonerName "#" = false ->
      forall tags, getDefaultTagLinesForRegion region = inr tags ->
                   (made <= 2 * List.length tags)%nat).
Proof.
  cbv zeta. unfold getSummonerByName.
  destruct (Js.includes summonerName "#").
  - cbv zeta.
    pose proof (getSummonerByRiotId_fetches_bounds
                  (Js.trim (nth 0 (Js.split "#" summonerName) EmptyString))
                  (Js.trim (nth 1 (Js.split "#" summonerName) EmptyString))
                  region w) as H.
    repeat split; try lia; discriminate.
  - unfold bind.
    destruct (getDefaultTagLinesForRegion region) as [e | tags] eqn:Et;
      cbn [lift]; unfold throw, ret; cbn [snd].
    + repeat split; try lia; discriminate.
    + pose proof (tryTagLines_fetches_bounds summonerName region tags w) as H.
      pose proof (getDefaultTagLinesForRegion_shape region tags Et) as Hs.
      unfold tags_shape in Hs.
      apply andb_prop in Hs. destruct Hs as [Hs Hle].
      apply Nat.leb_le in Hle.
      repeat split; try lia; try discriminate.
      intros _ tags' [= <-]. lia.
Qed.

(** X14. On an empty cache, with caching enabled, a [getSummonerByRiotId]
    that returned has stored the account and the summoner, and the same
    lookup started no later than [summonerTtl] after the first one started
    is answered from the cache: it returns the same summoner, makes no
    request and leaves the world as it is. *)
Theorem getSummonerByRiotId_repeated
  (gameName tagLine region : string) (d : Z) (w w' : World) (v : Json)
  (Hen : cache_enabled Config = true)
  (Httl : summonerTtl Config <> 0)
  (Hempty : cache w = [])
  (Hcall : getSummonerByRiotId gameName tagLine region w = (Returned v, w'))
  (Hd : clock w' + d <= clock w + summonerTtl Config * 1000) :
  getSummonerByRiotId gameName tagLine region (elapse d w')
  = (Returned v, elapse d w').
Proof.
  set (T := summonerTtl Config * 1000) in *.
  assert (HT : T <> 0) by (unfold T; lia).
  set (k1 := "account:" +++ region +++ ":" +++ gameName +++ ":" +++ tagLine).
  assert (Hmiss1 : checkCache (Some k1) w = (Returned None, w)).
  { unfold checkCache. cbn [given_key]. rewrite Hen.
    replace (Js.truthy k1) with true by reflexivity.
    apply getFromCache_absent. rewrite Hempty. reflexivity. }
  revert Hcall. unfold getSummonerByRiotId, bind.
  destruct (getAccountByRiotId gameName tagLine region w)
    as [[account | e] w1] eqn:E1; [| discriminate].
  destruct (one_call_returned region _ false k1 T w w1 account E1)
    as (url1 & Hurl1 & Hmake1).
  destruct (stored_at_completion url1 k1 T w w1 account
              Hen eq_refl HT ltac:(rewrite Hmiss1; reflexivity) Hmake1)
    as (Hget1 & Hother1 & Hclk1).
  set (k2 := "summoner:puuid:" +++ puuid account).
  assert (Hne : k2 <> k1) by (unfold k1, k2; cbn; discriminate).
  assert (Hmiss2 : checkCache (Some k2) w1 = (Returned None, w1)).
  { unfold checkCache. cbn [given_key]. rewrite Hen.
    replace (Js.truthy k2) with true by reflexivity.
    apply getFromCache_absent. rewrite (Hother1 k2 Hne), Hempty. reflexivity. }
  intros E2.
  destruct (one_call_returned region _ true k2 T w1 w' v E2)
    as (url2 & Hurl2 & Hmake2).
  destruct (stored_at_completion url2 k2 T w1 w' v
              Hen eq_refl HT ltac:(rewrite Hmiss2; reflexivity) Hmake2)
    as (Hget2 & Hother2 & Hclk2).
  assert (Hacc : getAccountByRiotId gameName tagLine region (elapse d w')
                 = (Returned account, elapse d w')).
  { unfold getAccountByRiotId. cbv zeta. unfold bind.
    rewrite Hurl1. cbn [lift]. unfold ret. fold k1. fold T.
    apply (makeApiCall_live (elapse d w') url1 k1 (Some T)
             (mkCachedData account (clock w1) T) Hen eq_refl).
    - cbn [elapse cache]. rewrite (Hother2 k1 (fun H => Hne (eq_sym H))).
      exact Hget1.
    - cbn [elapse clock timestamp ttl]. lia. }
  rewrite Hacc.
  unfold getSummonerByPuuid. cbv zeta. unfold bind.
  rewrite Hurl2. cbn [lift]. unfold ret. fold k2. fold T.
  apply (makeApiCall_live (elapse d w') url2 k2 (Some T)
           (mkCachedData v (clock w') T) Hen eq_refl).
  - exact Hget2.
  - cbn [elapse clock timestamp ttl]. lia.
Qed.

End MoreMethods.

(** X10 on a summoner looked up on [na1], then on [euw1] five
    milliseconds later. *)
Lemma region_left_out_of_cache_key_witness :
  let w' := snd (@getSummonerByPuuid okEnv "P" "na1" (@initial okEnv 0)) in
  @getSummonerByPuuid okEnv "P" "euw1" (@elapse okEnv 5 w')
  = (Returned (Payload "puuid-1"), @elapse okEnv 5 w').
Proof.
  cbv zeta.
  apply (proj1 (@region_left_out_of_cache_key okEnv) "P" "na1" "euw1"
           (Entry (mkRegionConfig "euw1" "euw1" "europe")) 5 (@initial okEnv 0)).
  - reflexivity.
  - cbn. lia.
  - reflexivity.
  - reflexivity.
  - reflexivity.
  - cbn. lia.
Defined.

(** X11 on the ranked matches of a player, then the normal ones. *)
Lemma getMatchIdsByPuuid_filters_left_out_witness :
  let ranked := MatchHistoryParams.make "P" "na1" None None None
                  (Some "ranked") None None in
  let normal := MatchHistoryParams.make "P" "na1" None None None
                  (Some "normal") None None in
  let w' := snd (@getMatchIdsByPuuid okEnv ranked (@initial okEnv 0)) in
  @getMatchIdsByPuuid okEnv normal (@elapse okEnv 5 w')
  = (Returned (Payload "puuid-1"), @elapse okEnv 5 w').
Proof.
  cbv zeta.
  apply (@getMatchIdsByPuuid_filters_left_out okEnv
           (MatchHistoryParams.make "P" "na1" None None None
              (Some "ranked") None None)
           (Some "normal") None None 5 (@initial okEnv 0)).
  - reflexivity.
  - cbn. lia.
  - reflexivity.
  - reflexivity.
  - cbn. lia.
Defined.

(** X12 on the Riot IDs [a:b#c] and [a#b:c]. *)
Lemma getAccountByRiotId_keys_collide_witness :
  let w' := snd (@getAccountByRiotId okEnv "a:b" "c" "na1" (@initial okEnv 0)) in
  @getAccountByRiotId okEnv "a" "b:c" "na1" (@elapse okEnv 5 w')
  = (Returned (Payload "puuid-1"), @elapse okEnv 5 w').
Proof.
  cbv zeta.
  apply (@getAccountByRiotId_keys_collide okEnv "a:b" "c" "a" "b:c" "na1" 5
           (@initial okEnv 0)).
  - reflexivity.
  - cbn. lia.
  - reflexivity.
  - reflexivity.
  - reflexivity.
  - cbn. lia.
Defined.

(** X13 on a Riot ID and on a bare name on [kr], whose three default
    tagLines the server refuses one after the other. *)
Lemma getSummonerByName_request_budget_witness :
  (fetches (@trace okEnv (snd (@getSummonerByName okEnv "Faker#KR1" "kr"
                                 (@initial okEnv 0))))
   - fetches (@trace okEnv (@initial okEnv 0)) <= 2)%nat
  /\ (fetches (@trace refusingEnv
                 (snd (@getSummonerByName refusingEnv "Faker" "kr"
                         (@initial refusingEnv 0))))
      - fetches (@trace refusingEnv (@initial refusingEnv 0)) <= 2 * 3)%nat.
Proof.
  split.
  - exact (proj1 (proj2 (proj2 (@getSummonerByName_request_budget okEnv
                                  "Faker#KR1" "kr" (@initial okEnv 0))))
             eq_refl).
  - exact (proj2 (proj2 (proj2 (@getSummonerByName_request_budget refusingEnv
                                  "Faker" "kr" (@initial refusingEnv 0))))
             eq_refl ["KR1"; "JP1"; "0000"] eq_refl).
Defined.

(** X14 on a lookup repeated five milliseconds after it returned. *)
Lemma getSummonerByRiotId_repeated_witness :
  let w' := snd (@getSummonerByRiotId okEnv "Faker" "KR1" "kr"
                   (@initial okEnv 0)) in
  @getSummonerByRiotId okEnv "Faker" "KR1" "kr" (@elapse okEnv 5 w')
  = (Returned (Payload "puuid-1"), @elapse okEnv 5 w').
Proof.
  cbv zeta.
  apply (@getSummonerByRiotId_repeated okEnv "Faker" "KR1" "kr" 5
           (@initial okEnv 0)).
  - reflexivity.
  - cbn. lia.
  - reflexivity.
  - reflexivity.
  - vm_compute. intros H. discriminate H.
Defined.

(** ** Handles, regions and ranks *)

Lemma split_no_hash (s : string) :
  Js.includes s "#" = false -> Js.split "#" s = [s].
Proof.
  induction s as [| c s IH]; intros H; [reflexivity |].
  rewrite includes_hash_cons in H. apply orb_false_iff in H.
  destruct H as [Hc Hs]. cbn [Js.split]. rewrite Hc, (IH Hs). reflexivity.
Qed.

Lemma split_parts_no_hash (s : string) :
  Forall (fun p => Js.includes p "#" = false) (Js.split "#" s).
Proof.
  induction s as [| c s IH]; cbn [Js.split].
  - constructor; [reflexivity | constructor].
  - destruct (Ascii.eqb c "#") eqn:Ec.
    + constructor; [reflexivity | exact IH].
    + destruct (Js.split "#" s) as [| p ps].
      * constructor; [| constructor]. rewrite includes_hash_cons, Ec. reflexivity.
      * inversion IH as [| ? ? Hp Hps]; subst.
        constructor; [| exact Hps].
        rewrite includes_hash_cons, Ec, Hp. reflexivity.
Qed.

Lemma split_concat (s : string) : String.concat "#" (Js.split "#" s) = s.
Proof.
  induction s as [| c s IH]; [reflexivity |].
  cbn [Js.split]. destruct (Ascii.eqb_spec c "#") as [-> | Hne].
  - pose proof (split_nonempty "#" s) as Hn.
    destruct (Js.split "#" s) as [| p ps]; [congruence |].
    cbn [String.concat String.append] in *. rewrite IH. reflexivity.
  - destruct (Js.split "#" s) as [| p ps] eqn:E.
    + exfalso. exact (split_nonempty "#" s E).
    + rewrite <- IH. destruct ps; reflexivity.
Qed.

Lemma parseRiotId_some (riotId g t : string) :
  parseRiotId riotId = Some (g, t) <->
  exists a b,
    riotId = formatRiotId a b
    /\ Js.includes a "#" = false /\ Js.includes b "#" = false
    /\ g = Js.trim a /\ t = Js.trim b.
Proof.
  unfold parseRiotId, formatRiotId. split.
  - pose proof (split_concat riotId) as Hc.
    pose proof (split_parts_no_hash riotId) as Hp.
    destruct (Js.split "#" riotId) as [| a [| b [| c l]]]; try discriminate.
    intros [= <- <-]. exists a, b.
    inversion Hp as [| ? ? Ha Hp']; subst.
    inversion Hp' as [| ? ? Hb _]; subst.
    repeat split; assumption.
  - intros (a & b & -> & Ha & Hb & -> & ->).
    change ("#" +++ b) with (String "#" b).
    rewrite (split_segment a b Ha), (split_no_hash b Hb). reflexivity.
Qed.

(** X15. On ASCII strings, [parseRiotId] accepts exactly the strings with
    one hash, and hands back the two sides trimmed: it is the inverse of
    [formatRiotId] on parts without a hash, up to the white space around
    them. *)
Theorem parseRiotId_inverts_formatRiotId :
  (forall riotId g t : string,
      is_ascii riotId = true ->
      (parseRiotId riotId = Some (g, t) <->
       exists a b,
         riotId = formatRiotId a b
         /\ Js.includes a "#" = false /\ Js.includes b "#" = false
         /\ g = Js.trim a /\ t = Js.trim b))
  /\ (forall gameName tagLine : string,
         is_ascii gameName = true -> is_ascii tagLine = true ->
         Js.includes gameName "#" = false ->
         Js.includes tagLine "#" = false ->
         parseRiotId (formatRiotId gameName tagLine)
         = Some (Js.trim gameName, Js.trim tagLine)).
Proof.
  split; [intros riotId g t _; exact (parseRiotId_some riotId g t) |].
  intros a b _ _ Ha Hb. apply parseRiotId_some. exists a, b.
  repeat split; assumption.
Qed.

Section Handles.

Context {C : Collaborators}.

(** X16. An ASCII handle with a hash that [isValidSummonerName] accepts
    has exactly one hash; the two sides, trimmed, are 3 to 16 and 2 to 5 characters
    long, and they are the gameName and the tagLine that [getSummonerByName]
    looks up. *)
Theorem validated_riot_id_is_looked_up
  (name region : string) (w : World)
  (Hascii : is_ascii name = true)
  (Hvalid : isValidSummonerName name = true)
  (Hhash : Js.includes name "#" = true) :
  exists a b,
    name = formatRiotId a b
    /\ Js.includes a "#" = false /\ Js.includes b "#" = false
    /\ (3 <= String.length (Js.trim a) <= 16)%nat
    /\ (2 <= String.length (Js.trim b) <= 5)%nat
    /\ getSummonerByName name region w
       = getSummonerByRiotId (Js.trim a) (Js.trim b) region w.
Proof.
  revert Hvalid. unfold isValidSummonerName. rewrite Hhash.
  destruct (negb (Js.truthy name) || (String.length name <? 3)%nat)%bool;
    [discriminate |].
  destruct (parseRiotId name) as [[g t] |] eqn:Ep; [| discriminate].
  apply parseRiotId_some in Ep. destruct Ep as (a & b & -> & Ha & Hb & -> & ->).
  destruct ((String.length (Js.trim a) <? 3)%nat
            || (16 <? String.length (Js.trim a))%nat)%bool eqn:E1;
    [discriminate |].
  destruct ((String.length (Js.trim b) <? 2)%nat
            || (5 <? String.length (Js.trim b))%nat)%bool eqn:E2;
    [discriminate |].
  intros _. apply orb_false_iff in E1, E2.
  destruct E1 as [E1 E1'], E2 as [E2 E2'].
  apply Nat.ltb_ge in E1, E1', E2, E2'.
  exists a, b. repeat split; try assumption.
  unfold getSummonerByName. rewrite Hhash. cbv zeta.
  unfold formatRiotId. change ("#" +++ b) with (String "#" b).
  rewrite (split_segment a b Ha), (split_no_hash b Hb). reflexivity.
Qed.

End Handles.

(** X16 on the handle the tester uses to check the key. *)
Lemma validated_riot_id_is_looked_up_witness :
  exists a b,
    "Doublelift#NA1" = formatRiotId a b
    /\ Js.includes a "#" = false /\ Js.includes b "#" = false
    /\ (3 <= String.length (Js.trim a) <= 16)%nat
    /\ (2 <= String.length (Js.trim b) <= 5)%nat
    /\ @getSummonerByName okEnv "Doublelift#NA1" "na1" (@initial okEnv 0)
       = @getSummonerByRiotId okEnv (Js.trim a) (Js.trim b) "na1"
           (@initial okEnv 0).
Proof.
  exact (@validated_riot_id_is_looked_up okEnv "Doublelift#NA1" "na1"
           (@initial okEnv 0) eq_refl eq_refl eq_refl).
Defined.

(** X15 on a handle with white space around its parts. *)
Lemma parseRiotId_inverts_formatRiotId_witness :
  parseRiotId (formatRiotId " Hide on bush " "KR1 ")
  = Some (Js.trim " Hide on bush ", Js.trim "KR1 ").
Proof.
  exact (proj2 parseRiotId_inverts_formatRiotId " Hide on bush " "KR1 "
           eq_refl eq_refl eq_refl eq_refl).
Defined.

(** *** Letter case *)

Lemma code_lt_256 (c : ascii) : (Js.code c < 256)%nat.
Proof. unfold Js.code. apply nat_ascii_bounded. Qed.

Lemma code_ascii_of_nat (n : nat) : (n < 256)%nat -> Js.code (ascii_of_nat n) = n.
Proof. intros H. unfold Js.code. apply nat_ascii_embedding. exact H. Qed.

Lemma lower_upper_char (c : ascii) :
  Js.lower_char (Js.upper_char c) = Js.lower_char c.
Proof.
  unfold Js.upper_char.
  destruct ((97 <=? Js.code c)%nat && (Js.code c <=? 122)%nat)%bool eqn:E;
    [| reflexivity].
  apply andb_prop in E. destruct E as [E1 E2].
  apply Nat.leb_le in E1, E2.
  unfold Js.lower_char, Js.is_upper.
  rewrite (code_ascii_of_nat (Js.code c - 32)) by lia.
  replace ((65 <=? Js.code c - 32)%nat) with true
    by (symmetry; apply Nat.leb_le; lia).
  replace ((Js.code c - 32 <=? 90)%nat) with true
    by (symmetry; apply Nat.leb_le; lia).
  replace ((65 <=? Js.code c)%nat && (Js.code c <=? 90)%nat)%bool with false
    by (symmetry; apply andb_false_iff; right; apply Nat.leb_gt; lia).
  cbn [andb]. replace (Js.code c - 32 + 32)%nat with (Js.code c) by lia.
  unfold Js.code. apply ascii_nat_embedding.
Qed.

Lemma upper_upper_char (c : ascii) :
  Js.upper_char (Js.upper_char c) = Js.upper_char c.
Proof.
  unfold Js.upper_char at 2 3.
  destruct ((97 <=? Js.code c)%nat && (Js.code c <=? 122)%nat)%bool eqn:E.
  - apply andb_prop in E. destruct E as [E1 E2].
    apply Nat.leb_le in E1, E2.
    unfold Js.upper_char.
    rewrite (code_ascii_of_nat (Js.code c - 32)) by lia.
    replace ((97 <=? Js.code c - 32)%nat) with false
      by (symmetry; apply Nat.leb_gt; lia).
    reflexivity.
  - unfold Js.upper_char. rewrite E. reflexivity.
Qed.

Lemma lower_lower_char (c : ascii) :
  Js.lower_char (Js.lower_char c) = Js.lower_char c.
Proof.
  unfold Js.lower_char at 2 3. unfold Js.is_upper.
  destruct ((65 <=? Js.code c)%nat && (Js.code c <=? 90)%nat)%bool eqn:E.
  - apply andb_prop in E. destruct E as [E1 E2].
    apply Nat.leb_le in E1, E2.
    unfold Js.lower_char, Js.is_upper.
    rewrite (code_ascii_of_nat (Js.code c + 32)) by lia.
    replace ((Js.code c + 32 <=? 90)%nat) with false
      by (symmetry; apply Nat.leb_gt; lia).
    rewrite andb_false_r. reflexivity.
  - unfold Js.lower_char, Js.is_upper. rewrite E. reflexivity.
Qed.

Lemma toLowerCase_toUpperCase (s : string) :
  Js.toLowerCase (Js.toUpperCase s) = Js.toLowerCase s.
Proof.
  induction s as [| c s IH]; [reflexivity |].
  cbn [Js.toUpperCase Js.toLowerCase]. rewrite lower_upper_char, IH. reflexivity.
Qed.

Lemma toUpperCase_idem (s : string) :
  Js.toUpperCase (Js.toUpperCase s) = Js.toUpperCase s.
Proof.
  induction s as [| c s IH]; [reflexivity |].
  cbn [Js.toUpperCase]. rewrite upper_upper_char, IH. reflexivity.
Qed.

Lemma toLowerCase_idem (s : string) :
  Js.toLowerCase (Js.toLowerCase s) = Js.toLowerCase s.
Proof.
  induction s as [| c s IH]; [reflexivity |].
  cbn [Js.toLowerCase]. rewrite lower_lower_char, IH. reflexivity.
Qed.

(** *** Regions *)

Lemma get_none_not_in_keys {V} (k : string) (m : JsMap.t V) :
  JsMap.get k m = None <-> ~ In k (JsMap.keys m).
Proof.
  induction m as [| [k' v'] m IH]; cbn [JsMap.get JsMap.keys map fst].
  - split; [intros _ [] | reflexivity].
  - destruct (String.eqb_spec k k') as [-> | Hne].
    + split; [discriminate | intros H; exfalso; apply H; left; reflexivity].
    + rewrite IH. unfold JsMap.keys. split.
      * intros H [Heq | Hin]; [congruence | exact (H Hin)].
      * intros H Hin. apply H. right. exact Hin.
Qed.

(** X17. [isValidRegion] accepts an ASCII region exactly when its lower-cased
    form is one of [getSupportedRegions], in any letter case, and for these
    regions, and for no other, [getRegionConfig] hands back an entry of
    [REGIONS]: the name of an inherited property, which [getRegionConfig]
    lets through, is refused. *)
Theorem isValidRegion_exact (region : string)
  (Hascii : is_ascii region = true) :
  (isValidRegion region = true <-> In (Js.toLowerCase region) getSupportedRegions)
  /\ (isValidRegion region = true <->
      exists rc, getRegionConfig region = inr (Entry rc))
  /\ isValidRegion (Js.toUpperCase region) = isValidRegion region
  /\ (In (Js.toLowerCase region) Object_prototype ->
      isValidRegion region = false
      /\ getRegionConfig region = inr (Foreign (Js.toLowerCase region))).
Proof.
  unfold isValidRegion, hasOwnProperty, getSupportedRegions, Object_keys.
  split; [| split; [| split]].
  - destruct (JsMap.get (Js.toLowerCase region) REGIONS) as [rc |] eqn:E.
    + split; [intros _ | reflexivity].
      exact (get_some_in_keys _ _ _ E).
    + split; [discriminate |]. intros Hin.
      apply get_none_not_in_keys in E. contradiction.
  - unfold getRegionConfig, property.
    destruct (JsMap.get (Js.toLowerCase region) REGIONS) as [rc |] eqn:E.
    + split; [intros _; exists rc; reflexivity | reflexivity].
    + split; [discriminate |].
      destruct (existsb _ Object_prototype); intros (rc & H); discriminate H.
  - rewrite toLowerCase_toUpperCase. reflexivity.
  - intros Hin.
    assert (Hnone : JsMap.get (Js.toLowerCase region) REGIONS = None).
    { cbn in Hin.
      repeat (destruct Hin as [<- | Hin]; [reflexivity |]). destruct Hin. }
    unfold getRegionConfig, property. rewrite Hnone.
    split; [reflexivity |].
    replace (existsb (String.eqb (Js.toLowerCase region)) Object_prototype)
      with true; [reflexivity |].
    symmetry. apply existsb_exists. exists (Js.toLowerCase region).
    split; [exact Hin | apply String.eqb_refl].
Qed.

Lemma regionMap_names_truthy :
  forallb (fun entry => Js.truthy (snd entry)) regionMap = true.
Proof. reflexivity. Qed.

(** X18. [getRegionDisplayName] has a name of its own table for every
    ASCII region [isValidRegion] accepts; for any other region it answers with the
    upper-cased code, or, when the lower-cased code names an inherited
    property, with what that property holds. *)
Theorem getRegionDisplayName_covers_supported_regions (region : string)
  (Hascii : is_ascii region = true) :
  (isValidRegion region = true ->
   exists name, In (Js.toLowerCase region, name) regionMap
                /\ getRegionDisplayName region = inr name)
  /\ (isValidRegion region = false ->
      getRegionDisplayName region
      = if existsb (String.eqb (Js.toLowerCase region)) Object_prototype
        then inl (Js.toLowerCase region)
        else inr (Js.toUpperCase region)).
Proof.
  assert (Hkeys : JsMap.keys regionMap = JsMap.keys REGIONS) by reflexivity.
  unfold isValidRegion, hasOwnProperty, getRegionDisplayName, property.
  split.
  - destruct (JsMap.get (Js.toLowerCase region) REGIONS) as [rc |] eqn:E;
      [intros _ | discriminate].
    apply get_some_in_keys in E. rewrite <- Hkeys in E.
    destruct (JsMap.get (Js.toLowerCase region) regionMap) as [name |] eqn:En.
    + exists name. pose proof (get_in _ _ _ En) as Hin.
      split; [exact Hin |].
      pose proof (proj1 (forallb_forall _ _) regionMap_names_truthy _ Hin) as Ht.
      cbn [snd] in Ht. rewrite Ht. reflexivity.
    + apply get_none_not_in_keys in En. contradiction.
  - destruct (JsMap.get (Js.toLowerCase region) REGIONS) as [rc |] eqn:E;
      [discriminate | intros _].
    apply get_none_not_in_keys in E. rewrite <- Hkeys in E.
    apply get_none_not_in_keys in E. rewrite E.
    destruct (existsb _ Object_prototype); reflexivity.
Qed.

(** X18 on an upper-cased code. *)
Lemma getRegionDisplayName_covers_supported_regions_witness :
  exists name, In (Js.toLowerCase "EUW1", name) regionMap
               /\ getRegionDisplayName "EUW1" = inr name.
Proof.
  exact (proj1 (getRegionDisplayName_covers_supported_regions "EUW1" eq_refl)
           eq_refl).
Defined.

(** X17 on the name of an inherited property. *)
Lemma isValidRegion_exact_witness :
  isValidRegion "constructor" = false
  /\ getRegionConfig "constructor" = inr (Foreign (Js.toLowerCase "constructor")).
Proof.
  apply (proj2 (proj2 (proj2 (isValidRegion_exact "constructor" eq_refl)))).
  cbn. left. reflexivity.
Defined.

(** *** Ranks *)

(** X19. [formatRank] reads an ASCII tier in any letter case: the tier in
    capitals gives the same text as the tier as given. The text starts with
    the tier, its first letter a capital and the others small, and the rank
    follows, after one space, except for the three apex tiers. *)
Theorem formatRank_any_case (tier rank : string)
  (Hascii : is_ascii tier = true) :
  formatRank (Js.toUpperCase tier) rank = formatRank tier rank
  /\ formatRank (Js.toLowerCase tier) rank = formatRank tier rank
  /\ (In (Js.toUpperCase tier) ["MASTER"; "GRANDMASTER"; "CHALLENGER"] ->
      formatRank tier rank = capitalize tier)
  /\ (~ In (Js.toUpperCase tier) ["MASTER"; "GRANDMASTER"; "CHALLENGER"] ->
      formatRank tier rank = capitalize tier +++ " " +++ rank).
Proof.
  assert (Hcap_up : capitalize (Js.toUpperCase tier) = capitalize tier).
  { destruct tier as [| c s]; [reflexivity |].
    cbn [Js.toUpperCase capitalize].
    rewrite upper_upper_char, toLowerCase_toUpperCase. reflexivity. }
  assert (Hup_low : forall s, Js.toUpperCase (Js.toLowerCase s) = Js.toUpperCase s).
  { induction s as [| c s IH]; [reflexivity |].
    cbn [Js.toUpperCase Js.toLowerCase]. rewrite IH. f_equal.
    unfold Js.lower_char, Js.is_upper.
    destruct ((65 <=? Js.code c)%nat && (Js.code c <=? 90)%nat)%bool eqn:E;
      [| reflexivity].
    apply andb_prop in E. destruct E as [E1 E2]. apply Nat.leb_le in E1, E2.
    unfold Js.upper_char.
    rewrite (code_ascii_of_nat (Js.code c + 32)) by lia.
    replace ((97 <=? Js.code c + 32)%nat) with true
      by (symmetry; apply Nat.leb_le; lia).
    replace ((Js.code c + 32 <=? 122)%nat) with true
      by (symmetry; apply Nat.leb_le; lia).
    replace ((97 <=? Js.code c)%nat) with false
      by (symmetry; apply Nat.leb_gt; lia).
    cbn [andb]. replace (Js.code c + 32 - 32)%nat with (Js.code c) by lia.
    unfold Js.code. apply ascii_nat_embedding. }
  assert (Hcap_low : capitalize (Js.toLowerCase tier) = capitalize tier).
  { destruct tier as [| c s]; [reflexivity |].
    cbn [Js.toLowerCase capitalize]. rewrite toLowerCase_idem. f_equal.
    pose proof (Hup_low (String c EmptyString)) as H.
    cbn [Js.toUpperCase Js.toLowerCase] in H. congruence. }
  unfold formatRank.
  rewrite toUpperCase_idem, Hup_low, Hcap_up, Hcap_low.
  split; [reflexivity | split; [reflexivity |]].
  destruct (existsb (String.eqb (Js.toUpperCase tier))
              ["MASTER"; "GRANDMASTER"; "CHALLENGER"]) eqn:E.
  - split; [reflexivity |]. intros Hn. exfalso. apply Hn.
    apply existsb_exists in E. destruct E as (x & Hin & Hx).
    apply String.eqb_eq in Hx. subst x. exact Hin.
  - split; [| reflexivity]. intros Hin. exfalso.
    assert (existsb (String.eqb (Js.toUpperCase tier))
              ["MASTER"; "GRANDMASTER"; "CHALLENGER"] = true) as Ht.
    { apply existsb_exists. exists (Js.toUpperCase tier).
      split; [exact Hin | apply String.eqb_refl]. }
    congruence.
Qed.

(** X19 on an apex tier in mixed case. *)
Lemma formatRank_any_case_witness :
  formatRank "gRaNdMaStEr" "I" = capitalize "gRaNdMaStEr".
Proof.
  apply (proj1 (proj2 (proj2 (formatRank_any_case "gRaNdMaStEr" "I" eq_refl)))).
  cbn. right. left. reflexivity.
Defined.

(** *** Normalised names *)

Lemma is_ws_lower_char (c : ascii) : Js.is_ws (Js.lower_char c) = Js.is_ws c.
Proof.
  unfold Js.lower_char, Js.is_upper.
  destruct ((65 <=? Js.code c)%nat && (Js.code c <=? 90)%nat)%bool eqn:E;
    [| reflexivity].
  apply andb_prop in E. destruct E as [E1 E2]. apply Nat.leb_le in E1, E2.
  unfold Js.is_ws. rewrite (code_ascii_of_nat (Js.code c + 32)) by lia.
  replace ((Js.code c + 32 <=? 13)%nat) with false
    by (symmetry; apply Nat.leb_gt; lia).
  replace ((Js.code c + 32 =? 32)%nat) with false
    by (symmetry; apply Nat.eqb_neq; lia).
  replace ((Js.code c <=? 13)%nat) with false
    by (symmetry; apply Nat.leb_gt; lia).
  replace ((Js.code c =? 32)%nat) with false
    by (symmetry; apply Nat.eqb_neq; lia).
  rewrite !andb_false_r. reflexivity.
Qed.

Lemma is_upper_lower_char (c : ascii) : Js.is_upper (Js.lower_char c) = false.
Proof.
  unfold Js.lower_char.
  destruct (Js.is_upper c) eqn:E; [| exact E].
  unfold Js.is_upper in *.
  apply andb_prop in E. destruct E as [E1 E2]. apply Nat.leb_le in E1, E2.
  rewrite (code_ascii_of_nat (Js.code c + 32)) by lia.
  apply andb_false_iff. right. apply Nat.leb_gt. lia.
Qed.

Lemma remove_white_space_clean (s : string) :
  no_white_space (remove_white_space s) = true.
Proof.
  induction s as [| c s IH]; [reflexivity |].
  cbn [remove_white_space]. destruct (Js.is_ws c) eqn:E; [exact IH |].
  unfold no_white_space in *. cbn [list_ascii_of_string forallb].
  rewrite E, IH. reflexivity.
Qed.

Lemma remove_white_space_id (s : string) :
  no_white_space s = true -> remove_white_space s = s.
Proof.
  unfold no_white_space.
  induction s as [| c s IH]; [reflexivity |].
  cbn [list_ascii_of_string forallb remove_white_space].
  intros H. apply andb_prop in H. destruct H as [Hc Hs].
  apply negb_true_iff in Hc. rewrite Hc, (IH Hs). reflexivity.
Qed.

Lemma remove_white_space_lower (s : string) :
  remove_white_space (Js.toLowerCase s) = Js.toLowerCase (remove_white_space s).
Proof.
  induction s as [| c s IH]; [reflexivity |].
  cbn [Js.toLowerCase remove_white_space]. rewrite is_ws_lower_char.
  destruct (Js.is_ws c); [exact IH |].
  cbn [Js.toLowerCase]. rewrite IH. reflexivity.
Qed.

Lemma trimStart_clean (s : string) :
  no_white_space s = true -> Js.trimStart s = s.
Proof.
  unfold no_white_space. destruct s as [| c s]; [reflexivity |].
  cbn [list_ascii_of_string forallb Js.trimStart].
  intros H. apply andb_prop in H. destruct H as [Hc _].
  apply negb_true_iff in Hc. rewrite Hc. reflexivity.
Qed.

Lemma reverse_clean (s : string) :
  no_white_space s = true -> no_white_space (Js.reverse s) = true.
Proof.
  unfold no_white_space, Js.reverse.
  rewrite list_ascii_of_string_of_list_ascii.
  rewrite !forallb_forall. intros H c Hin. apply H. apply in_rev. exact Hin.
Qed.

Lemma reverse_reverse (s : string) : Js.reverse (Js.reverse s) = s.
Proof.
  unfold Js.reverse.
  rewrite list_ascii_of_string_of_list_ascii, rev_involutive.
  apply string_of_list_ascii_of_string.
Qed.

Lemma trim_clean (s : string) : no_white_space s = true -> Js.trim s = s.
Proof.
  intros H. unfold Js.trim, Js.trimEnd.
  rewrite (trimStart_clean s H), (trimStart_clean _ (reverse_clean s H)).
  apply reverse_reverse.
Qed.

Lemma toLowerCase_no_capital (s : string) : no_capital (Js.toLowerCase s) = true.
Proof.
  unfold no_capital. induction s as [| c s IH]; [reflexivity |].
  cbn [Js.toLowerCase list_ascii_of_string forallb].
  rewrite is_upper_lower_char, IH. reflexivity.
Qed.

(** X20. The name [normalizeSummonerName] makes of an ASCII name holds no
    white space and no capital letter, and normalising it again changes
    nothing. *)
Theorem normalizeSummonerName_idempotent (name : string)
  (Hascii : is_ascii name = true) :
  no_white_space (normalizeSummonerName name) = true
  /\ no_capital (normalizeSummonerName name) = true
  /\ normalizeSummonerName (normalizeSummonerName name)
     = normalizeSummonerName name.
Proof.
  unfold normalizeSummonerName.
  split; [apply remove_white_space_clean |].
  split.
  - rewrite remove_white_space_lower. apply toLowerCase_no_capital.
  - rewrite (trim_clean _ (remove_white_space_clean _)).
    rewrite (remove_white_space_lower (Js.trim name)) at 1.
    rewrite toLowerCase_idem.
    rewrite <- (remove_white_space_lower (Js.trim name)).
    apply remove_white_space_id, remove_white_space_clean.
Qed.

(** X20 on a name with spaces and capitals. *)
Lemma normalizeSummonerName_idempotent_witness :
  no_white_space (normalizeSummonerName "  Hide on Bush ") = true
  /\ no_capital (normalizeSummonerName "  Hide on Bush ") = true
  /\ normalizeSummonerName (normalizeSummonerName "  Hide on Bush ")
     = normalizeSummonerName "  Hide on Bush ".
Proof.
  exact (normalizeSummonerName_idempotent "  Hide on Bush " eq_refl).
Defined.

(** *** Time since *)

(** X21. [formatTimeSince], for times that are whole numbers of
    milliseconds from 0 to 2^53, by the milliseconds elapsed: minutes up to 59
    below an hour, hours from 1 to 23 below a day, [Yesterday] on the second
    day, days from 2 to 6 below a week, weeks from 1 to 4 below thirty days,
    months from 1 on after that. A timestamp in the future is reported as a
    negative number of days ago. *)
Theorem formatTimeSince_ranges (now timestamp : Z)
  (Hnow : 0 <= now < 9007199254740992)
  (Htimestamp : 0 <= timestamp < 9007199254740992) :
  let diff := now - timestamp in
  let day := 86400000 in
  (diff < 0 ->
   formatTimeSince now timestamp = Js.show (diff / day) +++ " days ago"
   /\ diff / day <= -1)
  /\ (0 <= diff < 3600000 ->
      formatTimeSince now timestamp
      = Js.show (diff / 60000) +++ " minute" +++ plural (diff / 60000) +++ " ago"
      /\ 0 <= diff / 60000 <= 59)
  /\ (3600000 <= diff < day ->
      formatTimeSince now timestamp
      = Js.show (diff / 3600000) +++ " hour" +++ plural (diff / 3600000)
        +++ " ago"
      /\ 1 <= diff / 3600000 <= 23)
  /\ (day <= diff < 2 * day -> formatTimeSince now timestamp = "Yesterday")
  /\ (2 * day <= diff < 7 * day ->
      formatTimeSince now timestamp = Js.show (diff / day) +++ " days ago"
      /\ 2 <= diff / day <= 6)
  /\ (7 * day <= diff < 30 * day ->
      formatTimeSince now timestamp
      = Js.show (diff / day / 7) +++ " week" +++ plural (diff / day / 7)
        +++ " ago"
      /\ 1 <= diff / day / 7 <= 4)
  /\ (30 * day <= diff ->
      formatTimeSince now timestamp
      = Js.show (diff / day / 30) +++ " month" +++ plural (diff / day / 30)
        +++ " ago"
      /\ 1 <= diff / day / 30).
Proof.
  cbv zeta. unfold formatTimeSince. cbv zeta.
  change (1000 * 60 * 60 * 24) with 86400000.
  change (1000 * 60 * 60) with 3600000.
  change (1000 * 60) with 60000.
  set (diff := now - timestamp).
  pose proof (Z.div_mod diff 86400000 ltac:(lia)) as Hd.
  pose proof (Z.mod_pos_bound diff 86400000 ltac:(lia)) as Hdm.
  pose proof (Z.div_mod diff 3600000 ltac:(lia)) as Hh.
  pose proof (Z.mod_pos_bound diff 3600000 ltac:(lia)) as Hhm.
  pose proof (Z.div_mod diff 60000 ltac:(lia)) as Hm.
  pose proof (Z.mod_pos_bound diff 60000 ltac:(lia)) as Hmm.
  set (days := diff / 86400000) in *.
  set (hours := diff / 3600000) in *.
  set (minutes := diff / 60000) in *.
  pose proof (Z.div_mod days 7 ltac:(lia)) as Hw.
  pose proof (Z.mod_pos_bound days 7 ltac:(lia)) as Hwm.
  pose proof (Z.div_mod days 30 ltac:(lia)) as Hmo.
  pose proof (Z.mod_pos_bound days 30 ltac:(lia)) as Hmom.
  repeat match goal with |- _ /\ _ => split end; intros Hr.
  all: try (destruct (Z.eqb_spec days 0); [try lia |]).
  all: try (destruct (Z.eqb_spec hours 0); [try lia |]).
  all: try (destruct (Z.eqb_spec days 1); [try lia |]).
  all: try (destruct (Z.ltb_spec days 7); [try lia |]).
  all: try (destruct (Z.ltb_spec days 30); [try lia |]).
  all: try (split; [reflexivity | lia]); try reflexivity; try lia.
Qed.

(** X21 on a timestamp one millisecond in the future. *)
Lemma formatTimeSince_ranges_witness :
  formatTimeSince 0 1 = Js.show ((0 - 1) / 86400000) +++ " days ago"
  /\ (0 - 1) / 86400000 <= -1.
Proof.
  apply (proj1 (formatTimeSince_ranges 0 1 ltac:(lia) ltac:(lia))). lia.
Defined.

(** ** The tester *)

Section Tester.

Context {C : Collaborators}.







(** X23. [testApiKey], given a key that is not the placeholder, by the
    status with which the server refuses the account lookup of its probe:
    401 is reported as an invalid or expired key; 404 passes the key; 403,
    the status of a key that has expired, and 429 are passed on as the error
    of the service. *)
Theorem testApiKey_by_status (w : World) (response : Response Json)
  (Hkey : Js.truthy (key Config) = true)
  (Hreal : key Config <> "RGAPI-xxxxxxxx-xxxx-xxxx-xxxx-xxxxxxxxxxxx")
  (Hmiss : fst (checkCache (Some "account:na1:Doublelift:NA1") w)
           = Returned None)
  (Hurl : URL_valid (baseUrls_americas Config
                     +++ "/riot/account/v1/accounts/by-riot-id/Doublelift/NA1")
          = true)
  (Hanswer : forall history now,
      answer (getWithHeaders history now
                (baseUrls_americas Config
                 +++ "/riot/account/v1/accounts/by-riot-id/Doublelift/NA1")
                (key Config))
      = inr response) :
  (status response = 401 -> fst (testApiKey w) = inl InvalidApiKey)
  /\ (status response = 404 -> fst (testApiKey w) = inr tt)
  /\ (status response = 403 ->
      fst (testApiKey w) = inl (ServiceError (RiotApiFailure Forbidden)))
  /\ (status response = 429 ->
      fst (testApiKey w) = inl (ServiceError (RiotApiFailure RateLimited))).
Proof.
  set (url := baseUrls_americas Config
              +++ "/riot/account/v1/accounts/by-riot-id/Doublelift/NA1") in *.
  assert (Hprobe : forall s,
             status response = s ->
             (200 <=? s) && (s <=? 299) = false ->
             exists w',
               testSummoner "Doublelift#NA1" "na1" w
               = (inl (ServiceError (RiotApiFailure (classify response))), w')).
  { intros s Hs Hnok.
    assert (Hok : ok response = false) by (unfold ok; rewrite Hs; exact Hnok).
    unfold testSummoner.
    change (isValidRegion "na1") with true.
    change (isValidSummonerName "Doublelift#NA1") with true.
    cbn [negb].
    change (getSummonerByName "Doublelift#NA1" "na1" w)
      with (getSummonerByRiotId "Doublelift" "NA1" "na1" w).
    unfold getSummonerByRiotId, bind.
    change (getAccountByRiotId "Doublelift" "NA1" "na1" w)
      with (makeApiCall url (Some "account:na1:Doublelift:NA1")
              (Some (summonerTtl Config * 1000)) w).
    destruct (checkCache (Some "account:na1:Doublelift:NA1") w)
      as [r w1] eqn:Ec.
    cbn [fst] in Hmiss. subst r.
    rewrite (makeApiCall_miss url _ _ w w1 Ec), fetchAndStore_exact.
    cbv zeta. rewrite Hurl, Hanswer, Hok. eexists. reflexivity. }
  assert (Hplace : String.eqb (key Config)
                     "RGAPI-xxxxxxxx-xxxx-xxxx-xxxx-xxxxxxxxxxxx" = false)
    by (apply String.eqb_neq; exact Hreal).
  unfold testApiKey. cbv zeta. rewrite Hkey, Hplace. cbn [negb].
  repeat match goal with |- _ /\ _ => split end; intros Hs;
    destruct (Hprobe _ Hs eq_refl) as (w' & ->);
    unfold classify; rewrite Hs; reflexivity.
Qed.

End Tester.


(** X23 on the server that answers the probe with 404. *)
Lemma testApiKey_by_status_witness :
  fst (@testApiKey notFoundEnv (@initial notFoundEnv 0)) = inr tt.
Proof.
  refine (proj1 (proj2 (@testApiKey_by_status notFoundEnv
                          (@initial notFoundEnv 0)
                          (mkResponse 404 "Not Found" None
                             (inr (ErrorBody "Data not found")))
                          eq_refl _ eq_refl eq_refl _)) eq_refl).
  - intros H. discriminate H.
  - intros history now. reflexivity.
Defined.

(** ** Clearing the cache, and absent parameters *)

Section Clearing.

Context {C : Collaborators}.

(** X24. After [clearCache], [getCacheStats] reports no entry, and the
    next gateway call misses the cache whatever its key: it makes a request
    when its URL parses, also for a value that was cached and live before.
    The windows of the rate limiters are not cleared. *)
Theorem clearCache_forgets_all (w : World) :
  let w' := snd (clearCache w) in
  fst (getCacheStats w') = Returned (mkCacheStats 0 [])
  /\ (forall cacheKey, checkCache cacheKey w' = (Returned None, w'))
  /\ (forall url cacheKey ttl0,
         fetches (trace (snd (makeApiCall url cacheKey ttl0 w')))
         = (fetches (trace w) + if URL_valid url then 1 else 0)%nat)
  /\ rateLimiters w' = rateLimiters w
  /\ clock w' = clock w.
Proof.
  cbv zeta.
  assert (Hcheck : forall cacheKey,
             checkCache cacheKey (snd (clearCache w))
             = (Returned None, snd (clearCache w))).
  { intros cacheKey. unfold checkCache.
    destruct (given_key cacheKey) as [k |]; [| reflexivity].
    destruct (cache_enabled Config); reflexivity. }
  split; [reflexivity |].
  split; [exact Hcheck |].
  split; [| split; reflexivity].
  intros url cacheKey ttl0. rewrite makeApiCall_fetches, Hcheck. reflexivity.
Qed.

(** X25. [getMatchIdsByPuuid] takes a filter that is 0, or an empty
    [type], for one that is absent, and an absent [start] and [count] for 0
    and 20: the call with [queue], [startTime] and [endTime] 0 and an empty
    [type] is the call with none of them, request and cache key alike. *)
Theorem getMatchIdsByPuuid_zero_is_absent
  (puuid0 region : string) (start count : option Z) (w : World) :
  getMatchIdsByPuuid
    (MatchHistoryParams.make puuid0 region start count
       (Some 0) (Some EmptyString) (Some 0) (Some 0)) w
  = getMatchIdsByPuuid
      (MatchHistoryParams.make puuid0 region start count None None None None) w
  /\ getMatchIdsByPuuid
       (MatchHistoryParams.make puuid0 region None None None None None None) w
     = getMatchIdsByPuuid
         (MatchHistoryParams.make puuid0 region (Some 0) (Some 20)
            None None None None) w.
Proof. split; reflexivity. Qed.

End Clearing.
